(** * Kotatogram Desktop: popup menu widget, settings manager, system menu

    A shallow embedding of [ui/widgets/menu.cpp] (the [Ui::Menu] widget:
    label parsing, layout, selection / press state machine), of
    [core/kotato_settings.cpp] ([KotatoSettings::Manager]: the debounced
    writer, and the reading and writing of the two settings files) and of
    [WindowHelper::updateSystemMenu] of [ui/platform/win/ui_window_win.cpp],
    followed by the properties proved about them.

    Conventions.
    - C++ [int] values are integers of [Z]; wherever the source mixes an
      [int] with the [size_t] returned by [std::vector::size()], the usual
      arithmetic conversion to the unsigned type is written out with
      [as_size_t], and the conversion back with [to_int].
    - [QString] is a [string]; a [QChar] is an [ascii].
    - [std::vector] is a [list], read with stdpp's lookup and updated in
      place with [alter].
    - Callbacks handed to the widget by its owner are recorded as events
      appended to a log; repaint requests ([update()]) carry no state and
      are left out, and so is [paintEvent], which draws and touches
      nothing but finished ripples.
    - [size_t] is taken 64 bits wide; with 32 bits the same results hold,
      the action count being below 2^31 throughout.
    - A [QJsonObject] is a finite map from keys to values; a settings
      file is represented by what reading it yields, a parse error or a
      JSON document.
    - Flag words of the platform ([UINT]) are integers of [Z] combined
      with [Z.land], [Z.lor] and [Z.lnot]. *)

From Stdlib Require Import ZArith String Ascii Bool Lia Sorted.
From stdpp Require Import base list strings gmap.
Local Open Scope Z_scope.

(* ================================================================== *)
(** ** Machine integers *)

Definition int_min : Z := - 2 ^ 31.
Definition int_max : Z := 2 ^ 31 - 1.

(** The values an [int] can hold. *)
Definition in_int (z : Z) : Prop := int_min <= z <= int_max.

(** Conversion of an integer to the 64-bit unsigned [size_t]. *)
Definition as_size_t (z : Z) : Z := z mod 2 ^ 64.

(** Conversion of an integer back to a 32-bit [int]. *)
Definition to_int (z : Z) : Z :=
  let r := z mod 2 ^ 32 in if r <? 2 ^ 31 then r else r - 2 ^ 32.

(** [v.size()] of a vector. *)
Definition size_of {A} (v : list A) : Z := Z.of_nat (length v).

(** [i >= v.size()], [i < v.size()] and [i > v.size()] for an [int i]:
    the comparison is carried out on [size_t]. *)
Definition int_ge_size (i n : Z) : bool := n <=? as_size_t i.
Definition int_lt_size (i n : Z) : bool := as_size_t i <? n.
Definition int_gt_size (i n : Z) : bool := n <? as_size_t i.

(** [v[i]] for an [int i].  Reading out of range is undefined in the
    source; the model then yields [d]. *)
Definition vec_get {A} (d : A) (v : list A) (i : Z) : A :=
  if i <? 0 then d else default d (v !! Z.to_nat i).

(** [std::clamp(v, lo, hi)], which the standard defines for [lo <= hi]. *)
Definition clamp (v lo hi : Z) : Z :=
  if v <? lo then lo else if hi <? v then hi else v.

(* ================================================================== *)
(** ** Text with entities and the menu label parser *)

Inductive EntityType : Set := Underline.

Record EntityInText := {
  entity_type : EntityType;
  entity_offset : Z;
  entity_length : Z
}.

Record TextWithEntities := {
  text : string;
  entities : list EntityInText
}.

Definition emptyText : TextWithEntities := {| text := ""; entities := [] |}.

(** [result.text.append(ch)] *)
Definition text_append (ch : ascii) (r : TextWithEntities) : TextWithEntities :=
  {| text := text r +:+ String ch EmptyString; entities := entities r |}.

(** [result.entities.append(e)] *)
Definition entities_append (e : EntityInText) (r : TextWithEntities) : TextWithEntities :=
  {| text := text r; entities := entities r ++ [e] |}.

(** [result.text.size()] *)
Definition text_size (r : TextWithEntities) : Z := Z.of_nat (String.length (text r)).

(** The two locals of [ParseMenuItem] that live across loop iterations. *)
Record ParseState := {
  result : TextWithEntities;
  afterAmpersand : bool
}.

Definition ampersand : ascii := "&"%char.

(** One iteration of the [for (const auto ch : text)] loop. *)
Definition ParseMenuItem_step (s : ParseState) (ch : ascii) : ParseState :=
  if afterAmpersand s then
    if Ascii.eqb ch ampersand then
      {| result := text_append ch (result s); afterAmpersand := false |}
    else
      {| result :=
           text_append ch
             (entities_append
                {| entity_type := Underline;
                   entity_offset := text_size (result s);
                   entity_length := 1 |}
                (result s));
         afterAmpersand := false |}
  else if Ascii.eqb ch ampersand then
    {| result := result s; afterAmpersand := true |}
  else
    {| result := text_append ch (result s); afterAmpersand := false |}.

Fixpoint ParseMenuItem_loop (s : ParseState) (chars : string) : ParseState :=
  match chars with
  | EmptyString => s
  | String ch rest => ParseMenuItem_loop (ParseMenuItem_step s ch) rest
  end.

Definition ParseMenuItem_init : ParseState :=
  {| result := emptyText; afterAmpersand := false |}.

Definition ParseMenuItem (t : string) : TextWithEntities :=
  result (ParseMenuItem_loop ParseMenuItem_init t).

(** [QString::split(sep)] with the default [Qt::KeepEmptyParts]: the
    pieces between separators; never an empty list. *)
Fixpoint split (sep : ascii) (s : string) : list string :=
  match s with
  | EmptyString => [EmptyString]
  | String c rest =>
      if Ascii.eqb c sep then EmptyString :: split sep rest
      else match split sep rest with
           | p :: ps => String c p :: ps
           | [] => [String c EmptyString]
           end
  end.

Definition tab : ascii := "009"%char.

Definition isEmpty (s : string) : bool := String.eqb s "".

(** The locals [actionText] and [actionShortcut] of [processAction]. *)
Definition actionText (label : string) : string :=
  let actionTextParts := split tab label in
  match actionTextParts with
  | [] => ""%string
  | p :: _ => p
  end.

Definition actionShortcut (label : string) : string :=
  let actionTextParts := split tab label in
  if 1 <? size_of actionTextParts
  then default ""%string (actionTextParts !! 1%nat)
  else ""%string.

(* ================================================================== *)
(** ** Geometry *)

Record QPoint := { point_x : Z; point_y : Z }.

Definition QPoint_sub (a b : QPoint) : QPoint :=
  {| point_x := point_x a - point_x b; point_y := point_y a - point_y b |}.

(** [QMargins] / [style::margins]. *)
Record Margins := {
  margin_left : Z;
  margin_top : Z;
  margin_right : Z;
  margin_bottom : Z
}.

(** [QRect], kept as Qt keeps it: the two corner points, both inclusive. *)
Record QRect := { x1 : Z; y1 : Z; x2 : Z; y2 : Z }.

(** [QRect(left, top, width, height)] *)
Definition QRect_make (left top w h : Z) : QRect :=
  {| x1 := left; y1 := top; x2 := left + w - 1; y2 := top + h - 1 |}.

Definition marginsRemoved (r : QRect) (mg : Margins) : QRect :=
  {| x1 := x1 r + margin_left mg; y1 := y1 r + margin_top mg;
     x2 := x2 r - margin_right mg; y2 := y2 r - margin_bottom mg |}.

(** [QRect::contains(QPoint)], with Qt's normalisation of a rectangle
    whose corners are swapped. *)
Definition contains (r : QRect) (p : QPoint) : bool :=
  let '(l, rr) := if x2 r <? x1 r - 1 then (x2 r, x1 r) else (x1 r, x2 r) in
  let '(t, b) := if y2 r <? y1 r - 1 then (y2 r, y1 r) else (y1 r, y2 r) in
  negb ((point_x p <? l) || (rr <? point_x p))
  && negb ((point_y p <? t) || (b <? point_y p)).

(* ================================================================== *)
(** ** Style, actions and per-action data *)

(** The two toggle styles of [style::Menu]. *)
Inductive ToggleStyle : Set := itemToggle | itemToggleOver.

(** The part of [style::Menu] the widget reads.  Font and text metrics
    belong to the toolkit and are taken as given functions. *)
Record Style := {
  widthMin : Z;
  widthMax : Z;
  skip : Z;
  itemPadding : Margins;
  separatorPadding : Margins;
  separatorWidth : Z;
  font_height : Z;                         (* itemStyle.font->height *)
  font_width : string -> Z;                (* itemStyle.font->width(str) *)
  text_maxWidth : TextWithEntities -> Z;   (* Text::String::maxWidth() *)
  arrow_width : Z;                         (* arrow.width() *)
  toggle_width : ToggleStyle -> Z;         (* ToggleView::getSize().width() *)
  itemToggleShift : Z;
  RightToLeft : bool                       (* style::RightToLeft() *)
}.

(** What the widget reads of a [QAction]. *)
Record QAction := {
  action_text : string;
  isSeparator : bool;
  isEnabled : bool;
  isCheckable : bool;
  isChecked : bool;
  action_menu : bool          (* menu() != nullptr *)
}.

(** [ToggleView]: its style, its checked state and the index captured by
    its update callback. *)
Record ToggleView := {
  toggle_style : ToggleStyle;
  toggle_checked : bool;
  toggle_index : Z
}.

(** [RippleAnimation]: the ripples added so far, each with the point it
    started from and whether it has been told to stop. *)
Definition RippleAnimation := list (QPoint * bool).

Definition ripple_add (p : QPoint) (r : RippleAnimation) : RippleAnimation :=
  r ++ [(p, false)].

Fixpoint ripple_lastStop (r : RippleAnimation) : RippleAnimation :=
  match r with
  | [] => []
  | [(p, _)] => [(p, true)]
  | x :: rest => x :: ripple_lastStop rest
  end.

Record ActionData := {
  data_text : TextWithEntities;
  shortcut : string;
  icon : option nat;
  iconOver : option nat;
  ripple : option RippleAnimation;
  toggle : option ToggleView;
  textWidth : Z;
  hasSubmenu : bool
}.

Definition ActionData_default : ActionData :=
  {| data_text := emptyText; shortcut := ""; icon := None; iconOver := None;
     ripple := None; toggle := None; textWidth := 0; hasSubmenu := false |}.

Definition QAction_default : QAction :=
  {| action_text := ""; isSeparator := false; isEnabled := false;
     isCheckable := false; isChecked := false; action_menu := false |}.

Inductive TriggeredSource : Set := Mouse | Keyboard.

Definition is_Mouse (s : TriggeredSource) : bool :=
  match s with Mouse => true | Keyboard => false end.

(** A call made to one of the owner's callbacks or delegates. *)
Inductive Event :=
| Resized
| Activated (action : option QAction) (top : Z) (source : TriggeredSource)
| Triggered (action : QAction) (top : Z) (source : TriggeredSource)
| MouseMoveDelegate (p : QPoint)
| MousePressDelegate (p : QPoint)
| MouseReleaseDelegate (p : QPoint).

Inductive Key : Set :=
| Key_Enter | Key_Return | Key_Left | Key_Right | Key_Up | Key_Down
| Key_Other (code : Z).

Definition Key_eqb (a b : Key) : bool :=
  match a, b with
  | Key_Enter, Key_Enter | Key_Return, Key_Return
  | Key_Left, Key_Left | Key_Right, Key_Right
  | Key_Up, Key_Up | Key_Down, Key_Down => true
  | Key_Other c, Key_Other d => c =? d
  | _, _ => false
  end.

(* ================================================================== *)
(** ** The widget *)

(** The members of [Ui::Menu], the geometry of the underlying widget
    ([widget_pos] is the global position of its top-left corner) and the
    environment it reads ([cursor_pos] is [QCursor::pos()]). *)
Record Menu := {
  _st : Style;
  _actions : list QAction;
  _actionsData : list ActionData;
  _forceWidth : Z;
  _selected : Z;
  _pressed : Z;
  _childShown : bool;
  _mouseSelection : bool;
  _resizedCallback : bool;
  _activatedCallback : bool;
  _triggeredCallback : bool;
  _keyPressDelegate : option (Key -> bool);
  _mouseMoveDelegate : bool;
  _mousePressDelegate : bool;
  _mouseReleaseDelegate : bool;
  widget_pos : QPoint;
  width : Z;
  height : Z;
  cursor_pos : QPoint;
  events : list Event
}.

(** *** Assignments to single members *)

Definition set_actions (v : list QAction) (m : Menu) : Menu :=
  {| _st := _st m; _actions := v; _actionsData := _actionsData m;
     _forceWidth := _forceWidth m; _selected := _selected m;
     _pressed := _pressed m; _childShown := _childShown m;
     _mouseSelection := _mouseSelection m;
     _resizedCallback := _resizedCallback m;
     _activatedCallback := _activatedCallback m;
     _triggeredCallback := _triggeredCallback m;
     _keyPressDelegate := _keyPressDelegate m;
     _mouseMoveDelegate := _mouseMoveDelegate m;
     _mousePressDelegate := _mousePressDelegate m;
     _mouseReleaseDelegate := _mouseReleaseDelegate m;
     widget_pos := widget_pos m; width := width m; height := height m;
     cursor_pos := cursor_pos m; events := events m |}.

Definition set_actionsData (v : list ActionData) (m : Menu) : Menu :=
  {| _st := _st m; _actions := _actions m; _actionsData := v;
     _forceWidth := _forceWidth m; _selected := _selected m;
     _pressed := _pressed m; _childShown := _childShown m;
     _mouseSelection := _mouseSelection m;
     _resizedCallback := _resizedCallback m;
     _activatedCallback := _activatedCallback m;
     _triggeredCallback := _triggeredCallback m;
     _keyPressDelegate := _keyPressDelegate m;
     _mouseMoveDelegate := _mouseMoveDelegate m;
     _mousePressDelegate := _mousePressDelegate m;
     _mouseReleaseDelegate := _mouseReleaseDelegate m;
     widget_pos := widget_pos m; width := width m; height := height m;
     cursor_pos := cursor_pos m; events := events m |}.

Definition set_forceWidth (v : Z) (m : Menu) : Menu :=
  {| _st := _st m; _actions := _actions m; _actionsData := _actionsData m;
     _forceWidth := v; _selected := _selected m;
     _pressed := _pressed m; _childShown := _childShown m;
     _mouseSelection := _mouseSelection m;
     _resizedCallback := _resizedCallback m;
     _activatedCallback := _activatedCallback m;
     _triggeredCallback := _triggeredCallback m;
     _keyPressDelegate := _keyPressDelegate m;
     _mouseMoveDelegate := _mouseMoveDelegate m;
     _mousePressDelegate := _mousePressDelegate m;
     _mouseReleaseDelegate := _mouseReleaseDelegate m;
     widget_pos := widget_pos m; width := width m; height := height m;
     cursor_pos := cursor_pos m; events := events m |}.

Definition set_selected (v : Z) (m : Menu) : Menu :=
  {| _st := _st m; _actions := _actions m; _actionsData := _actionsData m;
     _forceWidth := _forceWidth m; _selected := v;
     _pressed := _pressed m; _childShown := _childShown m;
     _mouseSelection := _mouseSelection m;
     _resizedCallback := _resizedCallback m;
     _activatedCallback := _activatedCallback m;
     _triggeredCallback := _triggeredCallback m;
     _keyPressDelegate := _keyPressDelegate m;
     _mouseMoveDelegate := _mouseMoveDelegate m;
     _mousePressDelegate := _mousePressDelegate m;
     _mouseReleaseDelegate := _mouseReleaseDelegate m;
     widget_pos := widget_pos m; width := width m; height := height m;
     cursor_pos := cursor_pos m; events := events m |}.

Definition set_pressed (v : Z) (m : Menu) : Menu :=
  {| _st := _st m; _actions := _actions m; _actionsData := _actionsData m;
     _forceWidth := _forceWidth m; _selected := _selected m;
     _pressed := v; _childShown := _childShown m;
     _mouseSelection := _mouseSelection m;
     _resizedCallback := _resizedCallback m;
     _activatedCallback := _activatedCallback m;
     _triggeredCallback := _triggeredCallback m;
     _keyPressDelegate := _keyPressDelegate m;
     _mouseMoveDelegate := _mouseMoveDelegate m;
     _mousePressDelegate := _mousePressDelegate m;
     _mouseReleaseDelegate := _mouseReleaseDelegate m;
     widget_pos := widget_pos m; width := width m; height := height m;
     cursor_pos := cursor_pos m; events := events m |}.

Definition set_childShown (v : bool) (m : Menu) : Menu :=
  {| _st := _st m; _actions := _actions m; _actionsData := _actionsData m;
     _forceWidth := _forceWidth m; _selected := _selected m;
     _pressed := _pressed m; _childShown := v;
     _mouseSelection := _mouseSelection m;
     _resizedCallback := _resizedCallback m;
     _activatedCallback := _activatedCallback m;
     _triggeredCallback := _triggeredCallback m;
     _keyPressDelegate := _keyPressDelegate m;
     _mouseMoveDelegate := _mouseMoveDelegate m;
     _mousePressDelegate := _mousePressDelegate m;
     _mouseReleaseDelegate := _mouseReleaseDelegate m;
     widget_pos := widget_pos m; width := width m; height := height m;
     cursor_pos := cursor_pos m; events := events m |}.

Definition set_mouseSelection (v : bool) (m : Menu) : Menu :=
  {| _st := _st m; _actions := _actions m; _actionsData := _actionsData m;
     _forceWidth := _forceWidth m; _selected := _selected m;
     _pressed := _pressed m; _childShown := _childShown m;
     _mouseSelection := v;
     _resizedCallback := _resizedCallback m;
     _activatedCallback := _activatedCallback m;
     _triggeredCallback := _triggeredCallback m;
     _keyPressDelegate := _keyPressDelegate m;
     _mouseMoveDelegate := _mouseMoveDelegate m;
     _mousePressDelegate := _mousePressDelegate m;
     _mouseReleaseDelegate := _mouseReleaseDelegate m;
     widget_pos := widget_pos m; width := width m; height := height m;
     cursor_pos := cursor_pos m; events := events m |}.

(** [resize(w, h)] of the underlying widget. *)
Definition resize (w h : Z) (m : Menu) : Menu :=
  {| _st := _st m; _actions := _actions m; _actionsData := _actionsData m;
     _forceWidth := _forceWidth m; _selected := _selected m;
     _pressed := _pressed m; _childShown := _childShown m;
     _mouseSelection := _mouseSelection m;
     _resizedCallback := _resizedCallback m;
     _activatedCallback := _activatedCallback m;
     _triggeredCallback := _triggeredCallback m;
     _keyPressDelegate := _keyPressDelegate m;
     _mouseMoveDelegate := _mouseMoveDelegate m;
     _mousePressDelegate := _mousePressDelegate m;
     _mouseReleaseDelegate := _mouseReleaseDelegate m;
     widget_pos := widget_pos m; width := w; height := h;
     cursor_pos := cursor_pos m; events := events m |}.

(** The pointer is moved by the user, not by the widget. *)
Definition set_cursor_pos (p : QPoint) (m : Menu) : Menu :=
  {| _st := _st m; _actions := _actions m; _actionsData := _actionsData m;
     _forceWidth := _forceWidth m; _selected := _selected m;
     _pressed := _pressed m; _childShown := _childShown m;
     _mouseSelection := _mouseSelection m;
     _resizedCallback := _resizedCallback m;
     _activatedCallback := _activatedCallback m;
     _triggeredCallback := _triggeredCallback m;
     _keyPressDelegate := _keyPressDelegate m;
     _mouseMoveDelegate := _mouseMoveDelegate m;
     _mousePressDelegate := _mousePressDelegate m;
     _mouseReleaseDelegate := _mouseReleaseDelegate m;
     widget_pos := widget_pos m; width := width m; height := height m;
     cursor_pos := p; events := events m |}.

(** Record a call to a callback of the owner. *)
Definition emit (e : Event) (m : Menu) : Menu :=
  {| _st := _st m; _actions := _actions m; _actionsData := _actionsData m;
     _forceWidth := _forceWidth m; _selected := _selected m;
     _pressed := _pressed m; _childShown := _childShown m;
     _mouseSelection := _mouseSelection m;
     _resizedCallback := _resizedCallback m;
     _activatedCallback := _activatedCallback m;
     _triggeredCallback := _triggeredCallback m;
     _keyPressDelegate := _keyPressDelegate m;
     _mouseMoveDelegate := _mouseMoveDelegate m;
     _mousePressDelegate := _mousePressDelegate m;
     _mouseReleaseDelegate := _mouseReleaseDelegate m;
     widget_pos := widget_pos m; width := width m; height := height m;
     cursor_pos := cursor_pos m; events := events m ++ [e] |}.

(** *** Item geometry *)

(** The two [const int] members set by the constructor. *)
Definition _itemHeight (m : Menu) : Z :=
  margin_top (itemPadding (_st m)) + font_height (_st m)
  + margin_bottom (itemPadding (_st m)).

Definition _separatorHeight (m : Menu) : Z :=
  margin_top (separatorPadding (_st m)) + separatorWidth (_st m)
  + margin_bottom (separatorPadding (_st m)).

(** [action->isSeparator() ? _separatorHeight : _itemHeight] *)
Definition actionHeight (m : Menu) (a : QAction) : Z :=
  if isSeparator a then _separatorHeight m else _itemHeight m.

(** [_actions[i]] and [_actionsData[i]]. *)
Definition action_at (m : Menu) (i : Z) : QAction :=
  vec_get QAction_default (_actions m) i.

Definition data_at (m : Menu) (i : Z) : ActionData :=
  vec_get ActionData_default (_actionsData m) i.

(** In-place change of [_actionsData[i]]. *)
Definition alter_data (f : ActionData -> ActionData) (i : Z) (m : Menu) : Menu :=
  if i <? 0 then m
  else set_actionsData (alter f (Z.to_nat i) (_actionsData m)) m.

Definition mapFromGlobal (m : Menu) (p : QPoint) : QPoint :=
  QPoint_sub p (widget_pos m).

Definition rect (m : Menu) : QRect := QRect_make 0 0 (width m) (height m).

(** The interactive inner rectangle used by the pointer handlers. *)
Definition inner_rect (m : Menu) : QRect :=
  marginsRemoved (rect m)
    {| margin_left := 0; margin_top := skip (_st m);
       margin_right := 0; margin_bottom := skip (_st m) |}.

Definition itemTop (index : Z) (m : Menu) : Z :=
  let index :=
    if int_gt_size index (size_of (_actions m))
    then to_int (size_of (_actions m)) else index in
  fold_left (fun top a => top + actionHeight m a)
            (take (Z.to_nat index) (_actions m)) (skip (_st m)).

(** *** Selection and press indices *)

(** [toggle->setStyle(s)] when the action has a toggle. *)
Definition toggle_setStyle (s : ToggleStyle) (d : ActionData) : ActionData :=
  match toggle d with
  | Some t =>
      {| data_text := data_text d; shortcut := shortcut d; icon := icon d;
         iconOver := iconOver d; ripple := ripple d;
         toggle := Some {| toggle_style := s;
                           toggle_checked := toggle_checked t;
                           toggle_index := toggle_index t |};
         textWidth := textWidth d; hasSubmenu := hasSubmenu d |}
  | None => d
  end.

Definition setSelected (selected : Z) (m : Menu) : Menu :=
  let selected :=
    if int_ge_size selected (size_of (_actions m)) then -1 else selected in
  if negb (_selected m =? selected) then
    let m1 :=
      if (0 <=? _selected m) && negb (_selected m =? _pressed m)
      then alter_data (toggle_setStyle itemToggle) (_selected m) m
      else m in
    let m2 := set_selected selected m1 in
    let m3 :=
      if (0 <=? _selected m2) && isEnabled (action_at m2 (_selected m2))
      then alter_data (toggle_setStyle itemToggleOver) (_selected m2) m2
      else m2 in
    if _activatedCallback m3 then
      let source := if _mouseSelection m3 then Mouse else Keyboard in
      emit (Activated
              (if 0 <=? _selected m3
               then Some (action_at m3 (_selected m3)) else None)
              (itemTop (_selected m3) m3)
              source) m3
    else m3
  else m.

Definition setPressed (pressed : Z) (m : Menu) : Menu :=
  let pressed :=
    if int_ge_size pressed (size_of (_actions m)) then -1 else pressed in
  if negb (_pressed m =? pressed) then
    let m1 :=
      if (0 <=? _pressed m) && negb (_pressed m =? _selected m)
      then alter_data (toggle_setStyle itemToggle) (_pressed m) m
      else m in
    let m2 := set_pressed pressed m1 in
    if (0 <=? _pressed m2) && isEnabled (action_at m2 (_pressed m2))
    then alter_data (toggle_setStyle itemToggleOver) (_pressed m2) m2
    else m2
  else m.

(** The [while] loop of [updateSelected].  [rest] holds the actions at
    the indices above [selected], so [++selected < _actions.size()] is
    the test that [rest] is not empty; the increment happens either way. *)
Fixpoint updateSelected_scan (m : Menu) (rest : list QAction)
    (y selected top : Z) {struct rest} : Z :=
  match rest with
  | [] => if top <=? y then selected + 1 else selected
  | a :: rest' =>
      if top <=? y
      then updateSelected_scan m rest' y (selected + 1) (top + actionHeight m a)
      else selected
  end.

Definition selectable (a : QAction) : bool :=
  isEnabled a && negb (isSeparator a).

Definition updateSelected (globalPosition : QPoint) (m : Menu) : Menu :=
  if negb (_mouseSelection m) then m
  else
    let p := QPoint_sub (mapFromGlobal m globalPosition)
                        {| point_x := 0; point_y := skip (_st m) |} in
    let selected := updateSelected_scan m (_actions m) (point_y p) (-1) 0 in
    setSelected
      (if (0 <=? selected)
          && int_lt_size selected (size_of (_actions m))
          && isEnabled (action_at m selected)
          && negb (isSeparator (action_at m selected))
       then selected else -1) m.

(** *** Press and release *)

Definition set_ripple (r : option RippleAnimation) (d : ActionData) : ActionData :=
  {| data_text := data_text d; shortcut := shortcut d; icon := icon d;
     iconOver := iconOver d; ripple := r; toggle := toggle d;
     textWidth := textWidth d; hasSubmenu := hasSubmenu d |}.

Definition itemReleased (source : TriggeredSource) (m : Menu) : Menu :=
  if (0 <=? _pressed m) && int_lt_size (_pressed m) (size_of (_actions m)) then
    let pressed := _pressed m in
    let m1 := setPressed (-1) m in
    let m2 :=
      if is_Mouse source
      then alter_data
             (fun d => match ripple d with
                       | Some r => set_ripple (Some (ripple_lastStop r)) d
                       | None => d
                       end) pressed m1
      else m1 in
    if (pressed =? _selected m2) && _triggeredCallback m2
    then emit (Triggered (action_at m2 (_selected m2))
                         (itemTop (_selected m2) m2) source) m2
    else m2
  else m.

Definition itemPressed (source : TriggeredSource) (m : Menu) : Menu :=
  if is_Mouse source && negb (_mouseSelection m) then m
  else if (0 <=? _selected m)
          && int_lt_size (_selected m) (size_of (_actions m))
          && isEnabled (action_at m (_selected m)) then
    let m1 := setPressed (_selected m) m in
    if is_Mouse source then
      let at_point :=
        QPoint_sub (mapFromGlobal m1 (cursor_pos m1))
                   {| point_x := 0; point_y := itemTop (_pressed m1) m1 |} in
      alter_data
        (fun d => set_ripple
                    (Some (ripple_add at_point
                             (match ripple d with Some r => r | None => [] end)))
                    d)
        (_pressed m1) m1
    else itemReleased source m1
  else m.

(** *** Layout *)

(** The width an action asks for: the local [goodw] of [processAction]
    once all its extensions are added.  [d] is the action's data before
    the call (it says whether a submenu arrow is drawn and which toggle,
    if any, is already there). *)
Definition toggle_after (action : QAction) (index : Z) (d : ActionData)
    : option ToggleView :=
  if isCheckable action then
    match toggle d with
    | Some t => Some {| toggle_style := toggle_style t;
                        toggle_checked := isChecked action;
                        toggle_index := index |}
    | None => Some {| toggle_style := itemToggle;
                      toggle_checked := isChecked action;
                      toggle_index := index |}
    end
  else None.

Definition goodw (st : Style) (action : QAction) (index : Z) (d : ActionData) : Z :=
  let textw := text_maxWidth st (ParseMenuItem (actionText (action_text action))) in
  let g := margin_left (itemPadding st) + textw + margin_right (itemPadding st) in
  let g :=
    if hasSubmenu d then g + margin_right (itemPadding st) + arrow_width st
    else if negb (isEmpty (actionShortcut (action_text action)))
    then g + margin_right (itemPadding st)
         + font_width st (actionShortcut (action_text action))
    else g in
  match toggle_after action index d with
  | Some t => g + margin_right (itemPadding st) + toggle_width st (toggle_style t)
              - itemToggleShift st
  | None => g
  end.

(** What [processAction] leaves in [_actionsData[index]] and the width it
    returns, given the data found there. *)
Definition processData (st : Style) (action : QAction) (index w : Z)
    (d : ActionData) : ActionData * Z :=
  if isSeparator action || isEmpty (action_text action) then
    ({| data_text := emptyText; shortcut := ""; icon := icon d;
        iconOver := iconOver d; ripple := ripple d; toggle := toggle d;
        textWidth := textWidth d; hasSubmenu := hasSubmenu d |}, w)
  else
    let marked := ParseMenuItem (actionText (action_text action)) in
    let textw := text_maxWidth st marked in
    let g := goodw st action index d in
    let w' := clamp g w (widthMax st) in
    ({| data_text := marked;
        shortcut := actionShortcut (action_text action);
        icon := icon d; iconOver := iconOver d; ripple := ripple d;
        toggle := toggle_after action index d;
        textWidth := w' - (g - textw);
        hasSubmenu := hasSubmenu d |}, w').

Definition processAction (action : QAction) (index w : Z) (m : Menu) : Menu * Z :=
  (alter_data (fun d => fst (processData (_st m) action index w d)) index m,
   snd (processData (_st m) action index w (data_at m index))).

Fixpoint actionChanged_loop (acts : list QAction) (index newWidth : Z)
    (m : Menu) : Menu * Z :=
  match acts with
  | [] => (m, newWidth)
  | action :: rest =>
      let '(m1, w) := processAction action index newWidth m in
      actionChanged_loop rest (index + 1) w m1
  end.

Definition notify_resized (m : Menu) : Menu :=
  if _resizedCallback m then emit Resized m else m.

Definition actionChanged (m : Menu) : Menu :=
  let '(m1, newWidth) :=
    actionChanged_loop (_actions m) 0 (widthMin (_st m)) m in
  if negb (newWidth =? width m1) && (_forceWidth m1 =? 0)
  then notify_resized (resize newWidth (height m1) m1)
  else m1.

(** *** Construction, appending and clearing *)

(** The data pushed for a new action (the lambda inside [addAction]). *)
Definition addAction_data (action : QAction) (icon_ iconOver_ : option nat)
    : ActionData :=
  {| data_text := emptyText; shortcut := ""; icon := icon_;
     iconOver := match iconOver_ with Some i => Some i | None => icon_ end;
     ripple := None; toggle := None; textWidth := 0;
     hasSubmenu := action_menu action |}.

Definition addAction (action : QAction) (icon_ iconOver_ : option nat)
    (m : Menu) : Menu :=
  let data := addAction_data action icon_ iconOver_ in
  let m1 := set_actionsData (_actionsData m ++ [data])
              (set_actions (_actions m ++ [action]) m) in
  let newWidth := Z.max (width m1) (widthMin (_st m1)) in
  let '(m2, newWidth) :=
    processAction action
      (to_int (as_size_t (size_of (_actions m1) - 1))) newWidth m1 in
  let newHeight := height m2 + actionHeight m2 action in
  let m3 :=
    resize (if negb (_forceWidth m2 =? 0) then _forceWidth m2 else newWidth)
           newHeight m2 in
  updateSelected (cursor_pos m3) (notify_resized m3).

Definition separator : QAction :=
  {| action_text := ""; isSeparator := true; isEnabled := true;
     isCheckable := false; isChecked := false; action_menu := false |}.

Definition addSeparator (m : Menu) : Menu := addAction separator None None m.

Definition clearActions (m : Menu) : Menu :=
  let m1 := setSelected (-1) m in
  let m2 := setPressed (-1) m1 in
  let m3 := set_actions [] (set_actionsData [] m2) in
  notify_resized
    (resize (if negb (_forceWidth m3 =? 0) then _forceWidth m3
             else widthMin (_st m3))
            (skip (_st m3) * 2) m3).

Definition finishAnimating (m : Menu) : Menu :=
  set_actionsData (map (set_ripple None) (_actionsData m)) m.

Definition setShowSource (source : TriggeredSource) (m : Menu) : Menu :=
  let m1 := set_mouseSelection (is_Mouse source) m in
  setSelected
    (if is_Mouse source || (size_of (_actions m1) =? 0) then -1 else 0) m1.

Definition setForceWidth (forceWidth : Z) (m : Menu) : Menu :=
  let m1 := set_forceWidth forceWidth m in
  resize (_forceWidth m1) (height m1) m1.

(** *** Keyboard *)

(** One pass through the body of the [do ... while] loop of
    [handleKeyPress]: step by [delta], wrapping at both ends. *)
Definition handleKeyPress_next (m : Menu) (delta newSelected : Z) : Z :=
  let n := newSelected + delta in
  if n <? 0 then to_int (as_size_t (as_size_t n + size_of (_actions m)))
  else if int_ge_size n (size_of (_actions m))
  then to_int (as_size_t (as_size_t n - size_of (_actions m)))
  else n.

(** The loop itself.  [fuel] bounds the number of passes; [None] means
    the bound was reached before the loop condition became false. *)
Fixpoint handleKeyPress_scan (fuel : nat) (m : Menu) (delta start newSelected : Z)
    : option Z :=
  match fuel with
  | O => None
  | S fuel' =>
      let n := handleKeyPress_next m delta newSelected in
      if negb (n =? start)
         && (negb (isEnabled (action_at m n)) || isSeparator (action_at m n))
      then handleKeyPress_scan fuel' m delta start n
      else Some n
  end.

(** The part of [handleKeyPress] after the Enter and Right cases. *)
Definition handleKeyPress_navigate (key : Key) (m : Menu) : Menu :=
  if (negb (Key_eqb key Key_Up) && negb (Key_eqb key Key_Down))
     || (size_of (_actions m) =? 0)
  then m
  else
    let delta := if Key_eqb key Key_Down then 1 else -1 in
    let start := _selected m in
    let start :=
      if (start <? 0) || int_ge_size start (size_of (_actions m))
      then (if 0 <? delta
            then to_int (as_size_t (size_of (_actions m) - 1)) else 0)
      else start in
    match handleKeyPress_scan (length (_actions m)) m delta start start with
    | Some newSelected =>
        if isEnabled (action_at m newSelected)
           && negb (isSeparator (action_at m newSelected))
        then setSelected newSelected (set_mouseSelection false m)
        else m
    | None => m
    end.

Definition handleKeyPress (key : Key) (m : Menu) : Menu :=
  if Key_eqb key Key_Enter || Key_eqb key Key_Return then
    itemPressed Keyboard m
  else if Key_eqb key (if RightToLeft (_st m) then Key_Left else Key_Right) then
    if (0 <=? _selected m) && hasSubmenu (data_at m (_selected m)) then
      itemPressed Keyboard m
    else if (_selected m <? 0) && negb (size_of (_actions m) =? 0) then
      handleKeyPress_navigate key (setSelected 0 (set_mouseSelection false m))
    else handleKeyPress_navigate key m
  else handleKeyPress_navigate key m.

Definition keyPressEvent (key : Key) (m : Menu) : Menu :=
  match _keyPressDelegate m with
  | Some delegate => if delegate key then m else handleKeyPress key m
  | None => handleKeyPress key m
  end.

(** *** Pointer *)

Definition clearSelection (m : Menu) : Menu :=
  setSelected (-1) (set_mouseSelection false m).

Definition clearMouseSelection (m : Menu) : Menu :=
  if _mouseSelection m && negb (_childShown m) then clearSelection m else m.

Definition enterEventHook (m : Menu) : Menu :=
  if negb (contains (inner_rect m) (mapFromGlobal m (cursor_pos m)))
  then clearMouseSelection m else m.

Definition leaveEventHook (m : Menu) : Menu := clearMouseSelection m.

Definition handleMouseMove (globalPosition : QPoint) (m : Menu) : Menu :=
  if contains (inner_rect m) (mapFromGlobal m globalPosition) then
    updateSelected globalPosition (set_mouseSelection true m)
  else
    let m1 := clearMouseSelection m in
    if _mouseMoveDelegate m1 then emit (MouseMoveDelegate globalPosition) m1
    else m1.

Definition handleMousePress (globalPosition : QPoint) (m : Menu) : Menu :=
  let m1 := handleMouseMove globalPosition m in
  if contains (rect m1) (mapFromGlobal m1 globalPosition) then
    itemPressed Mouse m1
  else if _mousePressDelegate m1
  then emit (MousePressDelegate globalPosition) m1
  else m1.

Definition handleMouseRelease (globalPosition : QPoint) (m : Menu) : Menu :=
  let m1 := itemReleased Mouse (handleMouseMove globalPosition m) in
  if negb (contains (rect m1) (mapFromGlobal m1 globalPosition))
     && _mouseReleaseDelegate m1
  then emit (MouseReleaseDelegate globalPosition) m1
  else m1.

(** *** The operations taken together *)

(** Everything that can happen to a menu: calls of its public interface,
    the events the toolkit delivers to it, a change made to one of its
    actions by the owner (which reaches the widget as [actionChanged]),
    and the pointer being moved on the screen. *)
Inductive Op :=
| Op_addAction (action : QAction) (icon_ iconOver_ : option nat)
| Op_addSeparator
| Op_clearActions
| Op_finishAnimating
| Op_setShowSource (source : TriggeredSource)
| Op_setForceWidth (forceWidth : Z)
| Op_changeAction (index : nat) (action : QAction)
| Op_setChildShown (shown : bool)
| Op_keyPressEvent (key : Key)
| Op_handleKeyPress (key : Key)
| Op_clearSelection
| Op_enterEvent
| Op_leaveEvent
| Op_handleMouseMove (globalPosition : QPoint)
| Op_handleMousePress (globalPosition : QPoint)
| Op_handleMouseRelease (globalPosition : QPoint)
| Op_setSelected (selected : Z)
| Op_setPressed (pressed : Z)
| Op_updateSelected (globalPosition : QPoint)
| Op_itemPressed (source : TriggeredSource)
| Op_itemReleased (source : TriggeredSource)
| Op_moveCursor (p : QPoint).

Definition run_op (o : Op) (m : Menu) : Menu :=
  match o with
  | Op_addAction a i io => addAction a i io m
  | Op_addSeparator => addSeparator m
  | Op_clearActions => clearActions m
  | Op_finishAnimating => finishAnimating m
  | Op_setShowSource s => setShowSource s m
  | Op_setForceWidth w => setForceWidth w m
  | Op_changeAction i a => actionChanged (set_actions (<[i := a]> (_actions m)) m)
  | Op_setChildShown b => set_childShown b m
  | Op_keyPressEvent k => keyPressEvent k m
  | Op_handleKeyPress k => handleKeyPress k m
  | Op_clearSelection => clearSelection m
  | Op_enterEvent => enterEventHook m
  | Op_leaveEvent => leaveEventHook m
  | Op_handleMouseMove p => handleMouseMove p m
  | Op_handleMousePress p => handleMousePress p m
  | Op_handleMouseRelease p => handleMouseRelease p m
  | Op_setSelected i => setSelected i m
  | Op_setPressed i => setPressed i m
  | Op_updateSelected p => updateSelected p m
  | Op_itemPressed s => itemPressed s m
  | Op_itemReleased s => itemReleased s m
  | Op_moveCursor p => set_cursor_pos p m
  end.

Definition run_ops (ops : list Op) (m : Menu) : Menu :=
  fold_left (fun m o => run_op o m) ops m.

(* ================================================================== *)
(** ** The settings writer ([KotatoSettings::Manager]) *)

Definition kWriteJsonTimeout : Z := 5000.

(** [QTimer]: whether it is single-shot, its interval, and the time left
    until it fires ([None] when it is not active), all in milliseconds. *)
Record QTimer := {
  singleShot : bool;
  interval : Z;
  remaining : option Z
}.

Definition isActive (t : QTimer) : bool :=
  match remaining t with Some _ => true | None => false end.

Definition stop (t : QTimer) : QTimer :=
  {| singleShot := singleShot t; interval := interval t; remaining := None |}.

Definition start (msec : Z) (t : QTimer) : QTimer :=
  {| singleShot := singleShot t; interval := msec; remaining := Some msec |}.

(** The manager owns the timer; [custom_writes] counts how many times the
    custom settings file has been written out. *)
Record Manager := {
  _jsonWriteTimer : QTimer;
  custom_writes : nat
}.

(** The constructor: a single-shot timer, not running. *)
Definition Manager_new : Manager :=
  {| _jsonWriteTimer := {| singleShot := true; interval := 0; remaining := None |};
     custom_writes := 0 |}.

Definition writing (g : Manager) : Manager :=
  {| _jsonWriteTimer := stop (_jsonWriteTimer g);
     custom_writes := custom_writes g |}.

(** [opens] is whether the custom settings file can be opened for
    writing. *)
Definition writeCurrentSettings (opens : bool) (g : Manager) : Manager :=
  if negb opens then g
  else
    let g1 := if isActive (_jsonWriteTimer g) then writing g else g in
    {| _jsonWriteTimer := _jsonWriteTimer g1;
       custom_writes := S (custom_writes g1) |}.

Definition writeTimeout (opens : bool) (g : Manager) : Manager :=
  writeCurrentSettings opens g.

Definition write (force : bool) (opens : bool) (g : Manager) : Manager :=
  if force && isActive (_jsonWriteTimer g) then
    writeTimeout opens
      {| _jsonWriteTimer := stop (_jsonWriteTimer g);
         custom_writes := custom_writes g |}
  else if negb force && negb (isActive (_jsonWriteTimer g)) then
    {| _jsonWriteTimer := start kWriteJsonTimeout (_jsonWriteTimer g);
       custom_writes := custom_writes g |}
  else g.

(** [ms] milliseconds go by in the event loop.  A timer that reaches its
    end fires [timeout()], which is connected to [writeTimeout]; a
    single-shot timer is stopped before the signal is sent. *)
Definition elapse (ms : Z) (opens : bool) (g : Manager) : Manager :=
  match remaining (_jsonWriteTimer g) with
  | None => g
  | Some r =>
      if r <=? ms then
        writeTimeout opens
          {| _jsonWriteTimer :=
               if singleShot (_jsonWriteTimer g) then stop (_jsonWriteTimer g)
               else start (interval (_jsonWriteTimer g)) (_jsonWriteTimer g);
             custom_writes := custom_writes g |}
      else
        {| _jsonWriteTimer :=
             {| singleShot := singleShot (_jsonWriteTimer g);
                interval := interval (_jsonWriteTimer g);
                remaining := Some (r - ms) |};
           custom_writes := custom_writes g |}
  end.

(* ================================================================== *)
(** ** Notions used in the statements *)

(** [-1], or an index into the action list. *)
Definition valid_index (m : Menu) (i : Z) : Prop :=
  i = -1 \/ 0 <= i < size_of (_actions m).

(** The two vectors grow and shrink together, and the action list is
    short enough for [int] indices. *)
Definition vectors_ok (m : Menu) : Prop :=
  length (_actionsData m) = length (_actions m)
  /\ size_of (_actions m) <= int_max.

Definition indices_ok (m : Menu) : Prop :=
  valid_index m (_selected m) /\ valid_index m (_pressed m).

(** The index arguments of an operation are [int]s, and an action is
    appended only while the list still leaves room for an [int] index. *)
Definition op_ok (o : Op) (m : Menu) : Prop :=
  match o with
  | Op_setSelected i | Op_setPressed i => in_int i
  | Op_addAction _ _ _ | Op_addSeparator => size_of (_actions m) < int_max
  | _ => True
  end.

(** The sum of the heights of a list of actions. *)
Definition heights (m : Menu) (acts : list QAction) : Z :=
  fold_right (fun a s => actionHeight m a + s) 0 acts.

(** How many [Triggered] calls a log holds. *)
Definition is_Triggered (e : Event) : bool :=
  match e with Triggered _ _ _ => true | _ => false end.

Definition triggered_count (log : list Event) : nat :=
  length (filter (fun e => is_Triggered e = true) log).

(** Whether a character occurs in a string. *)
Fixpoint has_char (c : ascii) (s : string) : bool :=
  match s with
  | EmptyString => false
  | String x rest => Ascii.eqb x c || has_char c rest
  end.

(** An action carrying a label and nothing else: enabled, not a
    separator, not checkable, no submenu. *)
Definition plain_action (label : string) : QAction :=
  {| action_text := label; isSeparator := false; isEnabled := true;
     isCheckable := false; isChecked := false; action_menu := false |}.

(** Every underline entity produced by the scan covers one character that
    is present in the text produced so far. *)
Definition entities_in_text (r : TextWithEntities) : Prop :=
  Forall (fun e => entity_type e = Underline
                   /\ 0 <= entity_offset e < text_size r
                   /\ entity_length e = 1) (entities r).

(** [m'] differs from [m] at most in the selection, the press, the
    mouse-selection flag, the contents of the per-action data and the
    log of callbacks. *)
Definition same_layout (m m' : Menu) : Prop :=
  _st m' = _st m
  /\ _actions m' = _actions m
  /\ length (_actionsData m') = length (_actionsData m)
  /\ _forceWidth m' = _forceWidth m
  /\ width m' = width m
  /\ height m' = height m
  /\ widget_pos m' = widget_pos m
  /\ cursor_pos m' = cursor_pos m
  /\ _childShown m' = _childShown m
  /\ _triggeredCallback m' = _triggeredCallback m.

(** The index [setSelected] and [setPressed] store. *)
Definition normalized (i : Z) (m : Menu) : Z :=
  if int_ge_size i (size_of (_actions m)) then -1 else i.

(** The invariant of the widget. *)
Definition menu_ok (m : Menu) : Prop := vectors_ok m /\ indices_ok m.

(** The step and the starting index of an Up / Down key press (for a
    selection that is an [int], these are the [delta] and [start] of
    [handleKeyPress]), and the index reached from the start after [k]
    steps with wraparound. *)
Definition nav_delta (key : Key) : Z := if Key_eqb key Key_Down then 1 else -1.

Definition nav_start (key : Key) (m : Menu) : Z :=
  if (_selected m <? 0) || (size_of (_actions m) <=? _selected m)
  then (if 0 <? nav_delta key then size_of (_actions m) - 1 else 0)
  else _selected m.

Definition wrap_pos (n start delta k : Z) : Z := (start + k * delta) mod n.

Definition nav_pos (key : Key) (m : Menu) (k : Z) : Z :=
  wrap_pos (size_of (_actions m)) (nav_start key m) (nav_delta key) k.

(** A run of [addAction] calls, one per entry: the action with its two
    icons. *)
Definition append_all (l : list (QAction * option nat * option nat))
    (m : Menu) : Menu :=
  fold_left (fun m x => addAction (fst (fst x)) (snd (fst x)) (snd x) m) l m.

Definition appended_actions (l : list (QAction * option nat * option nat))
    : list QAction :=
  map (fun x => fst (fst x)) l.

(** The operations of a run have acceptable arguments, each in the state
    it is applied to. *)
Fixpoint ops_ok (ops : list Op) (m : Menu) : Prop :=
  match ops with
  | [] => True
  | o :: rest => op_ok o m /\ ops_ok rest (run_op o m)
  end.

(** An action takes part in the width when [processAction] lays it out:
    it is not a separator and its label is not empty. *)
Definition contributes (a : QAction) : bool :=
  negb (isSeparator a || isEmpty (action_text a)).

(** The width accepted for an action: its required width clamped between
    the configured minimum and maximum.  [d] is the action's data. *)
Definition accepted_width (st : Style) (a : QAction) (d : ActionData) : Z :=
  clamp (goodw st a 0 d) (widthMin st) (widthMax st).

Definition accepted_widths (st : Style) (acts : list QAction)
    (datas : list ActionData) : list Z :=
  map (fun ad => accepted_width st (fst ad) (snd ad))
      (filter (fun ad => contributes (fst ad) = true) (zip acts datas)).

(** The maximum of the accepted widths, and at least the minimum width. *)
Definition overall_width (st : Style) (acts : list QAction)
    (datas : list ActionData) : Z :=
  fold_right Z.max (widthMin st) (accepted_widths st acts datas).

Definition is_append_or_change (o : Op) : bool :=
  match o with
  | Op_addAction _ _ _ | Op_addSeparator | Op_changeAction _ _ => true
  | _ => false
  end.

(** No width is forced and the width lies within the configured bounds. *)
Definition width_ok (m : Menu) : Prop :=
  _forceWidth m = 0 /\ widthMin (_st m) <= width m <= widthMax (_st m).

(** The width is up to date: it is the maximum of the minimum width and
    the accepted widths of the actions that take part. *)
Definition width_settled (m : Menu) : Prop :=
  width m = overall_width (_st m) (_actions m) (_actionsData m).

(** What appends and action changes keep: the vectors in step, no forced
    width, the keyboard mode a new menu starts in, and an up-to-date
    width. *)
Definition built_ok (m : Menu) : Prop :=
  vectors_ok m /\ width_ok m /\ _mouseSelection m = false /\ width_settled m.

(** The overall width as the specification words it: every action has
    an accepted width, laid out or not, and the width is their maximum. *)
Definition all_accepted_widths (st : Style) (acts : list QAction)
    (datas : list ActionData) : list Z :=
  map (fun ad => accepted_width st (fst ad) (snd ad)) (zip acts datas).

Definition claimed_width (st : Style) (acts : list QAction)
    (datas : list ActionData) : Z :=
  fold_right Z.max (widthMin st) (all_accepted_widths st acts datas).

(* ================================================================== *)
(** ** Sample menus *)

(** A style with round numbers: items are 32 high, separators 11, the
    padding above and below the items is 4, and every character is 7
    wide. *)
Definition demo_style : Style :=
  {| widthMin := 100; widthMax := 300; skip := 4;
     itemPadding := {| margin_left := 17; margin_top := 8;
                       margin_right := 17; margin_bottom := 7 |};
     separatorPadding := {| margin_left := 0; margin_top := 5;
                            margin_right := 0; margin_bottom := 5 |};
     separatorWidth := 1;
     font_height := 17;
     font_width := fun s => 7 * Z.of_nat (String.length s);
     text_maxWidth := fun t => 7 * Z.of_nat (String.length (text t));
     arrow_width := 8;
     toggle_width := fun _ => 30;
     itemToggleShift := 2;
     RightToLeft := false |}.

(** The sample style with a minimum width of 20, below the 17 + 17 of
    the paddings left and right of a label. *)
Definition narrow_style : Style :=
  {| widthMin := 20; widthMax := 300; skip := 4;
     itemPadding := {| margin_left := 17; margin_top := 8;
                       margin_right := 17; margin_bottom := 7 |};
     separatorPadding := {| margin_left := 0; margin_top := 5;
                            margin_right := 0; margin_bottom := 5 |};
     separatorWidth := 1;
     font_height := 17;
     font_width := fun s => 7 * Z.of_nat (String.length s);
     text_maxWidth := fun t => 7 * Z.of_nat (String.length (text t));
     arrow_width := 8;
     toggle_width := fun _ => 30;
     itemToggleShift := 2;
     RightToLeft := false |}.

(** Modelled from the spec: the member initialisers of [menu.h], which is
    not among the sources.  The spec gives -1 as the "none" value of the
    selection and of the press; a new menu has no actions, no forced
    width, is not in mouse-selection mode and shows no child, and
    [init()] gives it the minimum width and twice the padding as height.
    [callbacks] says whether the owner has registered its resized,
    activated and triggered callbacks. *)
Definition Menu_new (st : Style) (callbacks : bool) : Menu :=
  {| _st := st; _actions := []; _actionsData := [];
     _forceWidth := 0; _selected := -1; _pressed := -1;
     _childShown := false; _mouseSelection := false;
     _resizedCallback := callbacks; _activatedCallback := callbacks;
     _triggeredCallback := callbacks;
     _keyPressDelegate := None; _mouseMoveDelegate := false;
     _mousePressDelegate := false; _mouseReleaseDelegate := false;
     widget_pos := {| point_x := 0; point_y := 0 |};
     width := widthMin st; height := skip st * 2;
     cursor_pos := {| point_x := 0; point_y := 0 |};
     events := [] |}.

(** The menu a run of operations builds from a new one. *)
Definition built (st : Style) (callbacks : bool) (ops : list Op) : Menu :=
  run_ops ops (Menu_new st callbacks).

Definition disabled_action (label : string) : QAction :=
  {| action_text := label; isSeparator := false; isEnabled := false;
     isCheckable := false; isChecked := false; action_menu := false |}.

Definition open_label : string := "&Open" +:+ String tab "Ctrl+O".

(** Open / separator / Close (disabled) / Exit.  Below the top padding
    the items span [0,32), [32,43), [43,75) and [75,107). *)
Definition demo_menu : Menu :=
  run_ops [ Op_addAction (plain_action open_label) None None;
            Op_addSeparator;
            Op_addAction (disabled_action "&Close") None None;
            Op_addAction (plain_action "E&xit") None None ]
          (Menu_new demo_style true).

(** The sample menu opened from the keyboard, and opened with the pointer
    resting on its first item. *)
Definition demo_menu_keyboard : Menu := setShowSource Keyboard demo_menu.

Definition demo_menu_mouse : Menu :=
  run_ops [ Op_setShowSource Mouse;
            Op_moveCursor {| point_x := 10; point_y := 20 |};
            Op_handleMouseMove {| point_x := 10; point_y := 20 |} ]
          demo_menu.

(** Nothing but disabled actions and separators. *)
Definition demo_menu_dead : Menu :=
  run_ops [ Op_addAction (disabled_action "Undo") None None;
            Op_addSeparator;
            Op_addAction (disabled_action "Redo") None None;
            Op_setShowSource Keyboard ]
          (Menu_new demo_style true).

(** The sample menu with a press left pending: the button went down on
    the first item, and the Down and Up keys then moved the selection
    away and back, which takes the menu out of mouse-selection mode while
    item 0 is still pressed. *)
Definition demo_menu_stale : Menu :=
  run_ops [ Op_handleMousePress {| point_x := 10; point_y := 20 |};
            Op_handleKeyPress Key_Down;
            Op_handleKeyPress Key_Up ]
          demo_menu_mouse.

(** A new menu of that style with one action appended, whose label is
    empty. *)
Definition demo_menu_blank : Menu :=
  built narrow_style true [Op_addAction (plain_action "") None None].

Definition long_label : string :=
  "Show the release notes of every version published so far".

(* ================================================================== *)
(** ** Further notions for the menu *)

(** The height is the padding above and below plus the heights of the
    actions. *)
Definition height_ok (m : Menu) : Prop :=
  height m = skip (_st m) + heights m (_actions m) + skip (_st m).

(** An owner's change to an action that leaves its separator flag as it
    was. *)
Definition op_keeps_separator (o : Op) (m : Menu) : Prop :=
  match o with
  | Op_changeAction index action =>
      forall old, _actions m !! index = Some old ->
                  isSeparator action = isSeparator old
  | _ => True
  end.

Fixpoint ops_keep_separators (ops : list Op) (m : Menu) : Prop :=
  match ops with
  | [] => True
  | o :: rest => op_keeps_separator o m /\ ops_keep_separators rest (run_op o m)
  end.

(** The global point [p] lies over item [i] of the menu, which is [a]:
    within the width of the widget and within the vertical span of the
    item. *)
Definition over_item (p : QPoint) (m : Menu) (i : nat) (a : QAction) : Prop :=
  _actions m !! i = Some a
  /\ 0 <= point_x (mapFromGlobal m p) < width m
  /\ heights m (take i (_actions m))
     <= point_y (mapFromGlobal m p) - skip (_st m)
     < heights m (take i (_actions m)) + actionHeight m a.

(** A style whose paddings and heights are not negative. *)
Definition style_ok (m : Menu) : Prop :=
  0 <= skip (_st m) /\ 0 <= _itemHeight m /\ 0 <= _separatorHeight m.

(** What the activated callback is told when the selection becomes [n]. *)
Definition activation (n : Z) (m : Menu) : Event :=
  Activated (if 0 <=? n then Some (action_at m n) else None)
            (itemTop n m)
            (if _mouseSelection m then Mouse else Keyboard).

(** The key that opens a submenu: Right, or Left in a right-to-left
    layout. *)
Definition forward_key (m : Menu) : Key :=
  if RightToLeft (_st m) then Key_Left else Key_Right.

(** The keys [handleKeyPress] reacts to. *)
Definition handled_key (m : Menu) (key : Key) : bool :=
  Key_eqb key Key_Enter || Key_eqb key Key_Return
  || Key_eqb key Key_Up || Key_eqb key Key_Down
  || Key_eqb key (forward_key m).

(** The operation is a call of [setForceWidth]. *)
Definition is_setForceWidth (o : Op) : bool :=
  match o with Op_setForceWidth _ => true | _ => false end.

(** A forced width, when there is one, is the width of the widget. *)
Definition forced_ok (m : Menu) : Prop :=
  _forceWidth m <> 0 -> width m = _forceWidth m.

(** The toggle of an action shows the hover style. *)
Definition is_over (d : ActionData) : bool :=
  match toggle d with
  | Some t =>
      match toggle_style t with itemToggleOver => true | itemToggle => false end
  | None => false
  end.

(** Only the selected and the pressed item show a toggle in the hover
    style. *)
Definition hover_ok (m : Menu) : Prop :=
  forall (i : nat) (d : ActionData),
    _actionsData m !! i = Some d -> is_over d = true ->
    Z.of_nat i = _selected m \/ Z.of_nat i = _pressed m.

(** From [m] to [m'] the selection and the press have stayed and no
    toggle has gained the hover style. *)
Definition calmer (m m' : Menu) : Prop :=
  _selected m' = _selected m
  /\ _pressed m' = _pressed m
  /\ forall (i : nat) (d' : ActionData),
       _actionsData m' !! i = Some d' -> is_over d' = true ->
       exists d, _actionsData m !! i = Some d /\ is_over d = true.

(** A menu with one checkable action, opened from the keyboard. *)
Definition check_menu : Menu :=
  run_ops [ Op_addAction
              {| action_text := "Mute"; isSeparator := false;
                 isEnabled := true; isCheckable := true; isChecked := true;
                 action_menu := false |} None None;
            Op_addAction (plain_action "Leave") None None;
            Op_setShowSource Keyboard ]
          (Menu_new demo_style true).

(** The key that steps the other way. *)
Definition opposite_key (key : Key) : Key :=
  match key with
  | Key_Up => Key_Down
  | Key_Down => Key_Up
  | k => k
  end.

(** The operations that can press an item with the pointer. *)
Definition is_pointer_press (o : Op) : bool :=
  match o with
  | Op_handleMousePress _ | Op_itemPressed Mouse => true
  | _ => false
  end.

(** No action has a ripple animation. *)
Definition ripple_free (m : Menu) : Prop :=
  forall (i : nat) (d : ActionData),
    _actionsData m !! i = Some d -> ripple d = None.

(* ================================================================== *)
(** ** Further notions for the label parser *)

(** A label that shows [s] literally: every ampersand written twice. *)
Fixpoint double_ampersands (s : string) : string :=
  match s with
  | EmptyString => EmptyString
  | String c rest =>
      if Ascii.eqb c ampersand
      then String ampersand (String ampersand (double_ampersands rest))
      else String c (double_ampersands rest)
  end.

(** The offsets of the entities, in the order the parser produced them. *)
Definition entity_offsets (r : TextWithEntities) : list Z :=
  map entity_offset (entities r).

(* ================================================================== *)
(** ** The settings files ([kotato_settings.cpp]) *)

(** [QJsonValue].  A number carries the [int] it stands for when it is a
    whole number that fits one, which is all [toInt] looks at. *)
#[warnings="-register-all"]
Inductive QJsonValue :=
| JNull
| JBool (b : bool)
| JDouble (whole : option Z)
| JString (s : string)
| JArray (items : list QJsonValue)
| JObject (members : gmap string QJsonValue).

(** A [QJsonObject] is a [gmap string QJsonValue]: [constFind] is the
    lookup [!!], [insert] is [<[key := value]>], and [isEmpty] says that
    there is no member. *)
Definition QJsonObject_isEmpty (o : gmap string QJsonValue) : bool :=
  match map_to_list o with [] => true | _ :: _ => false end.

(** [QJsonValue::toInt()]: the number when the value is a whole number,
    and the default 0 for every other value. *)
Definition toInt (v : QJsonValue) : Z :=
  match v with JDouble (Some z) => z | _ => 0 end.

(** [QString::number(n)] for an [int]. *)
Definition digit_of (d : Z) : ascii := ascii_of_nat (48 + Z.to_nat d).

Fixpoint number_digits (fuel : nat) (n : Z) (acc : string) : string :=
  match fuel with
  | O => acc
  | S fuel' =>
      let acc' := String (digit_of (n mod 10)) acc in
      if n <? 10 then acc' else number_digits fuel' (n / 10) acc'
  end.

Definition QString_number (n : Z) : string :=
  if n <? 0 then String "-"%char (number_digits 11 (- n) "")
  else number_digits 11 n "".

(** What [QJsonDocument::fromJson(stripComments(file.readAll()))] makes
    of the bytes of a file: a parse error, or a document. *)
Inductive FileData :=
| Unparsable
| Document (v : QJsonValue).

(** A path on disk as [QFile] sees it: the data there, if the file
    exists, and whether opening it for reading and for writing
    succeeds. *)
Record QFile := {
  file_data : option FileData;
  read_ok : bool;
  write_ok : bool
}.

Definition file_exists (f : QFile) : bool :=
  match file_data f with Some _ => true | None => false end.

Definition open_ReadOnly (f : QFile) : option FileData :=
  if read_ok f then file_data f else None.

(** The file after it has been opened for writing and written: [data] is
    what a later read makes of the bytes (of a comment header followed by
    the text of a document, that document). *)
Definition written (data : FileData) (f : QFile) : QFile :=
  {| file_data := Some data; read_ok := read_ok f; write_ok := write_ok f |}.

(** The font settings ([cMainFont()] and the like). *)
Record Fonts := {
  cMainFont : string;
  cSemiboldFont : string;
  cSemiboldFontIsBold : bool;
  cMonospaceFont : string
}.

Definition cSetMainFont (s : string) (f : Fonts) : Fonts :=
  {| cMainFont := s; cSemiboldFont := cSemiboldFont f;
     cSemiboldFontIsBold := cSemiboldFontIsBold f;
     cMonospaceFont := cMonospaceFont f |}.

Definition cSetSemiboldFont (s : string) (f : Fonts) : Fonts :=
  {| cMainFont := cMainFont f; cSemiboldFont := s;
     cSemiboldFontIsBold := cSemiboldFontIsBold f;
     cMonospaceFont := cMonospaceFont f |}.

Definition cSetSemiboldFontIsBold (b : bool) (f : Fonts) : Fonts :=
  {| cMainFont := cMainFont f; cSemiboldFont := cSemiboldFont f;
     cSemiboldFontIsBold := b;
     cMonospaceFont := cMonospaceFont f |}.

Definition cSetMonospaceFont (s : string) (f : Fonts) : Fonts :=
  {| cMainFont := cMainFont f; cSemiboldFont := cSemiboldFont f;
     cSemiboldFontIsBold := cSemiboldFontIsBold f;
     cMonospaceFont := s |}.

(** The two settings files, the resource the default custom file is
    copied from, and the font settings in memory. *)
Record Settings := {
  DefaultFilePath : QFile;
  CustomFilePath : QFile;
  default_custom_resource : QFile;
  fonts : Fonts
}.

Definition set_DefaultFilePath (f : QFile) (s : Settings) : Settings :=
  {| DefaultFilePath := f; CustomFilePath := CustomFilePath s;
     default_custom_resource := default_custom_resource s; fonts := fonts s |}.

Definition set_CustomFilePath (f : QFile) (s : Settings) : Settings :=
  {| DefaultFilePath := DefaultFilePath s; CustomFilePath := f;
     default_custom_resource := default_custom_resource s; fonts := fonts s |}.

Definition set_fonts (f : Fonts) (s : Settings) : Settings :=
  {| DefaultFilePath := DefaultFilePath s; CustomFilePath := CustomFilePath s;
     default_custom_resource := default_custom_resource s; fonts := f |}.

(** [AppKotatoVersion] is a parameter of what follows. *)
Definition DefaultFileIsValid (AppKotatoVersion : Z) (s : Settings) : bool :=
  match open_ReadOnly (DefaultFilePath s) with
  | None => false
  | Some Unparsable => false
  | Some (Document (JObject settings)) =>
      match settings !! "version" with
      | None => false
      | Some version =>
          if negb (toInt version =? AppKotatoVersion) then false else true
      end
  | Some (Document _) => false
  end.

Definition WriteDefaultCustomFile (s : Settings) : Settings :=
  match open_ReadOnly (default_custom_resource s) with
  | Some data =>
      if write_ok (CustomFilePath s)
      then set_CustomFilePath (written data (CustomFilePath s)) s
      else s
  | None => s
  end.

(** The loading part of [readCustomFile]: the settings found in the
    [fonts] object of the file. *)
Definition readCustomFile_fonts (settingsFonts : gmap string QJsonValue) (f : Fonts) : Fonts :=
  let f :=
    match settingsFonts !! "main" with
    | Some (JString v) => cSetMainFont v f
    | _ => f
    end in
  let f :=
    match settingsFonts !! "semibold" with
    | Some (JString v) => cSetSemiboldFont v f
    | _ => f
    end in
  let f :=
    match settingsFonts !! "semibold_is_bold" with
    | Some (JBool v) => cSetSemiboldFontIsBold v f
    | _ => f
    end in
  match settingsFonts !! "monospaced" with
  | Some (JString v) => cSetMonospaceFont v f
  | _ => f
  end.

Definition readCustomFile (s : Settings) : bool * Settings :=
  if negb (file_exists (CustomFilePath s)) then (false, s)
  else
    match open_ReadOnly (CustomFilePath s) with
    | None => (true, s)
    | Some Unparsable => (true, s)
    | Some (Document (JObject settings)) =>
        if QJsonObject_isEmpty settings then (true, s)
        else
          match settings !! "fonts" with
          | Some (JObject settingsFonts) =>
              (true, set_fonts (readCustomFile_fonts settingsFonts (fonts s)) s)
          | _ => (true, s)
          end
    | Some (Document _) => (true, s)
    end.

(** The document [writeDefaultFile] builds. *)
Definition writeDefaultFile_document (AppKotatoVersion : Z) : QJsonValue :=
  let settings : gmap string QJsonValue := ∅ in
  let settings :=
    <["version" := JString (QString_number AppKotatoVersion)]> settings in
  let settingsFonts : gmap string QJsonValue := ∅ in
  let settingsFonts := <["main" := JString "Open Sans"]> settingsFonts in
  let settingsFonts :=
    <["semibold" := JString "Open Sans Semibold"]> settingsFonts in
  let settingsFonts := <["semibold_is_bold" := JBool false]> settingsFonts in
  let settingsFonts := <["monospaced" := JString "Consolas"]> settingsFonts in
  let settings := <["fonts" := JObject settingsFonts]> settings in
  JObject settings.

Definition writeDefaultFile (AppKotatoVersion : Z) (s : Settings) : Settings :=
  if negb (write_ok (DefaultFilePath s)) then s
  else
    set_DefaultFilePath
      (written (Document (writeDefaultFile_document AppKotatoVersion))
               (DefaultFilePath s)) s.

(** The [fonts] object [writeCurrentSettings] builds from the settings in
    memory, and the document it goes into. *)
Definition writeCurrentSettings_fonts (f : Fonts) : gmap string QJsonValue :=
  let settingsFonts : gmap string QJsonValue := ∅ in
  let settingsFonts :=
    if negb (isEmpty (cMainFont f))
    then <["main" := JString (cMainFont f)]> settingsFonts
    else settingsFonts in
  let settingsFonts :=
    if negb (isEmpty (cSemiboldFont f))
    then <["semibold" := JString (cSemiboldFont f)]> settingsFonts
    else settingsFonts in
  let settingsFonts :=
    if negb (isEmpty (cMonospaceFont f))
    then <["monospaced" := JString (cMonospaceFont f)]> settingsFonts
    else settingsFonts in
  <["semibold_is_bold" := JBool (cSemiboldFontIsBold f)]> settingsFonts.

Definition writeCurrentSettings_document (f : Fonts) : QJsonValue :=
  let settings : gmap string QJsonValue := ∅ in
  let settings :=
    <["fonts" := JObject (writeCurrentSettings_fonts f)]> settings in
  JObject settings.

(** What [writeCurrentSettings] does to the custom file. *)
Definition writeCurrentSettings_file (s : Settings) : Settings :=
  if negb (write_ok (CustomFilePath s)) then s
  else
    set_CustomFilePath
      (written (Document (writeCurrentSettings_document (fonts s)))
               (CustomFilePath s)) s.

Definition fill (AppKotatoVersion : Z) (s : Settings) : Settings :=
  let s :=
    if negb (DefaultFileIsValid AppKotatoVersion s)
    then writeDefaultFile AppKotatoVersion s else s in
  let '(ok, s) := readCustomFile s in
  if negb ok then WriteDefaultCustomFile s else s.

(** A first start: no settings file on disk yet, a readable bundled
    default for the custom file, and no font chosen. *)
Definition no_file : QFile :=
  {| file_data := None; read_ok := true; write_ok := true |}.

Definition first_start : Settings :=
  {| DefaultFilePath := no_file;
     CustomFilePath := no_file;
     default_custom_resource :=
       {| file_data := Some (Document (JObject ∅));
          read_ok := true; write_ok := false |};
     fonts := {| cMainFont := ""; cSemiboldFont := "";
                 cSemiboldFontIsBold := false; cMonospaceFont := "" |} |}.

(** The settings of a user who has chosen a main font only. *)
Definition arial_settings : Settings :=
  set_fonts {| cMainFont := "Arial"; cSemiboldFont := "";
               cSemiboldFontIsBold := true; cMonospaceFont := "" |}
            first_start.

(** *** Bursts of write requests *)

(** A burst of write requests that are not forced: a request, then
    [d] milliseconds in the event loop, for each [d] of the list in
    turn. *)
Fixpoint write_burst (delays : list Z) (opens : bool) (g : Manager) : Manager :=
  match delays with
  | [] => g
  | d :: rest => write_burst rest opens (elapse d opens (write false opens g))
  end.

Definition total_delay (delays : list Z) : Z := fold_right Z.add 0 delays.

(* ================================================================== *)
(** ** The system menu of the window ([ui_window_win.cpp]) *)

(** Command identifiers and menu item flags of the platform headers. *)
Definition SC_MINIMIZE : Z := 0xF020.
Definition SC_MAXIMIZE : Z := 0xF030.
Definition SC_CLOSE : Z := 0xF060.
Definition SC_RESTORE : Z := 0xF120.
Definition MFT_SEPARATOR : Z := 0x800.
Definition MFS_DISABLED : Z := 0x3.
Definition MFS_DEFAULT : Z := 0x1000.

Inductive WindowState :=
| WindowNoState | WindowMinimized | WindowMaximized | WindowFullScreen
| WindowActive.

(** The members of [MENUITEMINFO] that [updateSystemMenu] asks for. *)
Record MENUITEMINFO := {
  fType : Z;
  fState : Z;
  wID : Z
}.

(** A menu handle: the items of the menu, and for each position whether
    [GetMenuItemInfo] and [SetMenuItemInfo] succeed there. *)
Record HMENU := {
  menu_items : list MENUITEMINFO;
  GetMenuItemInfo_ok : nat -> bool;
  SetMenuItemInfo_ok : nat -> bool
}.

Definition menuToDisable (state : WindowState) : Z :=
  match state with
  | WindowMaximized => SC_MAXIMIZE
  | WindowMinimized => SC_MINIMIZE
  | _ => SC_RESTORE
  end.

(** The state [updateSystemMenu] gives to an item it does not skip. *)
Definition updateSystemMenu_state (toDisable : Z) (itemInfo : MENUITEMINFO) : Z :=
  let fState :=
    Z.land (fState itemInfo) (Z.lnot (Z.lor MFS_DISABLED MFS_DEFAULT)) in
  if (wID itemInfo =? toDisable)
     || (negb (wID itemInfo =? SC_MINIMIZE)
         && negb (wID itemInfo =? SC_MAXIMIZE)
         && negb (wID itemInfo =? SC_RESTORE))
  then Z.lor fState MFS_DISABLED
  else fState.

(** The items [updateSystemMenu] passes over. *)
Definition updateSystemMenu_skips (itemInfo : MENUITEMINFO) : bool :=
  negb (Z.land (fType itemInfo) MFT_SEPARATOR =? 0)
  || (wID itemInfo =? 0) || (wID itemInfo =? SC_CLOSE).

(** The [for] loop of [updateSystemMenu], from position [i] on; [todo]
    holds the items from that position. *)
Fixpoint updateSystemMenu_loop (toDisable : Z) (get_ok set_ok : nat -> bool)
    (i : nat) (todo : list MENUITEMINFO) : list MENUITEMINFO :=
  match todo with
  | [] => []
  | itemInfo :: rest =>
      if negb (get_ok i) then todo
      else if updateSystemMenu_skips itemInfo then
        itemInfo :: updateSystemMenu_loop toDisable get_ok set_ok (S i) rest
      else if negb (set_ok i) then todo
      else
        {| fType := fType itemInfo;
           fState := updateSystemMenu_state toDisable itemInfo;
           wID := wID itemInfo |}
        :: updateSystemMenu_loop toDisable get_ok set_ok (S i) rest
  end.

Definition updateSystemMenu (state : WindowState) (_menu : option HMENU)
    : option HMENU :=
  match _menu with
  | None => None
  | Some menu =>
      Some {| menu_items :=
                updateSystemMenu_loop (menuToDisable state)
                  (GetMenuItemInfo_ok menu) (SetMenuItemInfo_ok menu)
                  0 (menu_items menu);
              GetMenuItemInfo_ok := GetMenuItemInfo_ok menu;
              SetMenuItemInfo_ok := SetMenuItemInfo_ok menu |}
  end.

(** An item is shown disabled when both bits of [MFS_DISABLED] are set. *)
Definition item_disabled (itemInfo : MENUITEMINFO) : bool :=
  Z.land (fState itemInfo) MFS_DISABLED =? MFS_DISABLED.

Definition item_enabled (itemInfo : MENUITEMINFO) : bool :=
  Z.land (fState itemInfo) MFS_DISABLED =? 0.

(** The bits of the state other than [MFS_DISABLED] and [MFS_DEFAULT]. *)
Definition other_state_bits (itemInfo : MENUITEMINFO) : Z :=
  Z.land (fState itemInfo) (Z.lnot (Z.lor MFS_DISABLED MFS_DEFAULT)).

(** A menu for which the platform calls succeed everywhere. *)
Definition reliable_menu (items : list MENUITEMINFO) : HMENU :=
  {| menu_items := items;
     GetMenuItemInfo_ok := fun _ => true;
     SetMenuItemInfo_ok := fun _ => true |}.

(** The usual system menu: Restore, Move, Size, Minimize, Maximize, a
    separator and Close, all enabled, Close being the default item. *)
Definition system_menu : HMENU :=
  reliable_menu
    [ {| fType := 0; fState := 0; wID := SC_RESTORE |};
      {| fType := 0; fState := 0; wID := 0xF010 |};
      {| fType := 0; fState := 0; wID := 0xF000 |};
      {| fType := 0; fState := 0; wID := SC_MINIMIZE |};
      {| fType := 0; fState := 0; wID := SC_MAXIMIZE |};
      {| fType := MFT_SEPARATOR; fState := 0; wID := 0 |};
      {| fType := 0; fState := MFS_DEFAULT; wID := SC_CLOSE |} ].


(* ================================================================== *)
(** * Properties *)

(** ** Strings *)

Lemma String_length_snoc (s : string) (c : ascii) :
  String.length (s +:+ String c EmptyString) = S (String.length s).
Proof.
  induction s as [|x s IH]; simpl; [reflexivity | now rewrite IH].
Qed.

(** ** The label parser *)

Lemma ParseMenuItem_loop_app (s : ParseState) (a b : string) :
  ParseMenuItem_loop s (a +:+ b)
  = ParseMenuItem_loop (ParseMenuItem_loop s a) b.
Proof.
  revert s; induction a as [|x a IH]; intros s; simpl; [reflexivity | apply IH].
Qed.

Lemma split_no_sep (sep : ascii) (a : string) :
  has_char sep a = false -> split sep a = [a].
Proof.
  induction a as [|x a IH]; simpl; intros H; [reflexivity|].
  apply orb_false_iff in H as [Hx Ha].
  rewrite Hx, (IH Ha). reflexivity.
Qed.

Lemma split_at_sep (sep : ascii) (a r : string) :
  has_char sep a = false ->
  split sep (a +:+ String sep r) = a :: split sep r.
Proof.
  induction a as [|x a IH]; simpl; intros H.
  - now rewrite Ascii.eqb_refl.
  - apply orb_false_iff in H as [Hx Ha].
    rewrite Hx, (IH Ha). reflexivity.
Qed.

Lemma split_nonempty (sep : ascii) (s : string) : split sep s <> [].
Proof.
  destruct s as [|c s]; simpl; [discriminate|].
  destruct (Ascii.eqb c sep); [discriminate|].
  destruct (split sep s); discriminate.
Qed.

Lemma entities_in_text_append (ch : ascii) (r : TextWithEntities) :
  entities_in_text r -> entities_in_text (text_append ch r).
Proof.
  unfold entities_in_text, text_append, text_size; simpl.
  rewrite String_length_snoc. intros H.
  eapply Forall_impl; [exact H|]. simpl. intros e (? & ? & ?). intuition lia.
Qed.

Lemma ParseMenuItem_step_entities (s : ParseState) (ch : ascii) :
  entities_in_text (result s) ->
  entities_in_text (result (ParseMenuItem_step s ch)).
Proof.
  intros H. unfold ParseMenuItem_step.
  destruct (afterAmpersand s); destruct (Ascii.eqb ch ampersand); simpl;
    try (apply entities_in_text_append; exact H); try exact H.
  unfold entities_in_text, text_append, entities_append, text_size in *; simpl.
  rewrite String_length_snoc. apply Forall_app. split.
  - eapply Forall_impl; [exact H|]. simpl. intros e (? & ? & ?). intuition lia.
  - repeat constructor; simpl; lia.
Qed.

Lemma ParseMenuItem_loop_entities (t : string) (s : ParseState) :
  entities_in_text (result s) ->
  entities_in_text (result (ParseMenuItem_loop s t)).
Proof.
  revert s; induction t as [|c t IH]; intros s H; simpl; [exact H|].
  apply IH, ParseMenuItem_step_entities, H.
Qed.

Lemma processData_label (st : Style) (action : QAction) (index w : Z)
    (d : ActionData) :
  isSeparator action = false ->
  isEmpty (action_text action) = false ->
  data_text (fst (processData st action index w d))
  = ParseMenuItem (actionText (action_text action))
  /\ shortcut (fst (processData st action index w d))
     = actionShortcut (action_text action).
Proof.
  intros Hs He. unfold processData. rewrite Hs, He. simpl. split; reflexivity.
Qed.

(** C1.  A raw label is cut at tab characters: the piece before the first
    tab is the display text and the piece after it, when there is one, is
    the shortcut.  Scanning the display text, at a point where no
    ampersand is pending, two ampersands add one ampersand to the text
    and no entity, while an ampersand followed by another character [c]
    adds [c] alone to the text together with an underline entity of
    length one at the position [c] takes.  The label "&Open<tab>Ctrl+O"
    gives the text "Open", underlined at character 0, and the shortcut
    "Ctrl+O"; the label "A&&B" gives the text "A&B" and no entity. *)
Theorem ParseMenuItem_accelerators
    (a b r rest : string) (s : ParseState) (c : ascii)
    (st : Style) (index w : Z) (d : ActionData) :
  has_char tab a = false ->
  has_char tab b = false ->
  afterAmpersand s = false ->
  c <> ampersand ->
  (actionText a = a /\ actionShortcut a = ""%string)
  /\ (actionText (a +:+ String tab b) = a
      /\ actionShortcut (a +:+ String tab b) = b)
  /\ (actionText (a +:+ String tab (b +:+ String tab r)) = a
      /\ actionShortcut (a +:+ String tab (b +:+ String tab r)) = b)
  /\ ParseMenuItem_loop s (String ampersand (String ampersand rest))
     = ParseMenuItem_loop
         {| result := text_append ampersand (result s);
            afterAmpersand := false |} rest
  /\ ParseMenuItem_loop s (String ampersand (String c rest))
     = ParseMenuItem_loop
         {| result :=
              text_append c
                (entities_append
                   {| entity_type := Underline;
                      entity_offset := text_size (result s);
                      entity_length := 1 |} (result s));
            afterAmpersand := false |} rest
  /\ get (Z.to_nat (text_size (result s)))
         (text (text_append c (result s))) = Some c
  /\ data_text
       (fst (processData st (plain_action ("&Open" +:+ String tab "Ctrl+O"))
               index w d))
     = {| text := "Open";
          entities := [ {| entity_type := Underline;
                           entity_offset := 0;
                           entity_length := 1 |} ] |}
  /\ shortcut
       (fst (processData st (plain_action ("&Open" +:+ String tab "Ctrl+O"))
               index w d))
     = "Ctrl+O"%string
  /\ data_text (fst (processData st (plain_action "A&&B") index w d))
     = {| text := "A&B"; entities := [] |}.
Proof.
  intros Ha Hb Hs Hc.
  assert (Hc' : Ascii.eqb c ampersand = false) by (now apply Ascii.eqb_neq).
  repeat split.
  - unfold actionText. now rewrite (split_no_sep _ _ Ha).
  - unfold actionShortcut. now rewrite (split_no_sep _ _ Ha).
  - unfold actionText. now rewrite (split_at_sep _ _ _ Ha).
  - unfold actionShortcut.
    now rewrite (split_at_sep _ _ _ Ha), (split_no_sep _ _ Hb).
  - unfold actionText. now rewrite (split_at_sep _ _ _ Ha).
  - unfold actionShortcut.
    rewrite (split_at_sep _ _ _ Ha), (split_at_sep _ _ _ Hb).
    unfold size_of. simpl length.
    destruct (Z.ltb_spec 1 (Z.of_nat (S (S (length (split tab r))))));
      [reflexivity | lia].
  - simpl. unfold ParseMenuItem_step at 2. rewrite Hs. simpl.
    unfold ParseMenuItem_step. simpl. reflexivity.
  - simpl. unfold ParseMenuItem_step at 2. rewrite Hs. simpl.
    unfold ParseMenuItem_step. simpl. rewrite Hc'. reflexivity.
  - unfold text_size, text_append. simpl. rewrite Nat2Z.id.
    pose proof (append_correct2 (text (result s)) (String c "") 0) as H.
    simpl in H. symmetry. exact H.
Qed.

Lemma ParseMenuItem_accelerators_witness :
  actionText ("E&xit" +:+ String tab "Alt+F4") = "E&xit"%string
  /\ ParseMenuItem "E&xit"
     = {| text := "Exit";
          entities := [ {| entity_type := Underline; entity_offset := 1;
                           entity_length := 1 |} ] |}.
Proof.
  pose proof (ParseMenuItem_accelerators "E&xit" "Alt+F4" "" "it"
                {| result := {| text := "E"; entities := [] |};
                   afterAmpersand := false |}
                "x"%char
                {| widthMin := 0; widthMax := 0; skip := 0;
                   itemPadding := {| margin_left := 0; margin_top := 0;
                                     margin_right := 0; margin_bottom := 0 |};
                   separatorPadding := {| margin_left := 0; margin_top := 0;
                                          margin_right := 0; margin_bottom := 0 |};
                   separatorWidth := 0; font_height := 0;
                   font_width := fun _ => 0; text_maxWidth := fun _ => 0;
                   arrow_width := 0; toggle_width := fun _ => 0;
                   itemToggleShift := 0; RightToLeft := false |}
                0 0 ActionData_default
                eq_refl eq_refl eq_refl ltac:(discriminate)) as H.
  split.
  - exact (proj1 (proj1 (proj2 H))).
  - reflexivity.
Defined.

(** C10.  When the display text ends in an ampersand that is not the
    second of a pair, the parser drops it: the result is the one obtained
    without that ampersand, text and entities alike, and every entity of
    the result lies on a character of the result's text.  The parser is a
    total function, so it produces this result on every such label. *)
Theorem ParseMenuItem_trailing_ampersand (t : string) :
  afterAmpersand (ParseMenuItem_loop ParseMenuItem_init t) = false ->
  ParseMenuItem (t +:+ String ampersand EmptyString) = ParseMenuItem t
  /\ text (ParseMenuItem (t +:+ String ampersand EmptyString))
     = text (ParseMenuItem t)
  /\ entities (ParseMenuItem (t +:+ String ampersand EmptyString))
     = entities (ParseMenuItem t)
  /\ entities_in_text (ParseMenuItem (t +:+ String ampersand EmptyString)).
Proof.
  intros H.
  assert (E : ParseMenuItem (t +:+ String ampersand EmptyString)
              = ParseMenuItem t).
  { unfold ParseMenuItem. rewrite ParseMenuItem_loop_app. simpl.
    unfold ParseMenuItem_step. rewrite H. reflexivity. }
  rewrite E. repeat split.
  apply ParseMenuItem_loop_entities. constructor.
Qed.

Lemma ParseMenuItem_trailing_ampersand_witness :
  ParseMenuItem "Save &As&" = ParseMenuItem "Save &As"
  /\ ParseMenuItem "Save &As&"
     = {| text := "Save As";
          entities := [ {| entity_type := Underline; entity_offset := 5;
                           entity_length := 1 |} ] |}.
Proof.
  split.
  - exact (proj1 (ParseMenuItem_trailing_ampersand "Save &As" eq_refl)).
  - reflexivity.
Defined.

(** ** Machine integers *)

Lemma as_size_t_small (i : Z) : 0 <= i < 2 ^ 64 -> as_size_t i = i.
Proof. intros H. unfold as_size_t. now apply Z.mod_small. Qed.

Lemma as_size_t_neg (i : Z) : - 2 ^ 64 <= i < 0 -> as_size_t i = i + 2 ^ 64.
Proof.
  intros H. unfold as_size_t. symmetry.
  apply (Z.mod_unique i (2 ^ 64) (-1)); lia.
Qed.

Lemma to_int_small (i : Z) : in_int i -> to_int i = i.
Proof.
  unfold in_int, int_min, int_max, to_int. intros H.
  destruct (Z_lt_le_dec i 0) as [Hn|Hp].
  - replace (i mod 2 ^ 32) with (i + 2 ^ 32).
    + destruct (Z.ltb_spec (i + 2 ^ 32) (2 ^ 31)); lia.
    + apply (Z.mod_unique i (2 ^ 32) (-1)); lia.
  - rewrite Z.mod_small by lia.
    destruct (Z.ltb_spec i (2 ^ 31)); lia.
Qed.

Lemma int_ge_size_spec (i n : Z) :
  in_int i -> 0 <= n <= int_max ->
  int_ge_size i n = true <-> (i < 0 \/ n <= i).
Proof.
  unfold in_int, int_min, int_max, int_ge_size. intros Hi Hn.
  destruct (Z_lt_le_dec i 0) as [Hneg|Hpos].
  - rewrite as_size_t_neg by lia. rewrite Z.leb_le. lia.
  - rewrite as_size_t_small by lia. rewrite Z.leb_le. lia.
Qed.

Lemma int_lt_size_spec (i n : Z) :
  in_int i -> 0 <= n <= int_max ->
  int_lt_size i n = true <-> 0 <= i < n.
Proof.
  unfold in_int, int_min, int_max, int_lt_size. intros Hi Hn.
  destruct (Z_lt_le_dec i 0) as [Hneg|Hpos].
  - rewrite as_size_t_neg by lia. rewrite Z.ltb_lt. lia.
  - rewrite as_size_t_small by lia. rewrite Z.ltb_lt. lia.
Qed.

Lemma int_gt_size_spec (i n : Z) :
  in_int i -> 0 <= n <= int_max ->
  int_gt_size i n = true <-> (i < 0 \/ n < i).
Proof.
  unfold in_int, int_min, int_max, int_gt_size. intros Hi Hn.
  destruct (Z_lt_le_dec i 0) as [Hneg|Hpos].
  - rewrite as_size_t_neg by lia. rewrite Z.ltb_lt. lia.
  - rewrite as_size_t_small by lia. rewrite Z.ltb_lt. lia.
Qed.

Lemma int_ge_size_false (i n : Z) :
  in_int i -> 0 <= n <= int_max ->
  int_ge_size i n = false <-> 0 <= i < n.
Proof.
  intros Hi Hn. pose proof (int_ge_size_spec i n Hi Hn) as H.
  destruct (int_ge_size i n).
  - split; [discriminate|]. intros Hr.
    assert (i < 0 \/ n <= i) by (apply H; reflexivity). lia.
  - split; [|reflexivity]. intros _.
    destruct (Z_lt_le_dec i 0) as [Hneg|Hpos].
    { assert (false = true) by (apply H; lia). discriminate. }
    destruct (Z_lt_le_dec i n) as [Hlt|Hge]; [lia|].
    assert (false = true) by (apply H; lia). discriminate.
Qed.

Lemma size_of_nonneg {A} (v : list A) : 0 <= size_of v.
Proof. unfold size_of. lia. Qed.

Lemma size_of_app {A} (v w : list A) : size_of (v ++ w) = size_of v + size_of w.
Proof. unfold size_of. rewrite length_app. lia. Qed.

(** ** What the operations leave alone *)

Create HintDb frame.

Lemma same_layout_refl (m : Menu) : same_layout m m.
Proof. unfold same_layout. tauto. Qed.

Lemma same_layout_trans (m1 m2 m3 : Menu) :
  same_layout m1 m2 -> same_layout m2 m3 -> same_layout m1 m3.
Proof. unfold same_layout. intuition congruence. Qed.

Lemma same_layout_emit (e : Event) (m0 m : Menu) :
  same_layout m0 m -> same_layout m0 (emit e m).
Proof. unfold same_layout. simpl. tauto. Qed.

Lemma same_layout_alter_data f (i : Z) (m0 m : Menu) :
  same_layout m0 m -> same_layout m0 (alter_data f i m).
Proof.
  unfold same_layout, alter_data. destruct (i <? 0); simpl; [tauto|].
  rewrite length_alter. tauto.
Qed.

Lemma same_layout_set_selected (v : Z) (m0 m : Menu) :
  same_layout m0 m -> same_layout m0 (set_selected v m).
Proof. unfold same_layout. simpl. tauto. Qed.

Lemma same_layout_set_pressed (v : Z) (m0 m : Menu) :
  same_layout m0 m -> same_layout m0 (set_pressed v m).
Proof. unfold same_layout. simpl. tauto. Qed.

Lemma same_layout_set_mouseSelection (v : bool) (m0 m : Menu) :
  same_layout m0 m -> same_layout m0 (set_mouseSelection v m).
Proof. unfold same_layout. simpl. tauto. Qed.

#[global] Hint Resolve same_layout_refl same_layout_emit same_layout_alter_data
  same_layout_set_selected same_layout_set_pressed
  same_layout_set_mouseSelection : frame.

Lemma same_layout_setSelected (i : Z) (m0 m : Menu) :
  same_layout m0 m -> same_layout m0 (setSelected i m).
Proof.
  intros H. unfold setSelected. repeat case_match; auto 10 with frame.
Qed.

Lemma same_layout_setPressed (i : Z) (m0 m : Menu) :
  same_layout m0 m -> same_layout m0 (setPressed i m).
Proof.
  intros H. unfold setPressed. repeat case_match; auto 10 with frame.
Qed.

#[global] Hint Resolve same_layout_setSelected same_layout_setPressed : frame.

Lemma same_layout_updateSelected (p : QPoint) (m0 m : Menu) :
  same_layout m0 m -> same_layout m0 (updateSelected p m).
Proof.
  intros H. unfold updateSelected. repeat case_match; auto with frame.
Qed.

Lemma same_layout_itemReleased (s : TriggeredSource) (m0 m : Menu) :
  same_layout m0 m -> same_layout m0 (itemReleased s m).
Proof.
  intros H. unfold itemReleased. repeat case_match; auto 10 with frame.
Qed.

#[global] Hint Resolve same_layout_updateSelected same_layout_itemReleased : frame.

Lemma same_layout_itemPressed (s : TriggeredSource) (m0 m : Menu) :
  same_layout m0 m -> same_layout m0 (itemPressed s m).
Proof.
  intros H. unfold itemPressed. repeat case_match; auto 10 with frame.
Qed.

Lemma same_layout_clearSelection (m0 m : Menu) :
  same_layout m0 m -> same_layout m0 (clearSelection m).
Proof. intros H. unfold clearSelection. auto with frame. Qed.

#[global] Hint Resolve same_layout_itemPressed same_layout_clearSelection : frame.

Lemma same_layout_clearMouseSelection (m0 m : Menu) :
  same_layout m0 m -> same_layout m0 (clearMouseSelection m).
Proof.
  intros H. unfold clearMouseSelection. repeat case_match; auto with frame.
Qed.

#[global] Hint Resolve same_layout_clearMouseSelection : frame.

Lemma same_layout_handleKeyPress_navigate (k : Key) (m0 m : Menu) :
  same_layout m0 m -> same_layout m0 (handleKeyPress_navigate k m).
Proof.
  intros H. unfold handleKeyPress_navigate. repeat case_match; auto with frame.
Qed.

#[global] Hint Resolve same_layout_handleKeyPress_navigate : frame.

Lemma same_layout_handleKeyPress (k : Key) (m0 m : Menu) :
  same_layout m0 m -> same_layout m0 (handleKeyPress k m).
Proof.
  intros H. unfold handleKeyPress. repeat case_match; auto with frame.
Qed.

Lemma same_layout_handleMouseMove (p : QPoint) (m0 m : Menu) :
  same_layout m0 m -> same_layout m0 (handleMouseMove p m).
Proof.
  intros H. unfold handleMouseMove. repeat case_match; auto with frame.
Qed.

#[global] Hint Resolve same_layout_handleKeyPress same_layout_handleMouseMove : frame.

Lemma same_layout_handleMousePress (p : QPoint) (m0 m : Menu) :
  same_layout m0 m -> same_layout m0 (handleMousePress p m).
Proof.
  intros H. unfold handleMousePress. repeat case_match; auto with frame.
Qed.

Lemma same_layout_handleMouseRelease (p : QPoint) (m0 m : Menu) :
  same_layout m0 m -> same_layout m0 (handleMouseRelease p m).
Proof.
  intros H. unfold handleMouseRelease. repeat case_match; auto with frame.
Qed.

#[global] Hint Resolve same_layout_handleMousePress same_layout_handleMouseRelease : frame.

(** ** Selection and press indices *)

Lemma alter_data_selected f i m : _selected (alter_data f i m) = _selected m.
Proof. unfold alter_data. now destruct (i <? 0). Qed.

Lemma alter_data_pressed f i m : _pressed (alter_data f i m) = _pressed m.
Proof. unfold alter_data. now destruct (i <? 0). Qed.

Lemma alter_data_mouseSelection f i m :
  _mouseSelection (alter_data f i m) = _mouseSelection m.
Proof. unfold alter_data. now destruct (i <? 0). Qed.

Lemma alter_data_events f i m : events (alter_data f i m) = events m.
Proof. unfold alter_data. now destruct (i <? 0). Qed.

Lemma alter_data_actions f i m : _actions (alter_data f i m) = _actions m.
Proof. unfold alter_data. now destruct (i <? 0). Qed.

Lemma alter_data_st f i m : _st (alter_data f i m) = _st m.
Proof. unfold alter_data. now destruct (i <? 0). Qed.

Lemma alter_data_activatedCallback f i m :
  _activatedCallback (alter_data f i m) = _activatedCallback m.
Proof. unfold alter_data. now destruct (i <? 0). Qed.

Lemma alter_data_triggeredCallback f i m :
  _triggeredCallback (alter_data f i m) = _triggeredCallback m.
Proof. unfold alter_data. now destruct (i <? 0). Qed.

Lemma alter_data_length f i m :
  length (_actionsData (alter_data f i m)) = length (_actionsData m).
Proof.
  unfold alter_data. destruct (i <? 0); simpl; [reflexivity|].
  apply length_alter.
Qed.

Lemma alter_data_height f i m : height (alter_data f i m) = height m.
Proof. unfold alter_data. now destruct (i <? 0). Qed.

Lemma alter_data_width f i m : width (alter_data f i m) = width m.
Proof. unfold alter_data. now destruct (i <? 0). Qed.

Lemma alter_data_forceWidth f i m :
  _forceWidth (alter_data f i m) = _forceWidth m.
Proof. unfold alter_data. now destruct (i <? 0). Qed.

Lemma alter_data_resizedCallback f i m :
  _resizedCallback (alter_data f i m) = _resizedCallback m.
Proof. unfold alter_data. now destruct (i <? 0). Qed.

Lemma alter_data_cursor_pos f i m : cursor_pos (alter_data f i m) = cursor_pos m.
Proof. unfold alter_data. now destruct (i <? 0). Qed.

#[global] Arguments alter_data : simpl never.

Create Rewrite HintDb proj.

#[global] Hint Rewrite alter_data_selected alter_data_pressed
  alter_data_mouseSelection alter_data_events alter_data_actions
  alter_data_st alter_data_activatedCallback alter_data_triggeredCallback
  alter_data_length alter_data_height alter_data_width alter_data_forceWidth
  alter_data_resizedCallback alter_data_cursor_pos
  : proj.

(** Reading a member after a chain of assignments. *)
Ltac proj :=
  repeat (autorewrite with proj;
          unfold set_actions, set_actionsData, set_forceWidth, set_selected,
            set_pressed, set_childShown, set_mouseSelection, resize,
            set_cursor_pos, emit, notify_resized;
          simpl).

Lemma setSelected_selected (i : Z) (m : Menu) :
  _selected (setSelected i m) = normalized i m.
Proof.
  unfold setSelected. fold (normalized i m).
  generalize (normalized i m) as sel. intros sel.
  destruct (Z.eqb_spec (_selected m) sel) as [E|E]; simpl; [exact E|].
  repeat case_match; proj; reflexivity.
Qed.

Lemma setSelected_pressed (i : Z) (m : Menu) :
  _pressed (setSelected i m) = _pressed m.
Proof.
  unfold setSelected. fold (normalized i m).
  generalize (normalized i m) as sel. intros sel.
  repeat case_match; proj; reflexivity.
Qed.

Lemma setSelected_mouseSelection (i : Z) (m : Menu) :
  _mouseSelection (setSelected i m) = _mouseSelection m.
Proof.
  unfold setSelected. fold (normalized i m).
  generalize (normalized i m) as sel. intros sel.
  repeat case_match; proj; reflexivity.
Qed.

Lemma setPressed_pressed (i : Z) (m : Menu) :
  _pressed (setPressed i m) = normalized i m.
Proof.
  unfold setPressed. fold (normalized i m).
  generalize (normalized i m) as sel. intros sel.
  destruct (Z.eqb_spec (_pressed m) sel) as [E|E]; simpl; [exact E|].
  repeat case_match; proj; reflexivity.
Qed.

Lemma setPressed_selected (i : Z) (m : Menu) :
  _selected (setPressed i m) = _selected m.
Proof.
  unfold setPressed. fold (normalized i m).
  generalize (normalized i m) as sel. intros sel.
  repeat case_match; proj; reflexivity.
Qed.

Lemma setPressed_mouseSelection (i : Z) (m : Menu) :
  _mouseSelection (setPressed i m) = _mouseSelection m.
Proof.
  unfold setPressed. fold (normalized i m).
  generalize (normalized i m) as sel. intros sel.
  repeat case_match; proj; reflexivity.
Qed.

Lemma setPressed_events (i : Z) (m : Menu) :
  events (setPressed i m) = events m.
Proof.
  unfold setPressed. fold (normalized i m).
  generalize (normalized i m) as sel. intros sel.
  repeat case_match; proj; reflexivity.
Qed.

Lemma normalized_valid (i : Z) (m : Menu) :
  in_int i -> size_of (_actions m) <= int_max ->
  valid_index m (normalized i m).
Proof.
  intros Hi Hn. unfold normalized, valid_index.
  destruct (int_ge_size i (size_of (_actions m))) eqn:E; [now left|].
  right. apply int_ge_size_false in E; auto.
  split; [apply size_of_nonneg | exact Hn].
Qed.

Lemma normalized_out_of_range (i : Z) (m : Menu) :
  in_int i -> size_of (_actions m) <= int_max ->
  i < 0 \/ size_of (_actions m) <= i ->
  normalized i m = -1.
Proof.
  intros Hi Hn Ho. unfold normalized.
  assert (E : int_ge_size i (size_of (_actions m)) = true).
  { apply int_ge_size_spec; auto. split; [apply size_of_nonneg | exact Hn]. }
  now rewrite E.
Qed.

Lemma normalized_in_range (i : Z) (m : Menu) :
  0 <= i < size_of (_actions m) -> size_of (_actions m) <= int_max ->
  normalized i m = i.
Proof.
  intros Hi Hn. unfold normalized.
  assert (E : int_ge_size i (size_of (_actions m)) = false).
  { apply int_ge_size_false; auto.
    - unfold in_int, int_min, int_max in *. lia.
    - split; [apply size_of_nonneg | exact Hn]. }
  now rewrite E.
Qed.

Lemma normalized_same_actions (i : Z) (m m' : Menu) :
  _actions m' = _actions m -> normalized i m' = normalized i m.
Proof. unfold normalized. now intros ->. Qed.

(** C8.  Opening the menu with the pointer leaves nothing selected;
    opening it from the keyboard selects item 0, or nothing when the menu
    has no actions.  The mouse-selection flag records which of the two it
    was. *)
Theorem setShowSource_initial_selection (source : TriggeredSource) (m : Menu) :
  size_of (_actions m) <= int_max ->
  _selected (setShowSource source m)
  = match source with
    | Mouse => -1
    | Keyboard => if size_of (_actions m) =? 0 then -1 else 0
    end
  /\ _mouseSelection (setShowSource source m) = is_Mouse source.
Proof.
  intros Hn. unfold setShowSource. split.
  - rewrite setSelected_selected.
    rewrite (normalized_same_actions _ m) by reflexivity.
    change (_actions (set_mouseSelection (is_Mouse source) m)) with (_actions m).
    pose proof (size_of_nonneg (_actions m)) as H0.
    assert (Hm1 : in_int (-1)) by (unfold in_int, int_min, int_max; lia).
    destruct source; simpl.
    + apply normalized_out_of_range; [exact Hm1 | exact Hn | lia].
    + destruct (Z.eqb_spec (size_of (_actions m)) 0) as [E|E].
      * apply normalized_out_of_range; [exact Hm1 | exact Hn | lia].
      * apply normalized_in_range; [lia | exact Hn].
  - rewrite setSelected_mouseSelection. reflexivity.
Qed.

(** ** Item geometry *)

Lemma fold_left_heights (m : Menu) (acts : list QAction) (top : Z) :
  fold_left (fun top a => top + actionHeight m a) acts top
  = top + heights m acts.
Proof.
  revert top; induction acts as [|a acts IH]; intros top; simpl; [lia|].
  rewrite IH. lia.
Qed.

Lemma heights_app (m : Menu) (l1 l2 : list QAction) :
  heights m (l1 ++ l2) = heights m l1 + heights m l2.
Proof. induction l1 as [|a l1 IH]; simpl; lia. Qed.

Lemma heights_same_st (m m' : Menu) (acts : list QAction) :
  _st m' = _st m -> heights m' acts = heights m acts.
Proof.
  intros E. induction acts as [|a acts IH]; simpl; [reflexivity|].
  rewrite IH. unfold actionHeight, _separatorHeight, _itemHeight.
  now rewrite E.
Qed.

Lemma actionHeight_nonneg (m : Menu) (a : QAction) :
  0 <= _itemHeight m -> 0 <= _separatorHeight m -> 0 <= actionHeight m a.
Proof. intros Hi Hs. unfold actionHeight. now destruct (isSeparator a). Qed.

Lemma heights_nonneg (m : Menu) (acts : list QAction) :
  0 <= _itemHeight m -> 0 <= _separatorHeight m -> 0 <= heights m acts.
Proof.
  intros Hi Hs. induction acts as [|a acts IH]; simpl; [lia|].
  pose proof (actionHeight_nonneg m a Hi Hs). lia.
Qed.

Lemma itemTop_valid (m : Menu) (i : Z) :
  size_of (_actions m) <= int_max ->
  0 <= i <= size_of (_actions m) ->
  itemTop i m = skip (_st m) + heights m (take (Z.to_nat i) (_actions m)).
Proof.
  intros Hn Hi. unfold itemTop.
  assert (E : int_gt_size i (size_of (_actions m)) = false).
  { destruct (int_gt_size i (size_of (_actions m))) eqn:E; [|reflexivity].
    apply int_gt_size_spec in E.
    - lia.
    - unfold in_int, int_min, int_max in *. lia.
    - lia. }
  rewrite E. apply fold_left_heights.
Qed.

Lemma itemTop_same_layout (m m' : Menu) (i : Z) :
  _st m' = _st m -> _actions m' = _actions m -> itemTop i m' = itemTop i m.
Proof.
  intros E1 E2. unfold itemTop. rewrite E2.
  rewrite !fold_left_heights, E1. f_equal. now apply heights_same_st.
Qed.

Lemma action_at_lookup (m : Menu) (i : nat) (a : QAction) :
  _actions m !! i = Some a -> action_at m (Z.of_nat i) = a.
Proof.
  intros H. unfold action_at, vec_get.
  destruct (Z.ltb_spec (Z.of_nat i) 0); [lia|].
  rewrite Nat2Z.id, H. reflexivity.
Qed.

(** ** Hovering *)

Lemma updateSelected_scan_range (m : Menu) (rest : list QAction)
    (y selected top : Z) :
  selected <= updateSelected_scan m rest y selected top
           <= selected + 1 + size_of rest.
Proof.
  revert selected top.
  induction rest as [|a rest IH]; intros selected top; simpl.
  - unfold size_of; simpl. destruct (top <=? y); lia.
  - unfold size_of in *. simpl length.
    destruct (top <=? y); [|lia].
    specialize (IH (selected + 1) (top + actionHeight m a)). lia.
Qed.

Lemma updateSelected_scan_spec (m : Menu) (rest : list QAction)
    (y selected top : Z) :
  0 <= _itemHeight m -> 0 <= _separatorHeight m ->
  (y < top -> updateSelected_scan m rest y selected top = selected)
  /\ (forall (i : nat) (a : QAction),
        rest !! i = Some a ->
        top + heights m (take i rest) <= y
          < top + heights m (take i rest) + actionHeight m a ->
        updateSelected_scan m rest y selected top = selected + 1 + Z.of_nat i)
  /\ (top + heights m rest <= y ->
      updateSelected_scan m rest y selected top = selected + 1 + size_of rest).
Proof.
  intros Hi Hs. revert selected top.
  induction rest as [|a rest IH]; intros selected top.
  - simpl. repeat split.
    + intros H. destruct (Z.leb_spec top y); [lia | reflexivity].
    + intros i b H. destruct i; discriminate.
    + intros H. unfold size_of. simpl.
      destruct (Z.leb_spec top y); [lia | lia].
  - destruct (IH (selected + 1) (top + actionHeight m a)) as (IH1 & IH2 & IH3).
    pose proof (actionHeight_nonneg m a Hi Hs) as Ha.
    simpl. repeat split.
    + intros H. destruct (Z.leb_spec top y); [lia | reflexivity].
    + intros i b Hl Hy. destruct i as [|i]; simpl in *.
      * inversion Hl; subst b.
        destruct (Z.leb_spec top y); [|lia]. rewrite IH1 by lia. lia.
      * pose proof (heights_nonneg m (take i rest) Hi Hs).
        destruct (Z.leb_spec top y); [|lia].
        rewrite (IH2 i b Hl) by lia. lia.
    + intros H. pose proof (heights_nonneg m rest Hi Hs).
      destruct (Z.leb_spec top y); [|lia].
      rewrite IH3 by lia. unfold size_of. simpl length. lia.
Qed.

(** C3.  [updateSelected] does nothing outside mouse-selection mode.  In
    that mode the pointer's height below the top padding is compared with
    the running sum of the item heights (a separator counts with the
    separator height, any other action with the item height): when it
    falls within the span of item [i], the selection becomes [i] if that
    item is enabled and not a separator and -1 otherwise; when it lies
    above the first item or below the last one, the selection becomes
    -1. *)
Theorem updateSelected_hover (globalPosition : QPoint) (m : Menu) :
  size_of (_actions m) <= int_max ->
  0 <= _itemHeight m ->
  0 <= _separatorHeight m ->
  let y := point_y globalPosition - point_y (widget_pos m) - skip (_st m) in
  (_mouseSelection m = false -> updateSelected globalPosition m = m)
  /\ (_mouseSelection m = true ->
      (forall (i : nat) (a : QAction),
          _actions m !! i = Some a ->
          heights m (take i (_actions m)) <= y
            < heights m (take i (_actions m)) + actionHeight m a ->
          updateSelected globalPosition m
          = setSelected (if selectable a then Z.of_nat i else -1) m
          /\ _selected (updateSelected globalPosition m)
             = (if selectable a then Z.of_nat i else -1))
      /\ (y < 0 \/ heights m (_actions m) <= y ->
          updateSelected globalPosition m = setSelected (-1) m
          /\ _selected (updateSelected globalPosition m) = -1)).
Proof.
  intros Hn Hi Hs y.
  pose proof (size_of_nonneg (_actions m)) as Hn0.
  assert (Hm1 : normalized (-1) m = -1).
  { apply normalized_out_of_range; [unfold in_int, int_min, int_max| |]; lia. }
  split.
  { intros Hm. unfold updateSelected. now rewrite Hm. }
  intros Hm.
  destruct (updateSelected_scan_spec m (_actions m) y (-1) 0 Hi Hs)
    as (S1 & S2 & S3).
  split.
  - intros i a Hl Hspan.
    assert (Hlt : Z.of_nat i < size_of (_actions m)).
    { apply lookup_lt_Some in Hl. unfold size_of. lia. }
    assert (E : updateSelected globalPosition m
                = setSelected (if selectable a then Z.of_nat i else -1) m).
    { unfold updateSelected. rewrite Hm. cbn [negb]. cbv zeta.
      change (point_y
                (QPoint_sub (mapFromGlobal m globalPosition)
                   {| point_x := 0; point_y := skip (_st m) |})) with y.
      rewrite (S2 i a Hl) by lia.
      replace (-1 + 1 + Z.of_nat i) with (Z.of_nat i) by lia.
      rewrite (action_at_lookup m i a Hl).
      assert (E1 : (0 <=? Z.of_nat i) = true) by (apply Z.leb_le; lia).
      assert (E2 : int_lt_size (Z.of_nat i) (size_of (_actions m)) = true).
      { apply int_lt_size_spec;
          [unfold in_int, int_min, int_max in *; lia | lia | lia]. }
      rewrite E1, E2. reflexivity. }
    split; [exact E|].
    rewrite E, setSelected_selected.
    destruct (selectable a); [|exact Hm1].
    apply normalized_in_range; lia.
  - intros Hout.
    assert (E : updateSelected globalPosition m = setSelected (-1) m).
    { unfold updateSelected. rewrite Hm. cbn [negb]. cbv zeta.
      change (point_y
                (QPoint_sub (mapFromGlobal m globalPosition)
                   {| point_x := 0; point_y := skip (_st m) |})) with y.
      destruct Hout as [Ha|Hb].
      - rewrite S1 by lia. reflexivity.
      - rewrite S3 by lia.
        replace (-1 + 1 + size_of (_actions m)) with (size_of (_actions m))
          by lia.
        assert (E2 : int_lt_size (size_of (_actions m)) (size_of (_actions m))
                     = false).
        { unfold int_lt_size. rewrite as_size_t_small.
          - apply Z.ltb_irrefl.
          - unfold int_max in Hn. lia. }
        rewrite E2, andb_false_r. reflexivity. }
    split; [exact E|]. rewrite E, setSelected_selected. exact Hm1.
Qed.

(** ** Keyboard navigation *)

Lemma wrap_forward (n start k : Z) :
  0 <= start < n -> 0 <= k <= n ->
  (start + k * 1) mod n
  = if start + k <? n then start + k else start + k - n.
Proof.
  intros Hs Hk. replace (start + k * 1) with (start + k) by lia.
  destruct (Z.ltb_spec (start + k) n).
  - apply Z.mod_small. lia.
  - symmetry. apply (Z.mod_unique _ n 1); lia.
Qed.

Lemma wrap_backward (n start k : Z) :
  0 <= start < n -> 0 <= k <= n ->
  (start + k * -1) mod n
  = if 0 <=? start - k then start - k else start - k + n.
Proof.
  intros Hs Hk. replace (start + k * -1) with (start - k) by lia.
  destruct (Z.leb_spec 0 (start - k)).
  - apply Z.mod_small. lia.
  - symmetry. apply (Z.mod_unique _ n (-1)); lia.
Qed.

Lemma wrap_cases (n start k delta : Z) :
  delta = 1 \/ delta = -1 -> 0 <= start < n -> 0 <= k <= n ->
  0 <= (start + k * delta) mod n < n
  /\ ((start + k * delta) mod n = start <-> k = 0 \/ k = n).
Proof.
  intros [->| ->] Hs Hk.
  - rewrite wrap_forward by lia. destruct (Z.ltb_spec (start + k) n); lia.
  - rewrite wrap_backward by lia. destruct (Z.leb_spec 0 (start - k)); lia.
Qed.

Lemma wrap_onto (n start delta i : Z) :
  delta = 1 \/ delta = -1 -> 0 <= start < n -> 0 <= i < n ->
  exists k, 1 <= k <= n /\ (start + k * delta) mod n = i.
Proof.
  intros [->| ->] Hs Hi.
  - destruct (Z_lt_le_dec start i).
    + exists (i - start). split; [lia|]. rewrite wrap_forward by lia.
      destruct (Z.ltb_spec (start + (i - start)) n); lia.
    + exists (i - start + n). split; [lia|]. rewrite wrap_forward by lia.
      destruct (Z.ltb_spec (start + (i - start + n)) n); lia.
  - destruct (Z_lt_le_dec i start).
    + exists (start - i). split; [lia|]. rewrite wrap_backward by lia.
      destruct (Z.leb_spec 0 (start - (start - i))); lia.
    + exists (start - i + n). split; [lia|]. rewrite wrap_backward by lia.
      destruct (Z.leb_spec 0 (start - (start - i + n))); lia.
Qed.

Lemma handleKeyPress_next_wrap (m : Menu) (delta x : Z) :
  delta = 1 \/ delta = -1 ->
  size_of (_actions m) <= int_max ->
  0 <= x < size_of (_actions m) ->
  handleKeyPress_next m delta x = (x + delta) mod size_of (_actions m).
Proof.
  intros Hd Hn Hx. unfold handleKeyPress_next.
  set (n := size_of (_actions m)) in *.
  unfold int_max in Hn.
  destruct Hd as [->| ->].
  - destruct (Z.ltb_spec (x + 1) 0); [lia|].
    unfold int_ge_size. rewrite (as_size_t_small (x + 1)) by lia.
    destruct (Z.leb_spec n (x + 1)).
    + replace (x + 1) with n by lia.
      rewrite Z.sub_diag, Z_mod_same_full.
      rewrite as_size_t_small by lia. apply to_int_small.
      unfold in_int, int_min, int_max; lia.
    + symmetry. apply Z.mod_small. lia.
  - destruct (Z.ltb_spec (x + -1) 0).
    + replace (x + -1) with (-1) by lia.
      rewrite (as_size_t_neg (-1)) by lia.
      replace (-1 + 2 ^ 64 + n) with (n - 1 + 1 * 2 ^ 64) by lia.
      unfold as_size_t at 1. rewrite Z_mod_plus_full.
      rewrite Z.mod_small by lia.
      rewrite to_int_small by (unfold in_int, int_min, int_max; lia).
      apply (Z.mod_unique _ n (-1)); lia.
    + unfold int_ge_size. rewrite (as_size_t_small (x + -1)) by lia.
      destruct (Z.leb_spec n (x + -1)); [lia|].
      symmetry. apply Z.mod_small. lia.
Qed.

Lemma not_selectable (a : QAction) :
  negb (isEnabled a) || isSeparator a = negb (selectable a).
Proof. unfold selectable. destruct (isEnabled a), (isSeparator a); reflexivity. Qed.

Section Navigation.

Variable m : Menu.
Variables delta start : Z.
Hypothesis Hdelta : delta = 1 \/ delta = -1.
Hypothesis Hsize : size_of (_actions m) <= int_max.
Hypothesis Hstart : 0 <= start < size_of (_actions m).

Lemma handleKeyPress_next_pos (k : Z) :
  0 <= k <= size_of (_actions m) ->
  handleKeyPress_next m delta (wrap_pos (size_of (_actions m)) start delta k)
  = wrap_pos (size_of (_actions m)) start delta (k + 1).
Proof.
  intros Hk. unfold wrap_pos.
  rewrite handleKeyPress_next_wrap;
    [| exact Hdelta | exact Hsize
     | apply (wrap_cases _ start k delta Hdelta Hstart Hk) ].
  rewrite Zplus_mod_idemp_l. f_equal. lia.
Qed.

(** The loop comes to an end within [size] passes: from step [k] it stops
    at the first later step [j0] that is selectable, or at step [size],
    which is the start again. *)
Lemma handleKeyPress_scan_finds (fuel : nat) (k : Z) :
  Z.of_nat fuel = size_of (_actions m) - k ->
  0 <= k < size_of (_actions m) ->
  exists j0, k < j0 <= size_of (_actions m)
    /\ handleKeyPress_scan fuel m delta start
         (wrap_pos (size_of (_actions m)) start delta k)
       = Some (wrap_pos (size_of (_actions m)) start delta j0)
    /\ (j0 = size_of (_actions m)
        \/ selectable
             (action_at m (wrap_pos (size_of (_actions m)) start delta j0))
           = true)
    /\ (forall j, k < j < j0 ->
        selectable
          (action_at m (wrap_pos (size_of (_actions m)) start delta j))
        = false).
Proof.
  revert k. induction fuel as [|fuel IH]; intros k Hf Hk; [lia|].
  cbn [handleKeyPress_scan]. rewrite handleKeyPress_next_pos by lia.
  rewrite not_selectable.
  destruct (wrap_cases (size_of (_actions m)) start (k + 1) delta
              Hdelta Hstart) as [_ Hst]; [lia|].
  fold (wrap_pos (size_of (_actions m)) start delta (k + 1)) in Hst.
  destruct (Z.eqb_spec (wrap_pos (size_of (_actions m)) start delta (k + 1))
              start) as [E|E].
  - exists (k + 1). cbn [negb andb].
    assert (k + 1 = size_of (_actions m)) by (apply Hst in E; lia).
    split; [lia|]. split; [reflexivity|]. split; [left; assumption|].
    intros j Hj. lia.
  - assert (k + 1 < size_of (_actions m)).
    { destruct (Z_lt_le_dec (k + 1) (size_of (_actions m))); [assumption|].
      exfalso. apply E, Hst. lia. }
    cbn [negb andb].
    destruct (selectable
                (action_at m
                   (wrap_pos (size_of (_actions m)) start delta (k + 1))))
      eqn:Es; cbn [negb].
    + exists (k + 1).
      split; [lia|]. split; [reflexivity|]. split; [right; assumption|].
      intros j Hj. lia.
    + destruct (IH (k + 1)) as (j0 & Hj & Hscan & Hend & Hskip); [lia | lia |].
      exists j0.
      split; [lia|]. split; [exact Hscan|]. split; [exact Hend|].
      intros j Hjr. destruct (Z.eq_dec j (k + 1)) as [-> | Hne];
        [exact Es | apply Hskip; lia].
Qed.

End Navigation.

Lemma nav_delta_cases (key : Key) : nav_delta key = 1 \/ nav_delta key = -1.
Proof. unfold nav_delta. destruct (Key_eqb key Key_Down); auto. Qed.

Lemma nav_start_range (key : Key) (m : Menu) :
  0 < size_of (_actions m) ->
  0 <= nav_start key m < size_of (_actions m).
Proof.
  intros Hn. unfold nav_start.
  destruct (Z.ltb_spec (_selected m) 0); simpl.
  - destruct (0 <? nav_delta key); lia.
  - destruct (Z.leb_spec (size_of (_actions m)) (_selected m)).
    + destruct (0 <? nav_delta key); lia.
    + lia.
Qed.

Lemma handleKeyPress_is_navigate (key : Key) (m : Menu) :
  key = Key_Up \/ key = Key_Down ->
  handleKeyPress key m = handleKeyPress_navigate key m.
Proof.
  intros [-> | ->]; unfold handleKeyPress; simpl;
    destruct (RightToLeft (_st m)); reflexivity.
Qed.

Lemma handleKeyPress_navigate_result (key : Key) (m : Menu) :
  key = Key_Up \/ key = Key_Down ->
  0 < size_of (_actions m) <= int_max ->
  in_int (_selected m) ->
  exists j0, 1 <= j0 <= size_of (_actions m)
    /\ handleKeyPress_navigate key m
       = (if selectable (action_at m (nav_pos key m j0))
          then setSelected (nav_pos key m j0) (set_mouseSelection false m)
          else m)
    /\ (j0 = size_of (_actions m)
        \/ selectable (action_at m (nav_pos key m j0)) = true)
    /\ (forall j, 1 <= j < j0 ->
        selectable (action_at m (nav_pos key m j)) = false).
Proof.
  intros Hkey [Hn0 Hn] Hsel.
  pose proof (nav_delta_cases key) as Hd.
  pose proof (nav_start_range key m Hn0) as Hst.
  destruct (handleKeyPress_scan_finds m (nav_delta key) (nav_start key m)
              Hd Hn Hst (length (_actions m)) 0) as (j0 & Hj & Hscan & Hend & Hskip).
  { unfold size_of. lia. }
  { lia. }
  exists j0. split; [lia|]. split; [| split; [exact Hend|]].
  - unfold handleKeyPress_navigate.
    assert (Ek : negb (Key_eqb key Key_Up) && negb (Key_eqb key Key_Down)
                 = false) by (destruct Hkey as [-> | ->]; reflexivity).
    assert (En : (size_of (_actions m) =? 0) = false) by (apply Z.eqb_neq; lia).
    rewrite Ek, En. cbn [orb]. cbv zeta.
    fold (nav_delta key).
    assert (Estart :
      (if (_selected m <? 0) || int_ge_size (_selected m) (size_of (_actions m))
       then if 0 <? nav_delta key
            then to_int (as_size_t (size_of (_actions m) - 1)) else 0
       else _selected m) = nav_start key m).
    { unfold nav_start.
      rewrite as_size_t_small by (unfold int_max in Hn; lia).
      rewrite to_int_small by (unfold in_int, int_min, int_max in *; lia).
      pose proof (int_ge_size_spec (_selected m) (size_of (_actions m)) Hsel
                    ltac:(lia)) as Hge.
      destruct (Z.ltb_spec (_selected m) 0); [reflexivity|]. cbn [orb].
      destruct (Z.leb_spec (size_of (_actions m)) (_selected m)).
      - assert (E : int_ge_size (_selected m) (size_of (_actions m)) = true)
          by (apply Hge; lia).
        now rewrite E.
      - destruct (int_ge_size (_selected m) (size_of (_actions m))) eqn:E;
          [|reflexivity].
        assert (_selected m < 0 \/ size_of (_actions m) <= _selected m)
          by (apply Hge; reflexivity).
        lia. }
    rewrite Estart.
    assert (E0 : wrap_pos (size_of (_actions m)) (nav_start key m)
                   (nav_delta key) 0 = nav_start key m).
    { unfold wrap_pos. rewrite Z.mul_0_l, Z.add_0_r. apply Z.mod_small. lia. }
    rewrite E0 in Hscan. rewrite Hscan.
    fold (nav_pos key m j0). reflexivity.
  - intros j Hjr. apply Hskip. lia.
Qed.

Lemma action_at_not_selectable (m : Menu) (x : Z) :
  (forall (i : nat) (a : QAction),
      _actions m !! i = Some a -> selectable a = false) ->
  selectable (action_at m x) = false.
Proof.
  intros H. unfold action_at, vec_get.
  destruct (x <? 0); [reflexivity|].
  destruct (_actions m !! Z.to_nat x) as [a|] eqn:E; simpl;
    [exact (H _ _ E) | reflexivity].
Qed.

(** C2.  An Up or Down key press steps from the current selection by -1
    or +1, wrapping around at both ends, past every action that is
    disabled or a separator, and selects the first action that is
    neither.  (With nothing selected, Down starts before the first action
    and Up after the last.)  Whenever some action is enabled and not a
    separator, the selection after the key press is such an action; when
    none is, the scan ends where it started and the menu is left as it
    was, selection included. *)
Theorem handleKeyPress_up_down (key : Key) (m : Menu) :
  key = Key_Up \/ key = Key_Down ->
  size_of (_actions m) <= int_max ->
  in_int (_selected m) ->
  (0 <= _selected m < size_of (_actions m) ->
   forall k, nav_pos key m k
             = (_selected m + k * (if Key_eqb key Key_Down then 1 else -1))
               mod size_of (_actions m))
  /\ (forall k,
        1 <= k <= size_of (_actions m) ->
        selectable (action_at m (nav_pos key m k)) = true ->
        (forall j, 1 <= j < k ->
                   selectable (action_at m (nav_pos key m j)) = false) ->
        handleKeyPress key m
        = setSelected (nav_pos key m k) (set_mouseSelection false m)
        /\ _selected (handleKeyPress key m) = nav_pos key m k)
  /\ ((exists (i : nat) (a : QAction),
          _actions m !! i = Some a /\ selectable a = true) ->
      0 <= _selected (handleKeyPress key m) < size_of (_actions m)
      /\ selectable (action_at m (_selected (handleKeyPress key m))) = true)
  /\ ((forall (i : nat) (a : QAction),
          _actions m !! i = Some a -> selectable a = false) ->
      handleKeyPress key m = m).
Proof.
  intros Hkey Hn Hsel.
  rewrite (handleKeyPress_is_navigate key m Hkey).
  split.
  { intros Hv k. unfold nav_pos, wrap_pos, nav_start, nav_delta.
    destruct (Z.ltb_spec (_selected m) 0); [lia|].
    destruct (Z.leb_spec (size_of (_actions m)) (_selected m)); [lia|].
    reflexivity. }
  destruct (Z.eq_dec (size_of (_actions m)) 0) as [Hz|Hnz].
  { (* no actions at all *)
    assert (E : handleKeyPress_navigate key m = m).
    { unfold handleKeyPress_navigate. rewrite Hz. cbn [Z.eqb].
      now rewrite orb_true_r. }
    rewrite E. split; [intros k Hk; lia|]. split; [|reflexivity].
    intros (i & a & Hl & _). apply lookup_lt_Some in Hl.
    unfold size_of in Hz. lia. }
  pose proof (size_of_nonneg (_actions m)) as Hn0.
  destruct (handleKeyPress_navigate_result key m Hkey ltac:(lia) Hsel)
    as (j0 & Hj & Hres & Hend & Hskip).
  pose proof (nav_delta_cases key) as Hd.
  pose proof (nav_start_range key m ltac:(lia)) as Hst.
  assert (Hrange : forall k, 0 <= k <= size_of (_actions m) ->
                             0 <= nav_pos key m k < size_of (_actions m)).
  { intros k Hk. apply (wrap_cases _ _ k _ Hd Hst Hk). }
  assert (Hset : forall k, 0 <= k <= size_of (_actions m) ->
            _selected (setSelected (nav_pos key m k)
                         (set_mouseSelection false m)) = nav_pos key m k).
  { intros k Hk. rewrite setSelected_selected.
    rewrite (normalized_same_actions _ m) by reflexivity.
    apply normalized_in_range; [apply Hrange; lia | exact Hn]. }
  split; [| split].
  - intros k Hk Hgood Hbefore.
    assert (j0 = k).
    { destruct (Z.lt_trichotomy j0 k) as [Hlt | [Heq | Hgt]]; [| exact Heq |].
      - destruct Hend as [Hend|Hend]; [lia|].
        rewrite Hbefore in Hend by lia. discriminate.
      - rewrite Hskip in Hgood by lia. discriminate. }
    subst j0. rewrite Hres, Hgood. split; [reflexivity | apply Hset; lia].
  - intros (i & a & Hl & Ha).
    destruct (selectable (action_at m (nav_pos key m j0))) eqn:Es.
    + rewrite Hres, Hset by lia. split; [apply Hrange; lia | exact Es].
    + exfalso. destruct Hend as [Hend|Hend]; [|discriminate]. subst j0.
      assert (Hi : 0 <= Z.of_nat i < size_of (_actions m)).
      { apply lookup_lt_Some in Hl. unfold size_of. lia. }
      destruct (wrap_onto _ _ _ _ Hd Hst Hi) as (k & Hk & Hpos).
      fold (wrap_pos (size_of (_actions m)) (nav_start key m)
              (nav_delta key) k) in Hpos.
      fold (nav_pos key m k) in Hpos.
      assert (Hk' : selectable (action_at m (nav_pos key m k)) = false).
      { destruct (Z.eq_dec k (size_of (_actions m))) as [-> | Hne];
          [exact Es | apply Hskip; lia]. }
      rewrite Hpos, (action_at_lookup m i a Hl), Ha in Hk'. discriminate.
  - intros Hnone. rewrite Hres.
    now rewrite (action_at_not_selectable m _ Hnone).
Qed.

(** ** Press and release *)

Lemma action_at_same_actions (m m' : Menu) (i : Z) :
  _actions m' = _actions m -> action_at m' i = action_at m i.
Proof. unfold action_at. now intros ->. Qed.

Lemma triggered_count_snoc (log : list Event) (e : Event) :
  triggered_count (log ++ [e])
  = (triggered_count log + (if is_Triggered e then 1 else 0))%nat.
Proof.
  unfold triggered_count. rewrite filter_app, length_app. f_equal.
  destruct e; reflexivity.
Qed.

Lemma setSelected_triggered_count (i : Z) (m : Menu) :
  triggered_count (events (setSelected i m)) = triggered_count (events m).
Proof.
  unfold setSelected. fold (normalized i m).
  generalize (normalized i m) as sel. intros sel.
  repeat case_match; proj; rewrite ?triggered_count_snoc; simpl; lia.
Qed.

(** The state between [setPressed(-1)] and the test [pressed == _selected]
    in [itemReleased]. *)
Lemma itemReleased_core (source : TriggeredSource) f (p : Z) (m : Menu) :
  let m2 := if is_Mouse source
            then alter_data f p (setPressed (-1) m)
            else setPressed (-1) m in
  _selected m2 = _selected m
  /\ _pressed m2 = normalized (-1) m
  /\ events m2 = events m
  /\ same_layout m m2.
Proof.
  destruct source; simpl; autorewrite with proj;
    rewrite setPressed_selected, setPressed_pressed, setPressed_events;
    (split; [reflexivity|]; split; [reflexivity|]; split; [reflexivity|]);
    auto with frame.
Qed.

Lemma normalized_minus_one (m : Menu) :
  size_of (_actions m) <= int_max -> normalized (-1) m = -1.
Proof.
  intros Hn. apply normalized_out_of_range;
    [unfold in_int, int_min, int_max; lia | exact Hn | lia].
Qed.

Lemma itemReleased_pressed_valid (source : TriggeredSource) (m : Menu) :
  size_of (_actions m) <= int_max ->
  0 <= _pressed m < size_of (_actions m) ->
  _pressed (itemReleased source m) = -1
  /\ _selected (itemReleased source m) = _selected m
  /\ same_layout m (itemReleased source m)
  /\ events (itemReleased source m)
     = if (_pressed m =? _selected m) && _triggeredCallback m
       then events m ++ [Triggered (action_at m (_selected m))
                                   (itemTop (_selected m) m) source]
       else events m.
Proof.
  intros Hn Hp. unfold itemReleased.
  assert (E1 : (0 <=? _pressed m) = true) by (apply Z.leb_le; lia).
  assert (E2 : int_lt_size (_pressed m) (size_of (_actions m)) = true).
  { apply int_lt_size_spec; [unfold in_int, int_min, int_max in *; lia | | lia].
    lia. }
  rewrite E1, E2. cbn [andb]. cbv zeta.
  match goal with
  | |- context [if is_Mouse source then alter_data ?f ?p ?x else _] =>
      destruct (itemReleased_core source f p m) as (Hs & Hpr & He & Hl);
      set (m2 := if is_Mouse source then alter_data f p x else x) in *
  end.
  rewrite normalized_minus_one in Hpr by exact Hn.
  pose proof Hl as (Hst & Hact & _ & _ & _ & _ & _ & _ & _ & Htc).
  rewrite Hs, Htc.
  destruct ((_pressed m =? _selected m) && _triggeredCallback m).
  - split; [proj; exact Hpr|]. split; [proj; exact Hs|].
    split; [auto with frame|]. proj.
    rewrite He, (action_at_same_actions m m2 _ Hact),
      (itemTop_same_layout m m2 _ Hst Hact).
    reflexivity.
  - split; [exact Hpr|]. split; [exact Hs|]. split; [exact Hl | exact He].
Qed.

Lemma itemReleased_idle (source : TriggeredSource) (m : Menu) :
  _pressed m = -1 -> itemReleased source m = m.
Proof. intros H. unfold itemReleased. now rewrite H. Qed.

Lemma itemPressed_mouse (m : Menu) :
  size_of (_actions m) <= int_max ->
  0 <= _selected m < size_of (_actions m) ->
  isEnabled (action_at m (_selected m)) = true ->
  _mouseSelection m = true ->
  _pressed (itemPressed Mouse m) = _selected m
  /\ _selected (itemPressed Mouse m) = _selected m
  /\ events (itemPressed Mouse m) = events m
  /\ same_layout m (itemPressed Mouse m).
Proof.
  intros Hn Hs He Hm. unfold itemPressed.
  assert (E1 : (0 <=? _selected m) = true) by (apply Z.leb_le; lia).
  assert (E2 : int_lt_size (_selected m) (size_of (_actions m)) = true).
  { apply int_lt_size_spec; [unfold in_int, int_min, int_max in *; lia | | lia].
    lia. }
  rewrite Hm, E1, E2, He. cbn [is_Mouse negb andb]. cbv zeta.
  autorewrite with proj.
  rewrite setPressed_pressed, setPressed_selected, setPressed_events.
  split; [apply normalized_in_range; assumption|].
  split; [reflexivity|]. split; [reflexivity|]. auto with frame.
Qed.

Lemma itemPressed_keyboard (m : Menu) :
  size_of (_actions m) <= int_max ->
  0 <= _selected m < size_of (_actions m) ->
  isEnabled (action_at m (_selected m)) = true ->
  itemPressed Keyboard m = itemReleased Keyboard (setPressed (_selected m) m).
Proof.
  intros Hn Hs He. unfold itemPressed.
  assert (E1 : (0 <=? _selected m) = true) by (apply Z.leb_le; lia).
  assert (E2 : int_lt_size (_selected m) (size_of (_actions m)) = true).
  { apply int_lt_size_spec; [unfold in_int, int_min, int_max in *; lia | | lia].
    lia. }
  rewrite E1, E2, He. reflexivity.
Qed.

(** What a release does to a menu whose press index equals [p]. *)
Lemma itemReleased_after_press (source : TriggeredSource) (m m1 : Menu) :
  size_of (_actions m) <= int_max ->
  same_layout m m1 ->
  0 <= _pressed m1 < size_of (_actions m) ->
  _pressed (itemReleased source m1) = -1
  /\ events (itemReleased source m1)
     = if (_pressed m1 =? _selected m1) && _triggeredCallback m
       then events m1 ++ [Triggered (action_at m (_selected m1))
                                    (itemTop (_selected m1) m) source]
       else events m1.
Proof.
  intros Hn Hl Hp.
  pose proof Hl as (Hst & Hact & _ & _ & _ & _ & _ & _ & _ & Htc).
  rewrite <- Hact in Hn, Hp.
  destruct (itemReleased_pressed_valid source m1 Hn Hp) as (H1 & _ & _ & H4).
  split; [exact H1|].
  rewrite H4, Htc, (action_at_same_actions m m1 _ Hact),
    (itemTop_same_layout m m1 _ Hst Hact).
  reflexivity.
Qed.

(** C4 (as the code has it).  Let an item be selected and enabled and let
    a triggered callback be registered.
    - When the press is one the widget accepts (any press from the
      keyboard, or a press from the pointer while the menu is in
      mouse-selection mode), pressing and releasing with the selection
      unchanged calls the triggered callback exactly once, with the
      selected action, its vertical offset and the input source, and
      leaves no item pressed.
    - A keyboard press is the press followed at once by the release: it
      makes that one call by itself and leaves no item pressed.
    - After an accepted pointer press, selecting any other index before
      the release makes the release call no triggered callback, and it
      still leaves no item pressed.
    - A pointer press outside mouse-selection mode is ignored: it leaves
      the menu as it was.  The release that follows changes nothing when
      no press is pending; when an earlier press is still pending it
      calls the triggered callback once if that press is on the selected
      item and not at all otherwise, and leaves no item pressed.
    - In any menu whose press index is valid, a release leaves no item
      pressed. *)
Theorem press_release_trigger (source : TriggeredSource) (m : Menu) :
  size_of (_actions m) <= int_max ->
  0 <= _selected m < size_of (_actions m) ->
  isEnabled (action_at m (_selected m)) = true ->
  _triggeredCallback m = true ->
  ((source = Mouse -> _mouseSelection m = true) ->
   events (itemReleased source (itemPressed source m))
   = events m ++ [Triggered (action_at m (_selected m))
                            (itemTop (_selected m) m) source]
   /\ _pressed (itemReleased source (itemPressed source m)) = -1)
  /\ (source = Keyboard ->
      itemPressed source m
      = itemReleased source (setPressed (_selected m) m)
      /\ events (itemPressed source m)
         = events m ++ [Triggered (action_at m (_selected m))
                                  (itemTop (_selected m) m) source]
      /\ _pressed (itemPressed source m) = -1)
  /\ (source = Mouse -> _mouseSelection m = true ->
      forall j, in_int j -> j <> _selected m ->
      triggered_count
        (events (itemReleased source (setSelected j (itemPressed source m))))
      = triggered_count (events m)
      /\ _pressed (itemReleased source (setSelected j (itemPressed source m)))
         = -1)
  /\ (source = Mouse -> _mouseSelection m = false ->
      itemPressed source m = m
      /\ (_pressed m = -1 ->
          itemReleased source (itemPressed source m) = m)
      /\ (0 <= _pressed m < size_of (_actions m) ->
          events (itemReleased source (itemPressed source m))
          = (if _pressed m =? _selected m
             then events m ++ [Triggered (action_at m (_selected m))
                                         (itemTop (_selected m) m) source]
             else events m)
          /\ _pressed (itemReleased source (itemPressed source m)) = -1))
  /\ (valid_index m (_pressed m) -> _pressed (itemReleased source m) = -1).
Proof.
  intros Hn Hs He Htc.
  pose proof (size_of_nonneg (_actions m)) as Hn0.
  (* the keyboard press *)
  assert (Hkey : events (itemPressed Keyboard m)
                 = events m ++ [Triggered (action_at m (_selected m))
                                          (itemTop (_selected m) m) Keyboard]
                 /\ _pressed (itemPressed Keyboard m) = -1).
  { rewrite (itemPressed_keyboard m Hn Hs He).
    destruct (itemReleased_after_press Keyboard m
                (setPressed (_selected m) m) Hn) as (H1 & H2).
    - auto with frame.
    - rewrite setPressed_pressed, normalized_in_range; assumption.
    - rewrite H2, setPressed_pressed, setPressed_selected, setPressed_events,
        normalized_in_range, Z.eqb_refl, Htc by assumption.
      split; [reflexivity | exact H1]. }
  split; [| split; [| split; [| split]]].
  - intros Hmode. destruct source.
    + destruct (itemPressed_mouse m Hn Hs He (Hmode eq_refl))
        as (Hp & Hsel & Hev & Hl).
      destruct (itemReleased_after_press Mouse m (itemPressed Mouse m) Hn Hl)
        as (H1 & H2); [rewrite Hp; exact Hs|].
      rewrite H2, Hp, Hsel, Hev, Z.eqb_refl, Htc.
      split; [reflexivity | exact H1].
    + destruct Hkey as (Hev & Hp).
      rewrite (itemReleased_idle Keyboard _ Hp). split; assumption.
  - intros ->. split; [apply itemPressed_keyboard; assumption | exact Hkey].
  - intros -> Hmode j Hj Hne.
    destruct (itemPressed_mouse m Hn Hs He Hmode)
      as (Hp & Hsel & Hev & Hl).
    set (m1 := itemPressed Mouse m) in *.
    assert (Hl2 : same_layout m (setSelected j m1)) by auto with frame.
    assert (Hact : _actions m1 = _actions m) by apply Hl.
    destruct (itemReleased_after_press Mouse m (setSelected j m1) Hn Hl2)
      as (H1 & H2).
    { rewrite setSelected_pressed, Hp. exact Hs. }
    split; [| exact H1].
    rewrite H2, setSelected_pressed, setSelected_selected, Hp.
    assert (Hdiff : (_selected m =? normalized j m1) = false).
    { apply Z.eqb_neq. unfold normalized. rewrite Hact.
      destruct (int_ge_size j (size_of (_actions m))); lia. }
    rewrite Hdiff. cbn [andb].
    rewrite setSelected_triggered_count, Hev. reflexivity.
  - intros -> Hmode.
    assert (Hig : itemPressed Mouse m = m).
    { unfold itemPressed. rewrite Hmode. reflexivity. }
    rewrite Hig.
    split; [reflexivity | split].
    + intros Hp. apply itemReleased_idle. exact Hp.
    + intros Hp.
      destruct (itemReleased_pressed_valid Mouse m Hn Hp)
        as (H1 & _ & _ & H4).
      split; [| exact H1].
      rewrite H4, Htc, andb_true_r. reflexivity.
  - intros [Hv|Hv].
    + rewrite itemReleased_idle; assumption.
    + apply (itemReleased_pressed_valid source m Hn Hv).
Qed.

(** C4, refuted as stated.  The sample menu is opened from the keyboard:
    item 0 is selected and enabled and a triggered callback is
    registered.  A pointer press followed by a pointer release, with the
    selection unchanged throughout, calls no triggered callback, because
    a pointer press is ignored outside mouse-selection mode.  The same
    happens through the mouse handlers when the button goes down and up
    on the top padding of the widget. *)
Lemma press_release_ignored_outside_mouse_mode :
  _selected demo_menu_keyboard = 0
  /\ isEnabled (action_at demo_menu_keyboard 0) = true
  /\ _triggeredCallback demo_menu_keyboard = true
  /\ _selected (itemReleased Mouse (itemPressed Mouse demo_menu_keyboard)) = 0
  /\ events (itemReleased Mouse (itemPressed Mouse demo_menu_keyboard))
     = events demo_menu_keyboard
  /\ triggered_count
       (events (itemReleased Mouse (itemPressed Mouse demo_menu_keyboard)))
     <> S (triggered_count (events demo_menu_keyboard))
  /\ triggered_count
       (events (itemReleased Mouse (itemPressed Mouse demo_menu_keyboard)))
     = 0%nat
  /\ _selected
       (handleMouseRelease {| point_x := 10; point_y := 2 |}
          (handleMousePress {| point_x := 10; point_y := 2 |}
             demo_menu_keyboard)) = 0
  /\ triggered_count
       (events
          (handleMouseRelease {| point_x := 10; point_y := 2 |}
             (handleMousePress {| point_x := 10; point_y := 2 |}
                demo_menu_keyboard)))
     = 0%nat.
Proof. vm_compute. repeat split. discriminate. Qed.

Lemma press_release_trigger_witness :
  (events (itemReleased Mouse (itemPressed Mouse demo_menu_mouse))
   = events demo_menu_mouse ++ [Triggered (plain_action open_label) 4 Mouse]
   /\ _pressed (itemReleased Mouse (itemPressed Mouse demo_menu_mouse)) = -1)
  /\ _mouseSelection demo_menu_stale = false
  /\ _pressed demo_menu_stale = 0
  /\ itemPressed Mouse demo_menu_stale = demo_menu_stale
  /\ events (itemReleased Mouse (itemPressed Mouse demo_menu_stale))
     = events demo_menu_stale ++ [Triggered (plain_action open_label) 4 Mouse].
Proof.
  assert (H1 : size_of (_actions demo_menu_mouse) <= int_max)
    by (vm_compute; discriminate).
  assert (H2 : 0 <= _selected demo_menu_mouse
               < size_of (_actions demo_menu_mouse))
    by (vm_compute; split; [discriminate | reflexivity]).
  assert (H3 : size_of (_actions demo_menu_stale) <= int_max)
    by (vm_compute; discriminate).
  assert (H4 : 0 <= _selected demo_menu_stale
               < size_of (_actions demo_menu_stale))
    by (vm_compute; split; [discriminate | reflexivity]).
  assert (H5 : 0 <= _pressed demo_menu_stale
               < size_of (_actions demo_menu_stale))
    by (vm_compute; split; [discriminate | reflexivity]).
  assert (H6 : isEnabled (action_at demo_menu_stale
                            (_selected demo_menu_stale)) = true)
    by (vm_compute; reflexivity).
  assert (H7 : _triggeredCallback demo_menu_stale = true)
    by (vm_compute; reflexivity).
  assert (H8 : _mouseSelection demo_menu_stale = false)
    by (vm_compute; reflexivity).
  split.
  - exact (proj1 (press_release_trigger Mouse demo_menu_mouse
                    H1 H2 eq_refl eq_refl) (fun _ => eq_refl)).
  - pose proof (press_release_trigger Mouse demo_menu_stale
                  H3 H4 H6 H7) as (_ & _ & _ & Hst & _).
    destruct (Hst eq_refl H8) as (Hig & _ & Hrel).
    destruct (Hrel H5) as (Hev & _).
    split; [exact H8 | split; [vm_compute; reflexivity | split; [exact Hig |]]].
    rewrite Hev. vm_compute. reflexivity.
Defined.

(** ** Appending and clearing *)

Lemma updateSelected_pressed (p : QPoint) (m : Menu) :
  _pressed (updateSelected p m) = _pressed m.
Proof.
  unfold updateSelected. destruct (negb (_mouseSelection m)); [reflexivity|].
  apply setSelected_pressed.
Qed.

Lemma updateSelected_mouseSelection (p : QPoint) (m : Menu) :
  _mouseSelection (updateSelected p m) = _mouseSelection m.
Proof.
  unfold updateSelected. destruct (negb (_mouseSelection m)); [reflexivity|].
  apply setSelected_mouseSelection.
Qed.

Lemma updateSelected_not_mouse (p : QPoint) (m : Menu) :
  _mouseSelection m = false -> updateSelected p m = m.
Proof. intros H. unfold updateSelected. now rewrite H. Qed.

Lemma actionHeight_same_st (m m' : Menu) (a : QAction) :
  _st m' = _st m -> actionHeight m' a = actionHeight m a.
Proof.
  intros E. unfold actionHeight, _separatorHeight, _itemHeight. now rewrite E.
Qed.

Lemma addAction_spec (a : QAction) (i io : option nat) (m : Menu) :
  _st (addAction a i io m) = _st m
  /\ _actions (addAction a i io m) = _actions m ++ [a]
  /\ length (_actionsData (addAction a i io m)) = S (length (_actionsData m))
  /\ _pressed (addAction a i io m) = _pressed m
  /\ _mouseSelection (addAction a i io m) = _mouseSelection m
  /\ _forceWidth (addAction a i io m) = _forceWidth m
  /\ height (addAction a i io m) = height m + actionHeight m a
  /\ (_mouseSelection m = false ->
      _selected (addAction a i io m) = _selected m).
Proof.
  unfold addAction, processAction. cbv zeta.
  match goal with
  | |- context [updateSelected ?p ?x] => set (m3 := x); set (c := p)
  end.
  pose proof (same_layout_updateSelected c m3 m3 (same_layout_refl m3))
    as (Hst & Hact & Hlen & Hfw & _ & Hh & _).
  rewrite Hst, Hact, Hlen, Hfw, Hh, updateSelected_pressed,
    updateSelected_mouseSelection.
  assert (Hm3 : _mouseSelection m3 = _mouseSelection m).
  { unfold m3, notify_resized. case_match; proj; reflexivity. }
  assert (Hsel : _mouseSelection m = false ->
                 _selected (updateSelected c m3) = _selected m).
  { intros Hm. rewrite updateSelected_not_mouse by (rewrite Hm3; exact Hm).
    unfold m3, notify_resized. case_match; proj; reflexivity. }
  split; [| split; [| split; [| split; [| split; [| split; [| split]]]]]];
    [ | | | | | | | exact Hsel];
    unfold m3, notify_resized; case_match; proj; rewrite ?length_app; simpl;
    try reflexivity; try lia;
    f_equal; apply actionHeight_same_st; now autorewrite with proj.
Qed.

Lemma clearActions_spec (m : Menu) :
  size_of (_actions m) <= int_max ->
  _selected (clearActions m) = -1
  /\ _pressed (clearActions m) = -1
  /\ _actions (clearActions m) = []
  /\ _actionsData (clearActions m) = []
  /\ height (clearActions m) = skip (_st m) * 2
  /\ width (clearActions m)
     = (if negb (_forceWidth m =? 0) then _forceWidth m else widthMin (_st m))
  /\ _st (clearActions m) = _st m
  /\ _mouseSelection (clearActions m) = _mouseSelection m
  /\ _forceWidth (clearActions m) = _forceWidth m.
Proof.
  intros Hn. unfold clearActions. cbv zeta.
  set (m2 := setPressed (-1) (setSelected (-1) m)).
  assert (Hl : same_layout m m2) by (unfold m2; auto with frame).
  pose proof Hl as (Hst & Hact & _ & Hfw & _).
  assert (Hs : _selected m2 = -1).
  { unfold m2. rewrite setPressed_selected, setSelected_selected.
    now apply normalized_minus_one. }
  assert (Hp : _pressed m2 = -1).
  { unfold m2. rewrite setPressed_pressed.
    rewrite (normalized_same_actions _ m)
      by (apply (same_layout_setSelected (-1) m m (same_layout_refl m))).
    now apply normalized_minus_one. }
  assert (Hm : _mouseSelection m2 = _mouseSelection m).
  { unfold m2. now rewrite setPressed_mouseSelection, setSelected_mouseSelection. }
  unfold notify_resized.
  repeat split; case_match; proj; rewrite ?Hst, ?Hfw; auto.
Qed.

Lemma append_all_spec (l : list (QAction * option nat * option nat)) (m : Menu) :
  _st (append_all l m) = _st m
  /\ _actions (append_all l m) = _actions m ++ appended_actions l
  /\ _pressed (append_all l m) = _pressed m
  /\ _mouseSelection (append_all l m) = _mouseSelection m
  /\ height (append_all l m) = height m + heights m (appended_actions l)
  /\ (_mouseSelection m = false -> _selected (append_all l m) = _selected m).
Proof.
  revert m. induction l as [|[[a i] io] l IH]; intros m.
  - simpl. rewrite app_nil_r. repeat split; try reflexivity; try lia; auto.
  - unfold append_all in *. cbn [fold_left fst snd appended_actions map].
    destruct (addAction_spec a i io m)
      as (Hst & Hact & _ & Hp & Hm & _ & Hh & Hs).
    destruct (IH (addAction a i io m)) as (I1 & I2 & I3 & I4 & I5 & I6).
    rewrite I1, I2, I3, I4, I5, Hst, Hact, Hp, Hm, Hh, <- app_assoc.
    rewrite (heights_same_st m (addAction a i io m)) by exact Hst.
    repeat split; try reflexivity.
    + unfold appended_actions, heights. simpl. lia.
    + intros Hmm. rewrite I6 by (rewrite Hm; exact Hmm). apply Hs, Hmm.
Qed.

(** C5 (as the code has it).  [clearActions] followed by any run of
    [addAction] calls leaves no item pressed and a height equal to the top
    and bottom padding plus the sum of the appended items' heights
    (separator height for a separator, item height otherwise); the
    actions are exactly the appended ones.  When the menu is not in
    mouse-selection mode nothing is selected either.  [clearActions] sets
    the selection and the press to -1 while the old actions are still in
    place, and only then discards them. *)
Theorem clearActions_then_append
    (l : list (QAction * option nat * option nat)) (m : Menu) :
  size_of (_actions m) <= int_max ->
  _pressed (append_all l (clearActions m)) = -1
  /\ height (append_all l (clearActions m))
     = skip (_st m) + heights m (appended_actions l) + skip (_st m)
  /\ _actions (append_all l (clearActions m)) = appended_actions l
  /\ (_mouseSelection m = false ->
      _selected (append_all l (clearActions m)) = -1)
  /\ (_selected (setPressed (-1) (setSelected (-1) m)) = -1
      /\ _pressed (setPressed (-1) (setSelected (-1) m)) = -1
      /\ _actions (setPressed (-1) (setSelected (-1) m)) = _actions m
      /\ clearActions m
         = notify_resized
             (resize (if negb (_forceWidth m =? 0) then _forceWidth m
                      else widthMin (_st m))
                     (skip (_st m) * 2)
                     (set_actions []
                        (set_actionsData []
                           (setPressed (-1) (setSelected (-1) m)))))).
Proof.
  intros Hn.
  destruct (clearActions_spec m Hn)
    as (Cs & Cp & Ca & _ & Ch & _ & Cst & Cm & _).
  destruct (append_all_spec l (clearActions m))
    as (A1 & A2 & A3 & A4 & A5 & A6).
  assert (Hl : same_layout m (setPressed (-1) (setSelected (-1) m)))
    by auto with frame.
  pose proof Hl as (Hst & Hact & _ & Hfw & _).
  split; [rewrite A3; exact Cp|].
  split; [rewrite A5, Ch, (heights_same_st m _ _ Cst); lia|].
  split; [rewrite A2, Ca; reflexivity|].
  split; [intros Hm; rewrite A6, Cs; [reflexivity | rewrite Cm; exact Hm]|].
  split.
  { rewrite setPressed_selected, setSelected_selected.
    now apply normalized_minus_one. }
  split.
  { rewrite setPressed_pressed, (normalized_same_actions _ m)
      by (apply (same_layout_setSelected (-1) m m (same_layout_refl m))).
    now apply normalized_minus_one. }
  split; [exact Hact|].
  unfold clearActions. cbv zeta. proj. rewrite Hst, Hfw. reflexivity.
Qed.

(** C5, refuted as stated.  The sample menu is in mouse-selection mode
    with the pointer resting 16 pixels below the top padding.  After
    [clearActions] and one [addAction] of an enabled item, that item lies
    under the pointer and is selected: the selection is 0, not -1. *)
Lemma append_after_clear_selects_hovered_item :
  _mouseSelection demo_menu_mouse = true
  /\ _selected
       (append_all [(plain_action "New", None, None)]
          (clearActions demo_menu_mouse)) = 0
  /\ _selected
       (append_all [(plain_action "New", None, None)]
          (clearActions demo_menu_mouse)) <> -1
  /\ _pressed
       (append_all [(plain_action "New", None, None)]
          (clearActions demo_menu_mouse)) = -1.
Proof. vm_compute. repeat split. discriminate. Qed.

Lemma clearActions_then_append_witness :
  _pressed (append_all [(plain_action "New", None, None); (separator, None, None)]
              (clearActions demo_menu_keyboard)) = -1
  /\ height (append_all [(plain_action "New", None, None); (separator, None, None)]
               (clearActions demo_menu_keyboard)) = 4 + (32 + (11 + 0)) + 4.
Proof.
  pose proof (clearActions_then_append
                [(plain_action "New", None, None); (separator, None, None)]
                demo_menu_keyboard ltac:(vm_compute; discriminate))
    as (H1 & H2 & _).
  split; [exact H1 | exact H2].
Defined.

(** ** The settings writer *)

(** C9 (as the code has it).  A write request that is not forced, made
    while the timer is not running, starts the single-shot timer with
    5000 ms and writes nothing yet; made while the timer is running, it
    changes nothing, so the timer is not started afresh.  A forced write
    made while the timer is running stops it and, the file being
    writable, writes the settings at once; made while no timer is running
    it does nothing.  On a manager as constructed, the write deferred by
    a request happens when 5000 ms have gone by and not before. *)
Theorem write_debounce (g : Manager) (opens : bool) (ms : Z) :
  (isActive (_jsonWriteTimer g) = false ->
   remaining (_jsonWriteTimer (write false opens g)) = Some kWriteJsonTimeout
   /\ kWriteJsonTimeout = 5000
   /\ singleShot (_jsonWriteTimer (write false opens g))
      = singleShot (_jsonWriteTimer g)
   /\ custom_writes (write false opens g) = custom_writes g)
  /\ (isActive (_jsonWriteTimer g) = true -> write false opens g = g)
  /\ (isActive (_jsonWriteTimer g) = true ->
      isActive (_jsonWriteTimer (write true true g)) = false
      /\ custom_writes (write true true g) = S (custom_writes g))
  /\ (isActive (_jsonWriteTimer g) = false -> write true opens g = g)
  /\ singleShot (_jsonWriteTimer Manager_new) = true
  /\ custom_writes (elapse ms true (write false opens Manager_new))
     = (if kWriteJsonTimeout <=? ms then 1%nat else 0%nat).
Proof.
  split; [| split; [| split; [| split; [| split]]]].
  - intros H. unfold write. rewrite H. repeat split.
  - intros H. unfold write. rewrite H. reflexivity.
  - intros H. unfold write. rewrite H. split; reflexivity.
  - intros H. unfold write. rewrite H. reflexivity.
  - reflexivity.
  - unfold write, elapse, Manager_new. simpl.
    destruct (kWriteJsonTimeout <=? ms); reflexivity.
Qed.

(** C9, refuted as stated.  On a manager as constructed no timer is
    running; a forced write then leaves the manager as it was and the
    settings file is not written. *)
Lemma forced_write_without_pending_timer :
  isActive (_jsonWriteTimer Manager_new) = false
  /\ write true true Manager_new = Manager_new
  /\ custom_writes (write true true Manager_new) = 0%nat
  /\ custom_writes (write true true Manager_new)
     <> S (custom_writes Manager_new).
Proof. repeat split. discriminate. Qed.

Lemma write_debounce_witness :
  isActive (_jsonWriteTimer (write true true (write false true Manager_new)))
  = false
  /\ custom_writes (write true true (write false true Manager_new)) = 1%nat.
Proof.
  exact (proj1 (proj2 (proj2 (write_debounce (write false true Manager_new)
                                true 0))) eq_refl).
Defined.

(** ** The invariant of the widget *)

Create HintDb menu_ok.

Lemma in_int_minus_one : in_int (-1).
Proof. unfold in_int, int_min, int_max. lia. Qed.

Lemma in_int_zero : in_int 0.
Proof. unfold in_int, int_min, int_max. lia. Qed.

Lemma valid_index_in_int (m : Menu) (i : Z) :
  size_of (_actions m) <= int_max -> valid_index m i -> in_int i.
Proof. unfold valid_index, in_int, int_min, int_max. lia. Qed.

Lemma menu_ok_in_int_selected (m : Menu) : menu_ok m -> in_int (_selected m).
Proof.
  intros ((_ & Hn) & (Hs & _)). exact (valid_index_in_int m _ Hn Hs).
Qed.

Lemma menu_ok_in_int_pressed (m : Menu) : menu_ok m -> in_int (_pressed m).
Proof.
  intros ((_ & Hn) & (_ & Hp)). exact (valid_index_in_int m _ Hn Hp).
Qed.

(** A state with the same layout and valid indices is a good state. *)
Lemma menu_ok_same_layout (m m' : Menu) :
  menu_ok m -> same_layout m m' ->
  valid_index m (_selected m') -> valid_index m (_pressed m') ->
  menu_ok m'.
Proof.
  intros ((Hlen & Hn) & _) (_ & Hact & Hlen' & _) Hs Hp.
  unfold menu_ok, vectors_ok, indices_ok, valid_index in *.
  rewrite Hact, Hlen'. tauto.
Qed.

Lemma menu_ok_setSelected (i : Z) (m : Menu) :
  in_int i -> menu_ok m -> menu_ok (setSelected i m).
Proof.
  intros Hi Hok. apply (menu_ok_same_layout m); auto with frame.
  - rewrite setSelected_selected. apply normalized_valid; [exact Hi | apply Hok].
  - rewrite setSelected_pressed. apply Hok.
Qed.

Lemma menu_ok_setPressed (i : Z) (m : Menu) :
  in_int i -> menu_ok m -> menu_ok (setPressed i m).
Proof.
  intros Hi Hok. apply (menu_ok_same_layout m); auto with frame.
  - rewrite setPressed_selected. apply Hok.
  - rewrite setPressed_pressed. apply normalized_valid; [exact Hi | apply Hok].
Qed.

Lemma menu_ok_alter_data f (i : Z) (m : Menu) :
  menu_ok m -> menu_ok (alter_data f i m).
Proof.
  intros Hok. apply (menu_ok_same_layout m); auto with frame;
    autorewrite with proj; apply Hok.
Qed.

Lemma menu_ok_emit (e : Event) (m : Menu) : menu_ok m -> menu_ok (emit e m).
Proof. intros H. exact H. Qed.

Lemma menu_ok_set_mouseSelection (v : bool) (m : Menu) :
  menu_ok m -> menu_ok (set_mouseSelection v m).
Proof. intros H. exact H. Qed.

Lemma menu_ok_set_childShown (v : bool) (m : Menu) :
  menu_ok m -> menu_ok (set_childShown v m).
Proof. intros H. exact H. Qed.

Lemma menu_ok_set_cursor_pos (p : QPoint) (m : Menu) :
  menu_ok m -> menu_ok (set_cursor_pos p m).
Proof. intros H. exact H. Qed.

Lemma menu_ok_resize (w h : Z) (m : Menu) : menu_ok m -> menu_ok (resize w h m).
Proof. intros H. exact H. Qed.

Lemma menu_ok_notify_resized (m : Menu) : menu_ok m -> menu_ok (notify_resized m).
Proof. intros H. unfold notify_resized. now destruct (_resizedCallback m). Qed.

#[global] Hint Resolve in_int_minus_one in_int_zero menu_ok_in_int_selected
  menu_ok_in_int_pressed menu_ok_setSelected menu_ok_setPressed
  menu_ok_alter_data menu_ok_emit menu_ok_set_mouseSelection
  menu_ok_set_childShown menu_ok_set_cursor_pos menu_ok_resize
  menu_ok_notify_resized : menu_ok.

Lemma menu_ok_updateSelected (p : QPoint) (m : Menu) :
  menu_ok m -> menu_ok (updateSelected p m).
Proof.
  intros Hok. unfold updateSelected.
  destruct (negb (_mouseSelection m)); [exact Hok|]. cbv zeta.
  apply menu_ok_setSelected; [|exact Hok].
  case_match; [|apply in_int_minus_one].
  match goal with
  | |- in_int (updateSelected_scan ?m ?l ?y ?s ?t) =>
      pose proof (updateSelected_scan_range m l y s t) as Hr
  end.
  destruct Hok as ((_ & Hn) & _).
  unfold in_int, int_min, int_max in *. lia.
Qed.

Lemma menu_ok_itemReleased (s : TriggeredSource) (m : Menu) :
  menu_ok m -> menu_ok (itemReleased s m).
Proof.
  intros Hok. unfold itemReleased. repeat case_match; auto 10 with menu_ok.
Qed.

#[global] Hint Resolve menu_ok_updateSelected menu_ok_itemReleased : menu_ok.

Lemma menu_ok_itemPressed (s : TriggeredSource) (m : Menu) :
  menu_ok m -> menu_ok (itemPressed s m).
Proof.
  intros Hok. unfold itemPressed. repeat case_match; auto 10 with menu_ok.
Qed.

Lemma menu_ok_clearSelection (m : Menu) : menu_ok m -> menu_ok (clearSelection m).
Proof. intros Hok. unfold clearSelection. auto with menu_ok. Qed.

#[global] Hint Resolve menu_ok_itemPressed menu_ok_clearSelection : menu_ok.

Lemma menu_ok_clearMouseSelection (m : Menu) :
  menu_ok m -> menu_ok (clearMouseSelection m).
Proof.
  intros Hok. unfold clearMouseSelection. case_match; auto with menu_ok.
Qed.

#[global] Hint Resolve menu_ok_clearMouseSelection : menu_ok.

Lemma menu_ok_handleKeyPress_navigate (k : Key) (m : Menu) :
  menu_ok m -> menu_ok (handleKeyPress_navigate k m).
Proof.
  intros Hok.
  assert (Hother : negb (Key_eqb k Key_Up) && negb (Key_eqb k Key_Down) = true
                   -> menu_ok (handleKeyPress_navigate k m)).
  { intros E. unfold handleKeyPress_navigate. now rewrite E. }
  assert (Hnav : k = Key_Up \/ k = Key_Down ->
                 menu_ok (handleKeyPress_navigate k m)).
  { intros Hk.
    destruct (Z.eq_dec (size_of (_actions m)) 0) as [Hz|Hnz].
    { unfold handleKeyPress_navigate. rewrite Hz. cbn [Z.eqb].
      now rewrite orb_true_r. }
    pose proof (size_of_nonneg (_actions m)) as Hn0.
    assert (Hn : 0 < size_of (_actions m) <= int_max)
      by (destruct Hok as ((_ & Hn) & _); lia).
    destruct (handleKeyPress_navigate_result k m Hk Hn
                (menu_ok_in_int_selected m Hok)) as (j0 & Hj & Hres & _).
    rewrite Hres. case_match; [|exact Hok].
    apply menu_ok_setSelected; [|exact Hok].
    pose proof (wrap_cases (size_of (_actions m)) (nav_start k m) j0
                  (nav_delta k) (nav_delta_cases k)
                  (nav_start_range k m ltac:(lia)) ltac:(lia)) as [Hr _].
    fold (wrap_pos (size_of (_actions m)) (nav_start k m) (nav_delta k) j0) in Hr.
    fold (nav_pos k m j0) in Hr.
    unfold in_int, int_min, int_max in *. lia. }
  destruct k; try (apply Hother; reflexivity); apply Hnav; auto.
Qed.

#[global] Hint Resolve menu_ok_handleKeyPress_navigate : menu_ok.

Lemma menu_ok_handleKeyPress (k : Key) (m : Menu) :
  menu_ok m -> menu_ok (handleKeyPress k m).
Proof.
  intros Hok. unfold handleKeyPress. repeat case_match; auto 10 with menu_ok.
Qed.

#[global] Hint Resolve menu_ok_handleKeyPress : menu_ok.

Lemma menu_ok_keyPressEvent (k : Key) (m : Menu) :
  menu_ok m -> menu_ok (keyPressEvent k m).
Proof.
  intros Hok. unfold keyPressEvent. repeat case_match; auto with menu_ok.
Qed.

Lemma menu_ok_handleMouseMove (p : QPoint) (m : Menu) :
  menu_ok m -> menu_ok (handleMouseMove p m).
Proof.
  intros Hok. unfold handleMouseMove. repeat case_match; auto 10 with menu_ok.
Qed.

#[global] Hint Resolve menu_ok_keyPressEvent menu_ok_handleMouseMove : menu_ok.

Lemma menu_ok_handleMousePress (p : QPoint) (m : Menu) :
  menu_ok m -> menu_ok (handleMousePress p m).
Proof.
  intros Hok. unfold handleMousePress. repeat case_match; auto 10 with menu_ok.
Qed.

Lemma menu_ok_handleMouseRelease (p : QPoint) (m : Menu) :
  menu_ok m -> menu_ok (handleMouseRelease p m).
Proof.
  intros Hok. unfold handleMouseRelease. repeat case_match; auto 10 with menu_ok.
Qed.

Lemma menu_ok_enterEventHook (m : Menu) : menu_ok m -> menu_ok (enterEventHook m).
Proof.
  intros Hok. unfold enterEventHook. case_match; auto with menu_ok.
Qed.

Lemma menu_ok_setShowSource (s : TriggeredSource) (m : Menu) :
  menu_ok m -> menu_ok (setShowSource s m).
Proof.
  intros Hok. unfold setShowSource. cbv zeta.
  apply menu_ok_setSelected; [case_match; auto with menu_ok | exact Hok].
Qed.

Lemma menu_ok_finishAnimating (m : Menu) :
  menu_ok m -> menu_ok (finishAnimating m).
Proof.
  intros ((Hlen & Hn) & Hi). unfold finishAnimating.
  unfold menu_ok, vectors_ok, indices_ok, valid_index in *. simpl.
  rewrite length_map. tauto.
Qed.

Lemma menu_ok_actionChanged_loop (acts : list QAction) (index w : Z) (m : Menu) :
  menu_ok m -> menu_ok (fst (actionChanged_loop acts index w m)).
Proof.
  revert index w m. induction acts as [|a acts IH]; intros index w m Hok.
  - exact Hok.
  - cbn [actionChanged_loop]. unfold processAction. apply IH.
    auto with menu_ok.
Qed.

Lemma menu_ok_actionChanged (m : Menu) : menu_ok m -> menu_ok (actionChanged m).
Proof.
  intros Hok. unfold actionChanged.
  pose proof (menu_ok_actionChanged_loop (_actions m) 0 (widthMin (_st m)) m Hok)
    as H.
  destruct (actionChanged_loop (_actions m) 0 (widthMin (_st m)) m) as [m1 w].
  simpl in H. case_match; auto with menu_ok.
Qed.

Lemma menu_ok_changeAction (i : nat) (a : QAction) (m : Menu) :
  menu_ok m -> menu_ok (set_actions (<[i := a]> (_actions m)) m).
Proof.
  intros ((Hlen & Hn) & Hi).
  unfold menu_ok, vectors_ok, indices_ok, valid_index, size_of in *. simpl.
  rewrite length_insert. tauto.
Qed.

Lemma menu_ok_push (a : QAction) (d : ActionData) (m : Menu) :
  size_of (_actions m) < int_max ->
  menu_ok m ->
  menu_ok (set_actionsData (_actionsData m ++ [d])
             (set_actions (_actions m ++ [a]) m)).
Proof.
  intros Hlt ((Hlen & Hn) & Hi).
  unfold menu_ok, vectors_ok, indices_ok, valid_index, size_of in *. simpl.
  rewrite !length_app. simpl. lia.
Qed.

Lemma menu_ok_addAction (a : QAction) (i io : option nat) (m : Menu) :
  size_of (_actions m) < int_max ->
  menu_ok m -> menu_ok (addAction a i io m).
Proof.
  intros Hlt Hok. unfold addAction, processAction. cbv zeta.
  apply menu_ok_updateSelected, menu_ok_notify_resized, menu_ok_resize,
    menu_ok_alter_data, menu_ok_push; assumption.
Qed.

Lemma menu_ok_clearActions (m : Menu) : menu_ok m -> menu_ok (clearActions m).
Proof.
  intros ((Hlen & Hn) & Hi).
  destruct (clearActions_spec m Hn) as (Cs & Cp & Ca & Cd & _).
  unfold menu_ok, vectors_ok, indices_ok, valid_index, size_of.
  rewrite Cs, Cp, Ca, Cd. simpl. unfold int_max. lia.
Qed.

Lemma menu_ok_run_op (o : Op) (m : Menu) :
  menu_ok m -> op_ok o m -> menu_ok (run_op o m).
Proof.
  intros Hok Ho. destruct o; simpl in *.
  - now apply menu_ok_addAction.
  - now apply menu_ok_addAction.
  - now apply menu_ok_clearActions.
  - now apply menu_ok_finishAnimating.
  - now apply menu_ok_setShowSource.
  - exact Hok.
  - now apply menu_ok_actionChanged, menu_ok_changeAction.
  - exact Hok.
  - now apply menu_ok_keyPressEvent.
  - now apply menu_ok_handleKeyPress.
  - now apply menu_ok_clearSelection.
  - now apply menu_ok_enterEventHook.
  - now apply menu_ok_clearMouseSelection.
  - now apply menu_ok_handleMouseMove.
  - now apply menu_ok_handleMousePress.
  - now apply menu_ok_handleMouseRelease.
  - now apply menu_ok_setSelected.
  - now apply menu_ok_setPressed.
  - now apply menu_ok_updateSelected.
  - now apply menu_ok_itemPressed.
  - now apply menu_ok_itemReleased.
  - exact Hok.
Qed.

Lemma menu_ok_run_ops (ops : list Op) (m : Menu) :
  menu_ok m -> ops_ok ops m -> menu_ok (run_ops ops m).
Proof.
  revert m. induction ops as [|o ops IH]; intros m Hok Hops; [exact Hok|].
  destruct Hops as (Ho & Hrest). unfold run_ops in *. cbn [fold_left].
  apply IH; [apply menu_ok_run_op; assumption | exact Hrest].
Qed.

(** C7.  In a new menu, and after every run of operations on a menu whose
    indices were valid, the selection and the press are each -1 or an
    index into the action list (and the two vectors still have one
    length).  [setSelected] and [setPressed] store -1 for an index that
    is out of range, negative or too large, and the index itself when it
    is in range; they are total functions and signal nothing. *)
Theorem indices_stay_valid (ops : list Op) (m : Menu) (i : Z)
    (st : Style) (callbacks : bool) :
  menu_ok m ->
  ops_ok ops m ->
  in_int i ->
  (valid_index (run_ops ops m) (_selected (run_ops ops m))
   /\ valid_index (run_ops ops m) (_pressed (run_ops ops m))
   /\ length (_actionsData (run_ops ops m)) = length (_actions (run_ops ops m)))
  /\ (i < 0 \/ size_of (_actions m) <= i ->
      _selected (setSelected i m) = -1 /\ _pressed (setPressed i m) = -1)
  /\ (0 <= i < size_of (_actions m) ->
      _selected (setSelected i m) = i /\ _pressed (setPressed i m) = i)
  /\ menu_ok (Menu_new st callbacks).
Proof.
  intros Hok Hops Hi.
  pose proof (menu_ok_run_ops ops m Hok Hops) as ((Hlen & _) & (Hs & Hp)).
  destruct Hok as ((_ & Hn) & _).
  split; [tauto|]. split; [| split].
  - intros Hout. rewrite setSelected_selected, setPressed_pressed.
    split; apply normalized_out_of_range; assumption.
  - intros Hin. rewrite setSelected_selected, setPressed_pressed.
    split; apply normalized_in_range; assumption.
  - unfold menu_ok, vectors_ok, indices_ok, valid_index, size_of, int_max.
    simpl. lia.
Qed.

Lemma demo_menu_mouse_ok : menu_ok demo_menu_mouse.
Proof.
  unfold menu_ok, vectors_ok, indices_ok, valid_index.
  split; [split; [vm_compute; reflexivity | vm_compute; discriminate]|].
  split; [right; vm_compute; split; [discriminate | reflexivity]|].
  left; vm_compute; reflexivity.
Qed.

Lemma indices_stay_valid_witness :
  _selected (setSelected 9 demo_menu_mouse) = -1
  /\ _pressed (setPressed (-7) demo_menu_mouse) = -1
  /\ valid_index
       (run_ops [Op_handleMousePress {| point_x := 10; point_y := 20 |};
                 Op_handleKeyPress Key_Up;
                 Op_clearActions;
                 Op_addSeparator]
                demo_menu_mouse)
       (_selected
          (run_ops [Op_handleMousePress {| point_x := 10; point_y := 20 |};
                    Op_handleKeyPress Key_Up;
                    Op_clearActions;
                    Op_addSeparator]
                   demo_menu_mouse)).
Proof.
  pose proof demo_menu_mouse_ok as Hok.
  assert (Hops : ops_ok [Op_handleMousePress {| point_x := 10; point_y := 20 |};
                         Op_handleKeyPress Key_Up;
                         Op_clearActions;
                         Op_addSeparator] demo_menu_mouse).
  { vm_compute. repeat split. }
  assert (H9 : in_int 9) by (unfold in_int, int_min, int_max; lia).
  assert (H7 : in_int (-7)) by (unfold in_int, int_min, int_max; lia).
  assert (H4 : size_of (_actions demo_menu_mouse) <= 9)
    by (vm_compute; discriminate).
  pose proof (indices_stay_valid [] demo_menu_mouse 9 demo_style true
                Hok I H9) as (_ & Hout9 & _).
  pose proof (indices_stay_valid [] demo_menu_mouse (-7) demo_style true
                Hok I H7) as (_ & Hout7 & _).
  pose proof (indices_stay_valid _ demo_menu_mouse 0 demo_style true
                Hok Hops in_int_zero) as ((Hv & _) & _).
  split; [exact (proj1 (Hout9 (or_intror H4)))|].
  split; [exact (proj2 (Hout7 (or_introl eq_refl))) | exact Hv].
Defined.

(** ** Layout *)

Lemma goodw_index (st : Style) (a : QAction) (i j : Z) (d : ActionData) :
  goodw st a i d = goodw st a j d.
Proof.
  unfold goodw, toggle_after.
  destruct (isCheckable a); [|reflexivity]. now destruct (toggle d).
Qed.

Lemma clamp_running_max (g w lo hi : Z) :
  lo <= w <= hi -> clamp g w hi = Z.max w (clamp g lo hi).
Proof.
  intros H. unfold clamp.
  destruct (Z.ltb_spec g w), (Z.ltb_spec g lo), (Z.ltb_spec hi g); lia.
Qed.

Lemma clamp_bounds (g lo hi : Z) : lo <= hi -> lo <= clamp g lo hi <= hi.
Proof.
  intros H. unfold clamp.
  destruct (Z.ltb_spec g lo), (Z.ltb_spec hi g); lia.
Qed.

Lemma processData_width (st : Style) (a : QAction) (i w : Z) (d : ActionData) :
  widthMin st <= w <= widthMax st ->
  snd (processData st a i w d)
  = if contributes a then Z.max w (accepted_width st a d) else w.
Proof.
  intros Hw. unfold processData, contributes, accepted_width.
  destruct (isSeparator a || isEmpty (action_text a)); simpl; [reflexivity|].
  rewrite (goodw_index st a i 0 d). now apply clamp_running_max.
Qed.

Lemma processData_bounds (st : Style) (a : QAction) (i w : Z) (d : ActionData) :
  widthMin st <= w <= widthMax st ->
  w <= snd (processData st a i w d) <= widthMax st.
Proof.
  intros Hw. rewrite processData_width by exact Hw.
  destruct (contributes a); [|lia].
  pose proof (clamp_bounds (goodw st a 0 d) (widthMin st) (widthMax st)
                ltac:(lia)).
  unfold accepted_width. lia.
Qed.

Lemma fold_right_max_base (l : list Z) (w x : Z) :
  fold_right Z.max (Z.max w x) l = Z.max x (fold_right Z.max w l).
Proof. induction l as [|y l IH]; simpl; [lia | rewrite IH; lia]. Qed.

Lemma fold_left_max (l : list Z) (w : Z) :
  fold_left Z.max l w = fold_right Z.max w l.
Proof.
  revert w; induction l as [|x l IH]; intros w; simpl; [reflexivity|].
  rewrite IH. apply fold_right_max_base.
Qed.

Lemma fold_right_max_bounds (l : list Z) (lo hi : Z) :
  lo <= hi -> Forall (fun x => lo <= x <= hi) l ->
  lo <= fold_right Z.max lo l <= hi.
Proof.
  intros H Hl. induction Hl as [|x l Hx Hl IH]; simpl; lia.
Qed.

Lemma overall_width_bounds (st : Style) (acts : list QAction)
    (datas : list ActionData) :
  widthMin st <= widthMax st ->
  widthMin st <= overall_width st acts datas <= widthMax st.
Proof.
  intros H. unfold overall_width. apply fold_right_max_bounds; [exact H|].
  unfold accepted_widths. apply Forall_map, Forall_forall. intros x _.
  unfold accepted_width. now apply clamp_bounds.
Qed.

Lemma accepted_widths_cons (st : Style) (a : QAction) (acts : list QAction)
    (d : ActionData) (ds : list ActionData) :
  accepted_widths st (a :: acts) (d :: ds)
  = if contributes a
    then accepted_width st a d :: accepted_widths st acts ds
    else accepted_widths st acts ds.
Proof.
  unfold accepted_widths. cbn [zip zip_with]. rewrite filter_cons. simpl.
  destruct (contributes a); case_decide; try reflexivity; congruence.
Qed.

Lemma data_at_lookup (m : Menu) (i : nat) (d : ActionData) :
  _actionsData m !! i = Some d -> data_at m (Z.of_nat i) = d.
Proof.
  intros H. unfold data_at, vec_get.
  destruct (Z.ltb_spec (Z.of_nat i) 0); [lia|].
  rewrite Nat2Z.id, H. reflexivity.
Qed.

Lemma alter_data_actionsData f (i : nat) (m : Menu) :
  _actionsData (alter_data f (Z.of_nat i) m) = alter f i (_actionsData m).
Proof.
  unfold alter_data. destruct (Z.ltb_spec (Z.of_nat i) 0); [lia|].
  simpl. now rewrite Nat2Z.id.
Qed.

(** What the loop of [actionChanged] leaves untouched, and the bounds of
    the width it returns. *)
Lemma actionChanged_loop_frame (acts : list QAction) (index w : Z) (m : Menu) :
  _st (fst (actionChanged_loop acts index w m)) = _st m
  /\ _actions (fst (actionChanged_loop acts index w m)) = _actions m
  /\ _forceWidth (fst (actionChanged_loop acts index w m)) = _forceWidth m
  /\ width (fst (actionChanged_loop acts index w m)) = width m
  /\ (widthMin (_st m) <= w <= widthMax (_st m) ->
      w <= snd (actionChanged_loop acts index w m) <= widthMax (_st m)).
Proof.
  revert index w m. induction acts as [|a acts IH]; intros index w m.
  - simpl. do 4 (split; [reflexivity|]). lia.
  - cbn [actionChanged_loop]. unfold processAction.
    destruct (IH (index + 1)
                (snd (processData (_st m) a index w (data_at m index)))
                (alter_data
                   (fun d => fst (processData (_st m) a index w d)) index m))
      as (I1 & I2 & I3 & I4 & I5).
    rewrite I1, I2, I3, I4. autorewrite with proj.
    do 4 (split; [reflexivity|]). intros Hw.
    pose proof (processData_bounds (_st m) a index w (data_at m index) Hw).
    autorewrite with proj in I5. lia.
Qed.

Lemma actionChanged_loop_width (acts : list QAction) (index : nat)
    (ds : list ActionData) (w : Z) (m : Menu) :
  drop index (_actionsData m) = ds ->
  length ds = length acts ->
  widthMin (_st m) <= w <= widthMax (_st m) ->
  snd (actionChanged_loop acts (Z.of_nat index) w m)
  = fold_left Z.max (accepted_widths (_st m) acts ds) w.
Proof.
  revert index ds w m.
  induction acts as [|a acts IH]; intros index ds w m Hd Hlen Hw.
  - destruct ds; [reflexivity | discriminate].
  - destruct ds as [|d ds]; [discriminate|].
    assert (Hl : _actionsData m !! index = Some d).
    { pose proof (lookup_drop (_actionsData m) index 0) as H.
      rewrite Hd, Nat.add_0_r in H. simpl in H. now symmetry. }
    cbn [actionChanged_loop]. unfold processAction.
    rewrite (data_at_lookup m index d Hl).
    replace (Z.of_nat index + 1) with (Z.of_nat (S index)) by lia.
    rewrite (IH (S index) ds).
    + autorewrite with proj. rewrite accepted_widths_cons.
      rewrite processData_width by exact Hw.
      destruct (contributes a); reflexivity.
    + rewrite alter_data_actionsData, drop_alter_lt by lia.
      rewrite (drop_S _ _ _ Hl) in Hd. now inversion Hd.
    + simpl in Hlen. lia.
    + autorewrite with proj.
      pose proof (processData_bounds (_st m) a (Z.of_nat index) w d Hw). lia.
Qed.

Lemma actionChanged_width (m : Menu) :
  length (_actionsData m) = length (_actions m) ->
  _forceWidth m = 0 ->
  widthMin (_st m) <= widthMax (_st m) ->
  width (actionChanged m)
  = overall_width (_st m) (_actions m) (_actionsData m)
  /\ _forceWidth (actionChanged m) = 0
  /\ _st (actionChanged m) = _st m.
Proof.
  intros Hlen Hfw Hmm. unfold actionChanged.
  pose proof (actionChanged_loop_frame (_actions m) 0 (widthMin (_st m)) m)
    as (F1 & F2 & F3 & F4 & _).
  pose proof (actionChanged_loop_width (_actions m) 0 (_actionsData m)
                (widthMin (_st m)) m eq_refl Hlen ltac:(lia)) as Hw.
  change (Z.of_nat 0) with 0 in Hw.
  destruct (actionChanged_loop (_actions m) 0 (widthMin (_st m)) m) as [m1 w].
  simpl in *. rewrite fold_left_max in Hw. fold (overall_width (_st m) (_actions m) (_actionsData m)) in Hw.
  rewrite F3, Hfw, F4. cbn [Z.eqb andb].
  rewrite andb_true_r.
  destruct (Z.eqb_spec w (width m)) as [E|E]; cbn [negb].
  - rewrite F4, F3, F1. repeat split; congruence.
  - unfold notify_resized. case_match; proj; rewrite ?F3, ?F1; auto.
Qed.

Lemma width_ok_actionChanged (m : Menu) :
  width_ok m -> width_ok (actionChanged m) /\ _st (actionChanged m) = _st m.
Proof.
  intros (Hfw & Hw). unfold actionChanged, width_ok.
  pose proof (actionChanged_loop_frame (_actions m) 0 (widthMin (_st m)) m)
    as (F1 & F2 & F3 & F4 & F5).
  specialize (F5 ltac:(lia)).
  destruct (actionChanged_loop (_actions m) 0 (widthMin (_st m)) m) as [m1 w].
  simpl in *.
  case_match; unfold notify_resized; try case_match; proj;
    rewrite ?F1, ?F3, ?F4; repeat split; auto; lia.
Qed.

Lemma notify_resized_width (m : Menu) : width (notify_resized m) = width m.
Proof. unfold notify_resized. now destruct (_resizedCallback m). Qed.

Lemma addAction_width_frame (a : QAction) (i io : option nat) (m : Menu) :
  _forceWidth m = 0 ->
  width (addAction a i io m)
  = snd (processData (_st m) a
           (to_int (as_size_t (size_of (_actions m ++ [a]) - 1)))
           (Z.max (width m) (widthMin (_st m)))
           (data_at
              (set_actionsData (_actionsData m ++ [addAction_data a i io])
                 (set_actions (_actions m ++ [a]) m))
              (to_int (as_size_t (size_of (_actions m ++ [a]) - 1))))).
Proof.
  intros Hfw. unfold addAction, processAction. cbv zeta.
  match goal with
  | |- width (updateSelected ?c ?x) = _ =>
      pose proof (same_layout_updateSelected c x x (same_layout_refl x))
        as (_ & _ & _ & _ & Hw & _);
      rewrite Hw
  end.
  rewrite notify_resized_width. cbn [width resize].
  rewrite alter_data_forceWidth.
  change (_forceWidth (set_actionsData ?x (set_actions ?y m)))
    with (_forceWidth m).
  rewrite Hfw. reflexivity.
Qed.

Lemma width_ok_addAction (a : QAction) (i io : option nat) (m : Menu) :
  width_ok m ->
  width_ok (addAction a i io m) /\ _st (addAction a i io m) = _st m.
Proof.
  intros (Hfw & Hw).
  destruct (addAction_spec a i io m) as (Hst & _ & _ & _ & _ & Hfw' & _).
  split; [|exact Hst]. unfold width_ok. rewrite Hst, Hfw'.
  split; [exact Hfw|]. rewrite (addAction_width_frame a i io m Hfw).
  match goal with
  | |- _ <= snd (processData ?st ?a ?i ?w ?d) <= _ =>
      pose proof (processData_bounds st a i w d ltac:(lia))
  end.
  lia.
Qed.

Lemma addAction_width (a : QAction) (i io : option nat) (m : Menu) :
  vectors_ok m -> size_of (_actions m) < int_max -> width_ok m ->
  width (addAction a i io m)
  = if contributes a
    then Z.max (width m) (accepted_width (_st m) a (addAction_data a i io))
    else width m.
Proof.
  intros (Hlen & Hn) Hlt (Hfw & Hw).
  rewrite (addAction_width_frame a i io m Hfw).
  pose proof (size_of_nonneg (_actions m)) as Hn0.
  assert (Hidx : to_int (as_size_t (size_of (_actions m ++ [a]) - 1))
                 = Z.of_nat (length (_actionsData m))).
  { rewrite size_of_app. unfold size_of in *. simpl length. rewrite Hlen.
    replace (Z.of_nat (length (_actions m)) + Z.of_nat 1 - 1)
      with (Z.of_nat (length (_actions m))) by lia.
    unfold int_max in *.
    rewrite as_size_t_small by lia.
    apply to_int_small. unfold in_int, int_min, int_max. lia. }
  rewrite Hidx.
  rewrite (data_at_lookup _ (length (_actionsData m)) (addAction_data a i io)).
  - rewrite processData_width by lia.
    replace (Z.max (width m) (widthMin (_st m))) with (width m) by lia.
    reflexivity.
  - simpl. apply list_lookup_middle. reflexivity.
Qed.

Lemma width_ok_run_ops (ops : list Op) (m : Menu) :
  forallb is_append_or_change ops = true ->
  width_ok m ->
  width_ok (run_ops ops m) /\ _st (run_ops ops m) = _st m.
Proof.
  revert m. induction ops as [|o ops IH]; intros m Hops Hok.
  - split; [exact Hok | reflexivity].
  - simpl in Hops. apply andb_true_iff in Hops as (Ho & Hops).
    unfold run_ops in *. cbn [fold_left].
    assert (H1 : width_ok (run_op o m) /\ _st (run_op o m) = _st m).
    { destruct o; try discriminate; simpl.
      - now apply width_ok_addAction.
      - now apply width_ok_addAction.
      - apply (width_ok_actionChanged
                 (set_actions (<[index := action]> (_actions m)) m)).
        exact Hok. }
    destruct H1 as (H1 & H2).
    destruct (IH (run_op o m) Hops H1) as (H3 & H4).
    split; [exact H3 | congruence].
Qed.

(** Processing an action leaves what it asks for as it was: the submenu
    flag is kept and a toggle keeps its style. *)
Lemma toggle_after_again (a : QAction) (i : Z) (d d' : ActionData) :
  toggle d' = toggle_after a i d ->
  toggle_after a i d' = toggle_after a i d.
Proof.
  unfold toggle_after. intros ->.
  destruct (isCheckable a); [|reflexivity].
  destruct (toggle d); reflexivity.
Qed.

Lemma goodw_again (st : Style) (a : QAction) (i : Z) (d d' : ActionData) :
  toggle d' = toggle_after a i d ->
  hasSubmenu d' = hasSubmenu d ->
  goodw st a i d' = goodw st a i d.
Proof.
  intros Ht Hs. unfold goodw.
  now rewrite (toggle_after_again a i d d' Ht), Hs.
Qed.

Lemma accepted_width_processData (st : Style) (a : QAction) (i w : Z)
    (d : ActionData) :
  accepted_width st a (fst (processData st a i w d)) = accepted_width st a d.
Proof.
  unfold accepted_width. f_equal.
  unfold processData.
  destruct (isSeparator a || isEmpty (action_text a)); cbn [fst].
  - reflexivity.
  - cbv zeta. rewrite !(goodw_index st a 0 i).
    apply goodw_again; reflexivity.
Qed.

Lemma accepted_widths_pointwise (st : Style) (acts : list QAction)
    (ds ds' : list ActionData) :
  length ds' = length ds ->
  (forall j a d d', acts !! j = Some a -> ds !! j = Some d ->
                    ds' !! j = Some d' ->
                    accepted_width st a d' = accepted_width st a d) ->
  accepted_widths st acts ds' = accepted_widths st acts ds.
Proof.
  revert ds ds'. induction acts as [|a acts IH]; intros ds ds' Hlen H;
    [reflexivity|].
  destruct ds as [|d ds], ds' as [|d' ds']; try discriminate; [reflexivity|].
  rewrite !accepted_widths_cons.
  rewrite (H 0%nat a d d' eq_refl eq_refl eq_refl).
  rewrite (IH ds ds').
  - reflexivity.
  - simpl in Hlen. lia.
  - intros j b e e' Hb He He'. exact (H (S j) b e e' Hb He He').
Qed.

Lemma actionChanged_loop_length (acts : list QAction) (index w : Z) (m : Menu) :
  length (_actionsData (fst (actionChanged_loop acts index w m)))
  = length (_actionsData m).
Proof.
  revert index w m. induction acts as [|a acts IH]; intros index w m;
    [reflexivity|].
  cbn [actionChanged_loop]. unfold processAction.
  rewrite IH. apply alter_data_length.
Qed.

(** Each entry the loop of [actionChanged] leaves is the entry it found,
    or that entry as [processAction] rewrites it for the action at the
    same place. *)
Lemma actionChanged_loop_lookup (acts : list QAction) (index : nat) (w : Z)
    (m : Menu) (j : nat) (d' : ActionData) :
  _actionsData (fst (actionChanged_loop acts (Z.of_nat index) w m)) !! j
  = Some d' ->
  exists d, _actionsData m !! j = Some d
    /\ (d' = d
        \/ exists a w', acts !! (j - index)%nat = Some a /\ (index <= j)%nat
             /\ d' = fst (processData (_st m) a (Z.of_nat j) w' d)).
Proof.
  revert index w m. induction acts as [|a acts IH]; intros index w m Hl.
  - exists d'. split; [exact Hl | now left].
  - cbn [actionChanged_loop] in Hl. unfold processAction in Hl.
    replace (Z.of_nat index + 1) with (Z.of_nat (S index)) in Hl by lia.
    apply IH in Hl. destruct Hl as (d1 & Hd1 & Hcase).
    rewrite alter_data_st in Hcase.
    rewrite alter_data_actionsData, list_lookup_alter in Hd1.
    destruct (decide (index = j)) as [->|Hne].
    + destruct (_actionsData m !! j) as [d|] eqn:Hd; [|discriminate Hd1].
      injection Hd1 as <-. exists d. split; [reflexivity|].
      destruct Hcase as [->|(b & w' & _ & Hle & _)]; [|lia].
      right. exists a, w. rewrite Nat.sub_diag.
      split; [reflexivity | split; [lia | reflexivity]].
    + exists d1. split; [exact Hd1|].
      destruct Hcase as [->|(b & w' & Hb & Hle & ->)]; [now left|].
      right. exists b, w'.
      replace (j - index)%nat with (S (j - S index)) by lia.
      split; [exact Hb | split; [lia | reflexivity]].
Qed.

Lemma actionChanged_actionsData (m : Menu) :
  _actionsData (actionChanged m)
  = _actionsData (fst (actionChanged_loop (_actions m) 0 (widthMin (_st m)) m)).
Proof.
  unfold actionChanged.
  destruct (actionChanged_loop (_actions m) 0 (widthMin (_st m)) m) as [m1 w].
  cbn [fst]. unfold notify_resized.
  repeat case_match; reflexivity.
Qed.

Lemma actionChanged_actions (m : Menu) :
  _actions (actionChanged m) = _actions m.
Proof.
  unfold actionChanged.
  pose proof (actionChanged_loop_frame (_actions m) 0 (widthMin (_st m)) m)
    as (_ & F2 & _).
  destruct (actionChanged_loop (_actions m) 0 (widthMin (_st m)) m) as [m1 w].
  cbn [fst] in F2. unfold notify_resized.
  repeat case_match; exact F2.
Qed.

Lemma actionChanged_mouseSelection (m : Menu) :
  _mouseSelection (actionChanged m) = _mouseSelection m.
Proof.
  unfold actionChanged.
  assert (H : forall acts index w m0,
             _mouseSelection (fst (actionChanged_loop acts index w m0))
             = _mouseSelection m0).
  { induction acts as [|a acts IH]; intros index w m0; [reflexivity|].
    cbn [actionChanged_loop]. unfold processAction.
    rewrite IH. apply alter_data_mouseSelection. }
  specialize (H (_actions m) 0 (widthMin (_st m)) m).
  destruct (actionChanged_loop (_actions m) 0 (widthMin (_st m)) m) as [m1 w].
  cbn [fst] in H. unfold notify_resized.
  repeat case_match; exact H.
Qed.

(** After [actionChanged] the width is the maximum over the actions as
    they are then. *)
Lemma actionChanged_settled (m : Menu) :
  length (_actionsData m) = length (_actions m) ->
  _forceWidth m = 0 ->
  widthMin (_st m) <= widthMax (_st m) ->
  width_settled (actionChanged m).
Proof.
  intros Hlen Hfw Hmm.
  destruct (actionChanged_width m Hlen Hfw Hmm) as (Hw & _ & Hst).
  unfold width_settled.
  rewrite Hw, Hst, actionChanged_actions, actionChanged_actionsData.
  unfold overall_width. f_equal. symmetry.
  apply accepted_widths_pointwise.
  - apply actionChanged_loop_length.
  - intros j a d d' Ha Hd Hd'.
    apply (actionChanged_loop_lookup (_actions m) 0) in Hd'.
    destruct Hd' as (d0 & Hd0 & Hcase).
    rewrite Hd in Hd0. injection Hd0 as <-.
    destruct Hcase as [->|(b & w' & Hb & _ & ->)]; [reflexivity|].
    rewrite Nat.sub_0_r, Ha in Hb. injection Hb as <-.
    apply accepted_width_processData.
Qed.

Lemma fold_right_max_snoc (l : list Z) (b x : Z) :
  fold_right Z.max b (l ++ [x]) = Z.max (fold_right Z.max b l) x.
Proof.
  induction l as [|y l IH]; simpl; [apply Z.max_comm|].
  rewrite IH. apply Z.max_assoc.
Qed.

Lemma accepted_widths_snoc (st : Style) (acts : list QAction) (a : QAction)
    (ds : list ActionData) (d : ActionData) :
  length ds = length acts ->
  accepted_widths st (acts ++ [a]) (ds ++ [d])
  = accepted_widths st acts ds
    ++ (if contributes a then [accepted_width st a d] else []).
Proof.
  intros Hlen. unfold accepted_widths.
  rewrite zip_with_app by (symmetry; exact Hlen).
  rewrite filter_app, map_app. f_equal.
  cbn [zip_with]. rewrite filter_cons. cbn [fst].
  destruct (decide (contributes a = true)) as [->|Hc]; [reflexivity|].
  apply not_true_is_false in Hc. rewrite Hc. reflexivity.
Qed.

(** What an append leaves in the two vectors while the menu is not in
    mouse-selection mode. *)
Lemma addAction_vectors (a : QAction) (i io : option nat) (m : Menu) :
  vectors_ok m -> size_of (_actions m) < int_max ->
  _mouseSelection m = false ->
  exists w,
    _actionsData (addAction a i io m)
    = _actionsData m
      ++ [fst (processData (_st m) a (Z.of_nat (length (_actionsData m))) w
                 (addAction_data a i io))].
Proof.
  intros (Hlen & Hn) Hlt Hmode.
  pose proof (size_of_nonneg (_actions m)) as Hn0.
  unfold addAction, processAction. cbv zeta.
  assert (Hidx : to_int (as_size_t (size_of (_actions m ++ [a]) - 1))
                 = Z.of_nat (length (_actionsData m))).
  { rewrite size_of_app. unfold size_of in *. simpl length. rewrite Hlen.
    replace (Z.of_nat (length (_actions m)) + Z.of_nat 1 - 1)
      with (Z.of_nat (length (_actions m))) by lia.
    unfold int_max in *.
    rewrite as_size_t_small by lia.
    apply to_int_small. unfold in_int, int_min, int_max. lia. }
  cbn [_actions set_actions set_actionsData _st width] in *.
  rewrite updateSelected_not_mouse.
  2:{ unfold notify_resized. case_match; proj; exact Hmode. }
  eexists.
  match goal with
  | |- _actionsData (notify_resized ?x) = _ =>
      transitivity (_actionsData x);
        [unfold notify_resized; case_match; reflexivity|]
  end.
  cbn [_actionsData resize].
  change (size_of (_actions (set_actionsData ?x (set_actions ?y m))))
    with (size_of y).
  rewrite Hidx, alter_data_actionsData.
  cbn [_actionsData set_actionsData].
  rewrite (alter_app_r_alt _ _ _ (length (_actionsData m))) by lia.
  rewrite Nat.sub_diag. cbn [alter list_alter].
  reflexivity.
Qed.

Lemma addAction_settled (a : QAction) (i io : option nat) (m : Menu) :
  size_of (_actions m) < int_max ->
  built_ok m -> built_ok (addAction a i io m).
Proof.
  intros Hlt (Hv & Hok & Hmode & Hset).
  pose proof Hv as (Hlen & Hn).
  destruct (addAction_spec a i io m)
    as (Hst & Hact & Hdl & _ & Hms & _).
  destruct (width_ok_addAction a i io m Hok) as (Hok' & _).
  split; [| split; [exact Hok' | split; [congruence|]]].
  - split.
    + rewrite Hdl, Hact, length_app. simpl. lia.
    + rewrite Hact, size_of_app. unfold size_of in *. simpl. lia.
  - unfold width_settled.
    destruct (addAction_vectors a i io m Hv Hlt Hmode) as (w & Hd).
    rewrite (addAction_width a i io m Hv Hlt Hok), Hst, Hact, Hd.
    unfold overall_width.
    rewrite accepted_widths_snoc by exact Hlen.
    rewrite accepted_width_processData.
    unfold width_settled, overall_width in Hset.
    destruct (contributes a).
    + rewrite fold_right_max_snoc, Hset. reflexivity.
    + rewrite app_nil_r. exact Hset.
Qed.

Lemma changeAction_settled (idx : nat) (a : QAction) (m : Menu) :
  built_ok m -> built_ok (run_op (Op_changeAction idx a) m).
Proof.
  intros (Hv & Hok & Hmode & Hset).
  pose proof Hv as (Hlen & Hn). pose proof Hok as (Hfw & Hw).
  cbn [run_op].
  set (m0 := set_actions (<[idx := a]> (_actions m)) m).
  assert (Hlen0 : length (_actionsData m0) = length (_actions m0)).
  { unfold m0. simpl. rewrite length_insert. exact Hlen. }
  assert (Hok0 : width_ok m0) by exact Hok.
  destruct (width_ok_actionChanged m0 Hok0) as (Hok' & _).
  split; [| split; [exact Hok' | split]].
  - split.
    + rewrite actionChanged_actions, actionChanged_actionsData,
        actionChanged_loop_length. exact Hlen0.
    + rewrite actionChanged_actions. unfold m0, size_of. simpl.
      rewrite length_insert. exact Hn.
  - rewrite actionChanged_mouseSelection. exact Hmode.
  - apply actionChanged_settled; [exact Hlen0 | exact Hfw |].
    change (_st m0) with (_st m). lia.
Qed.

Lemma built_ok_run_ops (ops : list Op) (m : Menu) :
  forallb is_append_or_change ops = true ->
  size_of (_actions m) + Z.of_nat (length ops) <= int_max ->
  built_ok m ->
  built_ok (run_ops ops m) /\ _st (run_ops ops m) = _st m
  /\ size_of (_actions (run_ops ops m))
     <= size_of (_actions m) + Z.of_nat (length ops).
Proof.
  revert m. induction ops as [|o ops IH]; intros m Hops Hn Hb;
    [split; [exact Hb | split; [reflexivity | simpl; lia]]|].
  simpl in Hops. apply andb_true_iff in Hops as (Ho & Hops).
  change (run_ops (o :: ops) m) with (run_ops ops (run_op o m)).
  assert (Hlen : Z.of_nat (length (o :: ops)) = 1 + Z.of_nat (length ops))
    by (simpl length; lia).
  rewrite Hlen in Hn.
  pose proof (size_of_nonneg (_actions m)) as Hn0.
  assert (Hstep : built_ok (run_op o m)
                  /\ _st (run_op o m) = _st m
                  /\ size_of (_actions (run_op o m))
                     <= size_of (_actions m) + 1).
  { destruct o; try discriminate Ho.
    - cbn [run_op].
      destruct (addAction_spec action icon_ iconOver_ m) as (Hst & Hact & _).
      split; [apply addAction_settled; [lia | exact Hb]|].
      split; [exact Hst|]. rewrite Hact, size_of_app. unfold size_of. simpl. lia.
    - cbn [run_op]. unfold addSeparator.
      destruct (addAction_spec separator None None m) as (Hst & Hact & _).
      split; [apply addAction_settled; [lia | exact Hb]|].
      split; [exact Hst|]. rewrite Hact, size_of_app. unfold size_of. simpl. lia.
    - split; [apply changeAction_settled; exact Hb|].
      cbn [run_op]. split.
      + destruct Hb as (_ & Hok & _).
        now destruct (width_ok_actionChanged
                        (set_actions (<[index := action]> (_actions m)) m) Hok).
      + rewrite actionChanged_actions. unfold size_of. simpl.
        rewrite length_insert. lia. }
  destruct Hstep as (Hb1 & Hst1 & Hsz).
  destruct (IH (run_op o m) Hops ltac:(lia) Hb1) as (R1 & R2 & R3).
  split; [exact R1 | split; [congruence | lia]].
Qed.

Lemma built_ok_Menu_new (st : Style) (callbacks : bool) :
  widthMin st <= widthMax st -> built_ok (Menu_new st callbacks).
Proof.
  intros Hmm.
  split; [split; [reflexivity | vm_compute; discriminate]|].
  split; [split; [reflexivity | simpl; lia]|].
  split; reflexivity.
Qed.




(** ** The theorems at work on the sample menus *)

Lemma setShowSource_initial_selection_witness :
  _selected (setShowSource Keyboard demo_menu) = 0
  /\ _selected (setShowSource Mouse demo_menu) = -1
  /\ _selected (setShowSource Keyboard (Menu_new demo_style true)) = -1.
Proof.
  assert (H1 : size_of (_actions demo_menu) <= int_max)
    by (vm_compute; discriminate).
  assert (H2 : size_of (_actions (Menu_new demo_style true)) <= int_max)
    by (vm_compute; discriminate).
  split; [| split].
  - exact (proj1 (setShowSource_initial_selection Keyboard demo_menu H1)).
  - exact (proj1 (setShowSource_initial_selection Mouse demo_menu H1)).
  - exact (proj1 (setShowSource_initial_selection Keyboard
                    (Menu_new demo_style true) H2)).
Defined.

Lemma updateSelected_hover_witness :
  _selected (updateSelected {| point_x := 10; point_y := 84 |} demo_menu_mouse)
  = 3
  /\ _selected (updateSelected {| point_x := 10; point_y := 40 |} demo_menu_mouse)
     = -1.
Proof.
  assert (Hn : size_of (_actions demo_menu_mouse) <= int_max)
    by (vm_compute; discriminate).
  assert (Hi : 0 <= _itemHeight demo_menu_mouse) by (vm_compute; discriminate).
  assert (Hs : 0 <= _separatorHeight demo_menu_mouse)
    by (vm_compute; discriminate).
  assert (Hm : _mouseSelection demo_menu_mouse = true)
    by (vm_compute; reflexivity).
  assert (H3 : _actions demo_menu_mouse !! 3%nat = Some (plain_action "E&xit"))
    by (vm_compute; reflexivity).
  assert (H1 : _actions demo_menu_mouse !! 1%nat = Some separator)
    by (vm_compute; reflexivity).
  split.
  - pose proof (updateSelected_hover {| point_x := 10; point_y := 84 |}
                  demo_menu_mouse Hn Hi Hs) as (_ & Hin).
    destruct (Hin Hm) as (Hitem & _).
    refine (proj2 (Hitem 3%nat (plain_action "E&xit") H3 _)).
    vm_compute. split; [discriminate | reflexivity].
  - pose proof (updateSelected_hover {| point_x := 10; point_y := 40 |}
                  demo_menu_mouse Hn Hi Hs) as (_ & Hin).
    destruct (Hin Hm) as (Hitem & _).
    refine (proj2 (Hitem 1%nat separator H1 _)).
    vm_compute. split; [discriminate | reflexivity].
Defined.

Lemma handleKeyPress_up_down_witness :
  _selected (handleKeyPress Key_Down demo_menu_keyboard) = 3
  /\ handleKeyPress Key_Up demo_menu_dead = demo_menu_dead.
Proof.
  split.
  - assert (Hn : size_of (_actions demo_menu_keyboard) <= int_max)
      by (vm_compute; discriminate).
    assert (Hs : in_int (_selected demo_menu_keyboard))
      by (vm_compute; split; discriminate).
    assert (H3 : selectable
                   (action_at demo_menu_keyboard
                      (nav_pos Key_Down demo_menu_keyboard 3)) = true)
      by (vm_compute; reflexivity).
    assert (Hp : nav_pos Key_Down demo_menu_keyboard 3 = 3)
      by (vm_compute; reflexivity).
    assert (Hk : 1 <= 3 <= size_of (_actions demo_menu_keyboard))
      by (vm_compute; split; discriminate).
    assert (Hskip : forall j, 1 <= j < 3 ->
              selectable (action_at demo_menu_keyboard
                            (nav_pos Key_Down demo_menu_keyboard j)) = false).
    { intros j Hj. assert (Hc : j = 1 \/ j = 2) by lia.
      destruct Hc as [-> | ->]; vm_compute; reflexivity. }
    pose proof (handleKeyPress_up_down Key_Down demo_menu_keyboard
                  (or_intror eq_refl) Hn Hs) as (_ & Hfirst & _).
    pose proof (proj2 (Hfirst 3 Hk H3 Hskip)) as H.
    rewrite Hp in H. exact H.
  - assert (Hn : size_of (_actions demo_menu_dead) <= int_max)
      by (vm_compute; discriminate).
    assert (Hs : in_int (_selected demo_menu_dead))
      by (vm_compute; split; discriminate).
    assert (Hdead : forall (i : nat) (a : QAction),
              _actions demo_menu_dead !! i = Some a -> selectable a = false).
    { clear Hn Hs. intros i a Hl. destruct i as [|[|[|i]]].
      - vm_compute in Hl. inversion Hl. reflexivity.
      - vm_compute in Hl. inversion Hl. reflexivity.
      - vm_compute in Hl. inversion Hl. reflexivity.
      - vm_compute in Hl. discriminate Hl. }
    pose proof (handleKeyPress_up_down Key_Up demo_menu_dead
                  (or_introl eq_refl) Hn Hs) as (_ & _ & _ & Hnone).
    exact (Hnone Hdead).
Defined.

(* ================================================================== *)
(** * The menu, continued *)

(** ** What each operation does to the style, the actions and the height *)

Lemma actionChanged_loop_untouched (acts : list QAction) (index w : Z) (m : Menu) :
  height (fst (actionChanged_loop acts index w m)) = height m
  /\ _selected (fst (actionChanged_loop acts index w m)) = _selected m
  /\ _pressed (fst (actionChanged_loop acts index w m)) = _pressed m
  /\ _mouseSelection (fst (actionChanged_loop acts index w m)) = _mouseSelection m
  /\ events (fst (actionChanged_loop acts index w m)) = events m
  /\ _resizedCallback (fst (actionChanged_loop acts index w m))
     = _resizedCallback m
  /\ length (_actionsData (fst (actionChanged_loop acts index w m)))
     = length (_actionsData m).
Proof.
  revert index w m. induction acts as [|a acts IH]; intros index w m.
  - simpl. tauto.
  - cbn [actionChanged_loop]. unfold processAction.
    destruct (IH (index + 1)
                (snd (processData (_st m) a index w (data_at m index)))
                (alter_data
                   (fun d => fst (processData (_st m) a index w d)) index m))
      as (I1 & I2 & I3 & I4 & I5 & I6 & I7).
    rewrite I1, I2, I3, I4, I5, I6, I7. autorewrite with proj. tauto.
Qed.

Lemma actionChanged_untouched (m : Menu) :
  _st (actionChanged m) = _st m
  /\ _actions (actionChanged m) = _actions m
  /\ height (actionChanged m) = height m
  /\ _selected (actionChanged m) = _selected m
  /\ _pressed (actionChanged m) = _pressed m
  /\ _mouseSelection (actionChanged m) = _mouseSelection m
  /\ _forceWidth (actionChanged m) = _forceWidth m
  /\ length (_actionsData (actionChanged m)) = length (_actionsData m)
  /\ (events (actionChanged m) = events m
      \/ (events (actionChanged m) = events m ++ [Resized]
          /\ _forceWidth m = 0
          /\ _resizedCallback m = true
          /\ width (actionChanged m) <> width m)).
Proof.
  unfold actionChanged.
  pose proof (actionChanged_loop_frame (_actions m) 0 (widthMin (_st m)) m)
    as (F1 & F2 & F3 & F4 & _).
  pose proof (actionChanged_loop_untouched (_actions m) 0 (widthMin (_st m)) m)
    as (U1 & U2 & U3 & U4 & U5 & U6 & U7).
  destruct (actionChanged_loop (_actions m) 0 (widthMin (_st m)) m) as [m1 w].
  simpl in *.
  destruct (Z.eqb_spec w (width m1)) as [E|E]; cbn [negb andb].
  { rewrite F1, F2, F3, U1, U2, U3, U4, U5, U7. tauto. }
  destruct (Z.eqb_spec (_forceWidth m1) 0) as [E0|E0].
  - unfold notify_resized. rewrite F3 in E0.
    destruct (_resizedCallback (resize w (height m1) m1)) eqn:Ec; proj;
      rewrite ?F1, ?F2, ?F3, ?U1, ?U2, ?U3, ?U4, ?U5, ?U7;
      repeat (split; [reflexivity|]).
    + right. split; [reflexivity|]. split; [exact E0|].
      split; [|congruence]. simpl in Ec. congruence.
    + left. reflexivity.
  - rewrite F1, F2, F3, U1, U2, U3, U4, U5, U7. tauto.
Qed.

Lemma clearActions_geometry (m : Menu) :
  _st (clearActions m) = _st m
  /\ _actions (clearActions m) = []
  /\ _actionsData (clearActions m) = []
  /\ height (clearActions m) = skip (_st m) * 2
  /\ _forceWidth (clearActions m) = _forceWidth m
  /\ width (clearActions m)
     = (if negb (_forceWidth m =? 0) then _forceWidth m else widthMin (_st m)).
Proof.
  unfold clearActions. cbv zeta.
  set (m2 := setPressed (-1) (setSelected (-1) m)).
  assert (Hl : same_layout m m2) by (unfold m2; auto with frame).
  destruct Hl as (Hst & _ & _ & Hfw & _).
  unfold notify_resized. case_match; proj; rewrite ?Hst, ?Hfw; tauto.
Qed.

Lemma same_layout_setShowSource (s : TriggeredSource) (m0 m : Menu) :
  same_layout m0 m -> same_layout m0 (setShowSource s m).
Proof. intros H. unfold setShowSource. auto with frame. Qed.

Lemma same_layout_keyPressEvent (k : Key) (m0 m : Menu) :
  same_layout m0 m -> same_layout m0 (keyPressEvent k m).
Proof. intros H. unfold keyPressEvent. repeat case_match; auto with frame. Qed.

Lemma same_layout_enterEventHook (m0 m : Menu) :
  same_layout m0 m -> same_layout m0 (enterEventHook m).
Proof. intros H. unfold enterEventHook. case_match; auto with frame. Qed.

#[global] Hint Resolve same_layout_setShowSource same_layout_keyPressEvent
  same_layout_enterEventHook : frame.

Lemma run_op_st (o : Op) (m : Menu) : _st (run_op o m) = _st m.
Proof.
  assert (Hsame : forall m', same_layout m m' -> _st m' = _st m).
  { intros m' (H & _). exact H. }
  destruct o; simpl; try reflexivity;
    try (apply Hsame; unfold leaveEventHook; solve [auto with frame]).
  - apply addAction_spec.
  - apply addAction_spec.
  - apply clearActions_geometry.
  - apply (actionChanged_untouched (set_actions _ m)).
Qed.

Lemma run_op_actions_height (o : Op) (m : Menu) :
  match o with
  | Op_addAction a _ _ =>
      _actions (run_op o m) = _actions m ++ [a]
      /\ height (run_op o m) = height m + actionHeight m a
  | Op_addSeparator =>
      _actions (run_op o m) = _actions m ++ [separator]
      /\ height (run_op o m) = height m + actionHeight m separator
  | Op_clearActions =>
      _actions (run_op o m) = [] /\ height (run_op o m) = skip (_st m) * 2
  | Op_changeAction index a =>
      _actions (run_op o m) = <[index := a]> (_actions m)
      /\ height (run_op o m) = height m
  | _ => _actions (run_op o m) = _actions m /\ height (run_op o m) = height m
  end.
Proof.
  assert (Hsame : forall m', same_layout m m' ->
                  _actions m' = _actions m /\ height m' = height m).
  { intros m' (_ & Ha & _ & _ & _ & Hh & _). split; assumption. }
  destruct o; simpl; try (split; reflexivity);
    try (apply Hsame; unfold leaveEventHook; solve [auto with frame]).
  - destruct (addAction_spec action icon_ iconOver_ m)
      as (_ & Ha & _ & _ & _ & _ & Hh & _).
    split; assumption.
  - destruct (addAction_spec separator None None m)
      as (_ & Ha & _ & _ & _ & _ & Hh & _).
    split; assumption.
  - destruct (clearActions_geometry m) as (_ & Ha & _ & Hh & _).
    split; assumption.
  - destruct (actionChanged_untouched
                (set_actions (<[index := action]> (_actions m)) m))
      as (_ & Ha & Hh & _).
    split; assumption.
Qed.

Lemma heights_insert_same (m : Menu) (acts : list QAction) (index : nat)
    (a : QAction) :
  (forall old, acts !! index = Some old -> isSeparator a = isSeparator old) ->
  heights m (<[index := a]> acts) = heights m acts.
Proof.
  revert index. induction acts as [|x acts IH]; intros index H; [reflexivity|].
  destruct index as [|index]; simpl.
  - unfold actionHeight. now rewrite (H x eq_refl).
  - rewrite IH; [reflexivity|]. intros old Ho. apply H. exact Ho.
Qed.

Lemma height_ok_run_op (o : Op) (m : Menu) :
  height_ok m -> op_keeps_separator o m -> height_ok (run_op o m).
Proof.
  unfold height_ok. intros Hh Hk.
  pose proof (run_op_st o m) as Hst.
  pose proof (run_op_actions_height o m) as Hah.
  rewrite Hst, (heights_same_st m (run_op o m) _ Hst).
  destruct o; destruct Hah as (Ha & He); rewrite Ha, He;
    rewrite ?heights_app; simpl heights; try lia.
  simpl in Hk. rewrite (heights_insert_same m _ _ _ Hk). exact Hh.
Qed.

Lemma height_ok_run_ops (ops : list Op) (m : Menu) :
  height_ok m -> ops_keep_separators ops m -> height_ok (run_ops ops m).
Proof.
  revert m. induction ops as [|o ops IH]; intros m Hh Hk; [exact Hh|].
  destruct Hk as (Ho & Hrest). unfold run_ops in *. cbn [fold_left].
  apply IH; [now apply height_ok_run_op | exact Hrest].
Qed.

(** X1.  [itemTop] gives the top padding for index 0, grows by the height
    of item [k] from index [k] to index [k + 1], and for an index that is
    out of range, -1 included, gives the offset of the bottom of the
    last item. *)
Theorem itemTop_offsets (m : Menu) (i : Z) (k : nat) (a : QAction) :
  size_of (_actions m) <= int_max ->
  in_int i ->
  itemTop 0 m = skip (_st m)
  /\ (_actions m !! k = Some a ->
      itemTop (Z.of_nat k + 1) m = itemTop (Z.of_nat k) m + actionHeight m a)
  /\ itemTop (size_of (_actions m)) m
     = skip (_st m) + heights m (_actions m)
  /\ (i < 0 \/ size_of (_actions m) < i ->
      itemTop i m = skip (_st m) + heights m (_actions m)).
Proof.
  intros Hn Hi. pose proof (size_of_nonneg (_actions m)) as Hn0.
  assert (Hall : itemTop (size_of (_actions m)) m
                 = skip (_st m) + heights m (_actions m)).
  { rewrite itemTop_valid by lia. unfold size_of.
    rewrite Nat2Z.id, firstn_all. reflexivity. }
  split; [rewrite itemTop_valid by lia; simpl; lia|].
  split.
  { intros Hl. pose proof (lookup_lt_Some _ _ _ Hl) as Hlt.
    unfold size_of in *.
    rewrite !itemTop_valid by (unfold size_of; lia).
    replace (Z.to_nat (Z.of_nat k + 1)) with (S k) by lia.
    rewrite Nat2Z.id, (take_S_r _ _ _ Hl), heights_app. simpl. lia. }
  split; [exact Hall|].
  intros Hout. rewrite <- Hall. unfold itemTop.
  assert (E1 : int_gt_size i (size_of (_actions m)) = true).
  { apply int_gt_size_spec; [exact Hi | lia | exact Hout]. }
  assert (E2 : int_gt_size (size_of (_actions m)) (size_of (_actions m)) = false).
  { unfold int_gt_size. rewrite as_size_t_small by (unfold int_max in Hn; lia).
    apply Z.ltb_irrefl. }
  rewrite E1, E2, to_int_small; [reflexivity|].
  unfold in_int, int_min, int_max in *. lia.
Qed.

(** X2.  The height of the widget follows its actions: a new menu and a
    cleared one have twice the padding as height, and from a menu whose
    height is the padding plus the heights of its actions, every run of
    operations that leaves the separator flags of the existing actions
    alone gives such a menu again.  (An action change that turns an item
    into a separator or back is the one thing that does not adjust the
    height.) *)
Theorem height_follows_actions (ops : list Op) (m : Menu)
    (st : Style) (callbacks : bool) :
  height_ok m ->
  ops_keep_separators ops m ->
  height_ok (run_ops ops m)
  /\ height_ok (Menu_new st callbacks)
  /\ height_ok (clearActions (run_ops ops m)).
Proof.
  intros Hh Hk. split; [now apply height_ok_run_ops|].
  split; [unfold height_ok; simpl; lia|].
  unfold height_ok.
  destruct (clearActions_geometry (run_ops ops m)) as (Hst & Ha & _ & He & _).
  rewrite Hst, Ha, He. simpl. lia.
Qed.

(** X3.  [actionChanged] touches the width and the per-action data and
    nothing else: the actions, the height (even when an action has become
    a separator), the selection, the press, the mouse-selection flag and
    the forced width stay as they were, and the owner hears at most one
    resize notification, and only when no width is forced and the width
    has changed. *)
Theorem actionChanged_changes_only_layout (m : Menu) (index : nat)
    (a : QAction) :
  (_actions (actionChanged m) = _actions m
   /\ height (actionChanged m) = height m
   /\ _selected (actionChanged m) = _selected m
   /\ _pressed (actionChanged m) = _pressed m
   /\ _mouseSelection (actionChanged m) = _mouseSelection m
   /\ _forceWidth (actionChanged m) = _forceWidth m
   /\ (events (actionChanged m) = events m
       \/ (events (actionChanged m) = events m ++ [Resized]
           /\ _forceWidth m = 0
           /\ width (actionChanged m) <> width m)))
  /\ height (run_op (Op_changeAction index a) m) = height m.
Proof.
  destruct (actionChanged_untouched m)
    as (_ & H1 & H2 & H3 & H4 & H5 & H6 & _ & H7).
  split.
  - repeat (split; [assumption|]).
    destruct H7 as [H7 | (H7 & H8 & _ & H9)]; [left | right]; tauto.
  - apply (run_op_actions_height (Op_changeAction index a) m).
Qed.

Lemma itemTop_offsets_witness :
  itemTop (-1) demo_menu = 4 + heights demo_menu (_actions demo_menu)
  /\ itemTop (1 + 1) demo_menu = itemTop 1 demo_menu + 11.
Proof.
  assert (Hn : size_of (_actions demo_menu) <= int_max)
    by (vm_compute; discriminate).
  assert (Hl : _actions demo_menu !! 1%nat = Some separator)
    by (vm_compute; reflexivity).
  pose proof (itemTop_offsets demo_menu (-1) 1 separator Hn in_int_minus_one)
    as (_ & Hstep & _ & Hout).
  split.
  - exact (Hout (or_introl eq_refl)).
  - exact (Hstep Hl).
Defined.

Lemma height_follows_actions_witness :
  height_ok
    (run_ops [ Op_addAction (plain_action open_label) None None;
               Op_addSeparator;
               Op_changeAction 0 (plain_action "Notes");
               Op_handleKeyPress Key_Down ]
             (Menu_new demo_style true)).
Proof.
  assert (Hh : height_ok (Menu_new demo_style true)) by reflexivity.
  assert (Hk : ops_keep_separators
                 [ Op_addAction (plain_action open_label) None None;
                   Op_addSeparator;
                   Op_changeAction 0 (plain_action "Notes");
                   Op_handleKeyPress Key_Down ]
                 (Menu_new demo_style true)).
  { split; [exact I|]. split; [exact I|]. split; [|split; exact I].
    intros old Hl. vm_compute in Hl. inversion Hl. reflexivity. }
  exact (proj1 (height_follows_actions _ _ demo_style true Hh Hk)).
Defined.

(** ** Selection changes and their notifications *)

Lemma setSelected_same (i : Z) (m : Menu) :
  normalized i m = _selected m -> setSelected i m = m.
Proof.
  intros H. unfold setSelected. fold (normalized i m).
  rewrite H, Z.eqb_refl. reflexivity.
Qed.

Lemma setSelected_events (i : Z) (m : Menu) :
  normalized i m <> _selected m ->
  events (setSelected i m)
  = if _activatedCallback m
    then events m ++ [activation (normalized i m) m]
    else events m.
Proof.
  intros H. unfold setSelected. fold (normalized i m).
  generalize dependent (normalized i m). intros n H.
  assert (E : (_selected m =? n) = false) by (apply Z.eqb_neq; congruence).
  rewrite E. cbn [negb]. cbv zeta.
  match goal with
  | |- events (if _activatedCallback ?m3 then _ else _) = _ =>
      assert (Hl : same_layout m m3) by (repeat case_match; auto 10 with frame);
      assert (Hs : _selected m3 = n)
        by (repeat case_match; proj; reflexivity);
      assert (Hm : _mouseSelection m3 = _mouseSelection m)
        by (repeat case_match; proj; reflexivity);
      assert (Hc : _activatedCallback m3 = _activatedCallback m)
        by (repeat case_match; proj; reflexivity);
      assert (He : events m3 = events m)
        by (repeat case_match; proj; reflexivity);
      set (m3' := m3) in *
  end.
  destruct Hl as (Hst & Hact & _).
  rewrite Hc. destruct (_activatedCallback m); [|exact He].
  proj. rewrite He, Hs, Hm. unfold activation.
  rewrite (action_at_same_actions m m3' _ Hact),
    (itemTop_same_layout m m3' _ Hst Hact).
  reflexivity.
Qed.

Lemma setSelected_idempotent (i : Z) (m : Menu) :
  setSelected i (setSelected i m) = setSelected i m.
Proof.
  apply setSelected_same. rewrite setSelected_selected.
  apply normalized_same_actions.
  apply (same_layout_setSelected i m m (same_layout_refl m)).
Qed.

(** X4.  [setSelected] tells the owner about a selection exactly when the
    selection changes.  Storing the index that is already selected leaves
    the menu as it is; storing another one calls the activated callback
    once, if one is registered, with the newly selected action (none for
    -1), its offset and the current input mode.  Doing it twice is the
    same as doing it once, and [setPressed] never calls anything. *)
Theorem setSelected_notifies_changes (i : Z) (m : Menu) :
  (normalized i m = _selected m -> setSelected i m = m)
  /\ (normalized i m <> _selected m ->
      _activatedCallback m = true ->
      events (setSelected i m) = events m ++ [activation (normalized i m) m])
  /\ (_activatedCallback m = false -> events (setSelected i m) = events m)
  /\ setSelected i (setSelected i m) = setSelected i m
  /\ events (setPressed i m) = events m.
Proof.
  split; [apply setSelected_same|].
  split; [intros H Hc; rewrite setSelected_events, Hc by exact H; reflexivity|].
  split.
  { intros Hc.
    destruct (Z.eq_dec (normalized i m) (_selected m)) as [E|E].
    - now rewrite setSelected_same.
    - now rewrite setSelected_events, Hc by exact E. }
  split; [apply setSelected_idempotent | apply setPressed_events].
Qed.

Lemma setSelected_notifies_changes_witness :
  events (setSelected 3 demo_menu_keyboard)
  = events demo_menu_keyboard
    ++ [Activated (Some (plain_action "E&xit")) 79 Keyboard]
  /\ setSelected 0 demo_menu_keyboard = demo_menu_keyboard.
Proof.
  pose proof (setSelected_notifies_changes 3 demo_menu_keyboard)
    as (_ & Hchange & _).
  pose proof (setSelected_notifies_changes 0 demo_menu_keyboard)
    as (Hsame & _).
  assert (H3 : normalized 3 demo_menu_keyboard <> _selected demo_menu_keyboard)
    by (vm_compute; discriminate).
  assert (Hc : _activatedCallback demo_menu_keyboard = true)
    by (vm_compute; reflexivity).
  assert (H0 : normalized 0 demo_menu_keyboard = _selected demo_menu_keyboard)
    by (vm_compute; reflexivity).
  assert (Ha : activation (normalized 3 demo_menu_keyboard) demo_menu_keyboard
               = Activated (Some (plain_action "E&xit")) 79 Keyboard)
    by (vm_compute; reflexivity).
  split.
  - rewrite <- Ha. exact (Hchange H3 Hc).
  - exact (Hsame H0).
Defined.

(** ** A pointer over an item *)

Lemma heights_take_item (m : Menu) (i : nat) (a : QAction) :
  _actions m !! i = Some a ->
  heights m (_actions m)
  = heights m (take i (_actions m)) + actionHeight m a
    + heights m (drop (S i) (_actions m)).
Proof.
  intros Hl. rewrite <- (take_drop_middle _ _ _ Hl) at 1.
  rewrite heights_app. simpl. lia.
Qed.

Lemma updateSelected_over_item (p : QPoint) (m : Menu) (i : nat) (a : QAction) :
  size_of (_actions m) <= int_max ->
  0 <= _itemHeight m -> 0 <= _separatorHeight m ->
  _mouseSelection m = true ->
  _actions m !! i = Some a ->
  heights m (take i (_actions m))
    <= point_y (mapFromGlobal m p) - skip (_st m)
    < heights m (take i (_actions m)) + actionHeight m a ->
  updateSelected p m
  = setSelected (if selectable a then Z.of_nat i else -1) m.
Proof.
  intros Hn Hi Hs Hm Hl Hspan.
  destruct (updateSelected_scan_spec m (_actions m)
              (point_y (mapFromGlobal m p) - skip (_st m)) (-1) 0 Hi Hs)
    as (_ & S2 & _).
  assert (Hlt : Z.of_nat i < size_of (_actions m)).
  { apply lookup_lt_Some in Hl. unfold size_of. lia. }
  unfold updateSelected. rewrite Hm. cbn [negb]. cbv zeta.
  change (point_y
            (QPoint_sub (mapFromGlobal m p)
               {| point_x := 0; point_y := skip (_st m) |}))
    with (point_y (mapFromGlobal m p) - skip (_st m)).
  rewrite (S2 i a Hl) by lia.
  replace (-1 + 1 + Z.of_nat i) with (Z.of_nat i) by lia.
  rewrite (action_at_lookup m i a Hl).
  assert (E1 : (0 <=? Z.of_nat i) = true) by (apply Z.leb_le; lia).
  assert (E2 : int_lt_size (Z.of_nat i) (size_of (_actions m)) = true).
  { apply int_lt_size_spec;
      [unfold in_int, int_min, int_max in *; lia | lia | lia]. }
  rewrite E1, E2. reflexivity.
Qed.

Lemma contains_spec (r : QRect) (p : QPoint) :
  x1 r - 1 <= x2 r -> y1 r - 1 <= y2 r ->
  contains r p = true
  <-> (x1 r <= point_x p <= x2 r /\ y1 r <= point_y p <= y2 r).
Proof.
  intros Hx Hy. unfold contains.
  destruct (Z.ltb_spec (x2 r) (x1 r - 1)); [lia|].
  destruct (Z.ltb_spec (y2 r) (y1 r - 1)); [lia|].
  destruct (Z.ltb_spec (point_x p) (x1 r)), (Z.ltb_spec (x2 r) (point_x p)),
    (Z.ltb_spec (point_y p) (y1 r)), (Z.ltb_spec (y2 r) (point_y p));
    simpl; split; intros; try discriminate; try lia; reflexivity.
Qed.

Lemma over_item_contains (p : QPoint) (m : Menu) (i : nat) (a : QAction) :
  style_ok m -> height_ok m -> over_item p m i a ->
  contains (inner_rect m) (mapFromGlobal m p) = true
  /\ contains (rect m) (mapFromGlobal m p) = true.
Proof.
  intros (Hk & Hi & Hs) Hh (Hl & Hx & Hy).
  pose proof (heights_take_item m i a Hl) as Hsum.
  pose proof (heights_nonneg m (take i (_actions m)) Hi Hs).
  pose proof (heights_nonneg m (drop (S i) (_actions m)) Hi Hs).
  unfold height_ok in Hh.
  set (q := mapFromGlobal m p) in *. clearbody q.
  split; apply contains_spec;
    unfold inner_rect, rect, marginsRemoved, QRect_make; simpl; lia.
Qed.

(** Geometry and pointer tests read only what [same_layout] keeps. *)
Lemma over_item_same_layout (p : QPoint) (m m' : Menu) (i : nat) (a : QAction) :
  same_layout m m' -> over_item p m i a -> over_item p m' i a.
Proof.
  intros (Hst & Hact & _ & _ & Hw & _ & Hpos & _) Ho.
  unfold over_item, mapFromGlobal in *.
  rewrite Hact, Hw, Hpos, Hst, (heights_same_st m m' _ Hst),
    (actionHeight_same_st m m' a Hst).
  exact Ho.
Qed.

Lemma style_ok_same_layout (m m' : Menu) :
  same_layout m m' -> style_ok m -> style_ok m'.
Proof.
  intros (Hst & _) H. unfold style_ok, _itemHeight, _separatorHeight in *.
  now rewrite Hst.
Qed.

Lemma height_ok_same_layout (m m' : Menu) :
  same_layout m m' -> height_ok m -> height_ok m'.
Proof.
  intros (Hst & Hact & _ & _ & _ & Hh & _) H. unfold height_ok in *.
  now rewrite Hst, Hact, Hh, (heights_same_st m m' _ Hst).
Qed.

(** Moving the pointer over an item: the menu enters mouse-selection mode
    and the hover is evaluated there. *)
Lemma handleMouseMove_over_item (p : QPoint) (m : Menu) (i : nat) (a : QAction) :
  size_of (_actions m) <= int_max ->
  style_ok m -> height_ok m -> over_item p m i a ->
  handleMouseMove p m
  = setSelected (if selectable a then Z.of_nat i else -1)
      (set_mouseSelection true m).
Proof.
  intros Hn Hst Hh Ho.
  destruct (over_item_contains p m i a Hst Hh Ho) as (Hin & _).
  unfold handleMouseMove. rewrite Hin.
  destruct Hst as (_ & Hi & Hs). destruct Ho as (Hl & _ & Hy).
  apply (updateSelected_over_item p (set_mouseSelection true m) i a);
    auto.
Qed.

Lemma selectable_enabled (a : QAction) :
  selectable a = true -> isEnabled a = true.
Proof. unfold selectable. now destruct (isEnabled a). Qed.

Lemma handleMouseMove_triggered_count (p : QPoint) (m : Menu) :
  triggered_count (events (handleMouseMove p m)) = triggered_count (events m).
Proof.
  unfold handleMouseMove, updateSelected, clearMouseSelection, clearSelection.
  repeat case_match; proj;
    rewrite ?triggered_count_snoc, ?setSelected_triggered_count; simpl; lia.
Qed.

(** Releasing the button over the item that was pressed there. *)
Lemma click_on_selectable (p : QPoint) (m : Menu) (i : nat) (a : QAction) :
  menu_ok m -> style_ok m -> height_ok m ->
  _triggeredCallback m = true ->
  over_item p m i a ->
  selectable a = true ->
  events (handleMouseRelease p (handleMousePress p m))
  = events (handleMouseMove p m) ++ [Triggered a (itemTop (Z.of_nat i) m) Mouse]
  /\ _selected (handleMouseRelease p (handleMousePress p m)) = Z.of_nat i
  /\ _pressed (handleMouseRelease p (handleMousePress p m)) = -1.
Proof.
  intros Hok Hst Hh Htc Ho Hsel.
  pose proof Hok as ((_ & Hn) & _).
  pose proof Ho as (Hl & _).
  assert (Hlt : 0 <= Z.of_nat i < size_of (_actions m)).
  { apply lookup_lt_Some in Hl. unfold size_of. lia. }
  (* the hover *)
  rewrite (handleMouseMove_over_item p m i a Hn Hst Hh Ho), Hsel.
  set (mA := setSelected (Z.of_nat i) (set_mouseSelection true m)).
  assert (HlA : same_layout m mA) by (unfold mA; auto with frame).
  pose proof HlA as (HstA & HactA & _).
  assert (HsA : _selected mA = Z.of_nat i).
  { unfold mA. rewrite setSelected_selected.
    rewrite (normalized_same_actions _ m) by reflexivity.
    now apply normalized_in_range. }
  assert (HmA : _mouseSelection mA = true)
    by (unfold mA; now rewrite setSelected_mouseSelection).
  (* the press *)
  assert (Hpress : handleMousePress p m = itemPressed Mouse mA).
  { unfold handleMousePress.
    rewrite (handleMouseMove_over_item p m i a Hn Hst Hh Ho), Hsel.
    fold mA. cbv zeta.
    destruct (over_item_contains p mA i a
                (style_ok_same_layout m mA HlA Hst)
                (height_ok_same_layout m mA HlA Hh)
                (over_item_same_layout p m mA i a HlA Ho)) as (_ & Hr).
    now rewrite Hr. }
  rewrite Hpress.
  destruct (itemPressed_mouse mA) as (HpB & HsB & HeB & HlAB).
  { now rewrite HactA. }
  { now rewrite HsA, HactA. }
  { rewrite HsA, (action_at_same_actions m mA _ HactA),
      (action_at_lookup m i a Hl).
    now apply selectable_enabled. }
  { exact HmA. }
  set (mB := itemPressed Mouse mA) in *.
  assert (HlB : same_layout m mB) by (eapply same_layout_trans; eassumption).
  pose proof HlB as (HstB & HactB & _).
  rewrite HsA in HpB, HsB.
  (* the release *)
  unfold handleMouseRelease.
  rewrite (handleMouseMove_over_item p mB i a);
    [ | now rewrite HactB
      | exact (style_ok_same_layout m mB HlB Hst)
      | exact (height_ok_same_layout m mB HlB Hh)
      | exact (over_item_same_layout p m mB i a HlB Ho) ].
  rewrite Hsel.
  rewrite setSelected_same.
  2:{ rewrite (normalized_same_actions _ m) by exact HactB.
      rewrite normalized_in_range by assumption. symmetry. exact HsB. }
  set (mC := set_mouseSelection true mB).
  assert (HlC : same_layout m mC) by (unfold mC; auto with frame).
  destruct (itemReleased_pressed_valid Mouse mC) as (R1 & R2 & R3 & R4).
  { change (_actions mC) with (_actions mB). now rewrite HactB. }
  { change (_pressed mC) with (_pressed mB).
    change (_actions mC) with (_actions mB). now rewrite HpB, HactB. }
  change (_pressed mC) with (_pressed mB) in R4.
  change (_selected mC) with (_selected mB) in R2, R4.
  change (_triggeredCallback mC) with (_triggeredCallback mB) in R4.
  change (events mC) with (events mB) in R4.
  assert (HtcB : _triggeredCallback mB = true).
  { destruct HlB as (_ & _ & _ & _ & _ & _ & _ & _ & _ & H). now rewrite H. }
  rewrite HpB, HsB, Z.eqb_refl, HtcB in R4. cbn [andb] in R4.
  rewrite (action_at_same_actions m mC _ (proj1 (proj2 HlC))),
    (itemTop_same_layout m mC _ (proj1 HlC) (proj1 (proj2 HlC))),
    (action_at_lookup m i a Hl), HeB in R4.
  set (mD := itemReleased Mouse mC) in *.
  assert (HlD : same_layout m mD) by (eapply same_layout_trans; eassumption).
  destruct (over_item_contains p mD i a
              (style_ok_same_layout m mD HlD Hst)
              (height_ok_same_layout m mD HlD Hh)
              (over_item_same_layout p m mD i a HlD Ho)) as (_ & Hr).
  cbv zeta. rewrite Hr. cbn [negb andb].
  split; [exact R4|]. split; [rewrite R2; exact HsB | exact R1].
Qed.

Lemma itemReleased_no_trigger (source : TriggeredSource) (m : Menu) :
  size_of (_actions m) <= int_max ->
  valid_index m (_pressed m) ->
  _selected m = -1 ->
  events (itemReleased source m) = events m
  /\ _pressed (itemReleased source m) = -1
  /\ _selected (itemReleased source m) = -1.
Proof.
  intros Hn [Hp | Hp] Hs.
  - rewrite (itemReleased_idle source m) by exact Hp.
    split; [reflexivity|]. split; assumption.
  - destruct (itemReleased_pressed_valid source m Hn Hp) as (R1 & R2 & _ & R4).
    rewrite Hs in R4.
    replace (_pressed m =? -1) with false in R4 by (symmetry; apply Z.eqb_neq; lia).
    cbn [andb] in R4. rewrite R2.
    split; [exact R4|]. split; assumption.
Qed.

Lemma click_on_dead_item (p : QPoint) (m : Menu) (i : nat) (a : QAction) :
  menu_ok m -> style_ok m -> height_ok m ->
  over_item p m i a ->
  selectable a = false ->
  events (handleMouseRelease p (handleMousePress p m))
  = events (handleMouseMove p m)
  /\ _selected (handleMouseRelease p (handleMousePress p m)) = -1
  /\ _pressed (handleMouseRelease p (handleMousePress p m)) = -1.
Proof.
  intros Hok Hst Hh Ho Hsel.
  pose proof Hok as ((_ & Hn) & (_ & Hpv)).
  rewrite (handleMouseMove_over_item p m i a Hn Hst Hh Ho), Hsel.
  set (mA := setSelected (-1) (set_mouseSelection true m)).
  assert (HlA : same_layout m mA) by (unfold mA; auto with frame).
  pose proof HlA as (HstA & HactA & _).
  assert (HsA : _selected mA = -1).
  { unfold mA. rewrite setSelected_selected. now apply normalized_minus_one. }
  assert (HmA : _mouseSelection mA = true)
    by (unfold mA; now rewrite setSelected_mouseSelection).
  assert (HpA : _pressed mA = _pressed m)
    by (unfold mA; now rewrite setSelected_pressed).
  assert (Hpress : handleMousePress p m = mA).
  { unfold handleMousePress.
    rewrite (handleMouseMove_over_item p m i a Hn Hst Hh Ho), Hsel.
    fold mA. cbv zeta.
    destruct (over_item_contains p mA i a
                (style_ok_same_layout m mA HlA Hst)
                (height_ok_same_layout m mA HlA Hh)
                (over_item_same_layout p m mA i a HlA Ho)) as (_ & Hr).
    rewrite Hr. unfold itemPressed. rewrite HmA, HsA. reflexivity. }
  rewrite Hpress.
  unfold handleMouseRelease.
  rewrite (handleMouseMove_over_item p mA i a);
    [ | now rewrite HactA
      | exact (style_ok_same_layout m mA HlA Hst)
      | exact (height_ok_same_layout m mA HlA Hh)
      | exact (over_item_same_layout p m mA i a HlA Ho) ].
  rewrite Hsel.
  rewrite setSelected_same.
  2:{ rewrite normalized_minus_one; [symmetry; exact HsA|].
      change (_actions (set_mouseSelection true mA)) with (_actions mA).
      now rewrite HactA. }
  set (mC := set_mouseSelection true mA).
  assert (HlC : same_layout m mC) by (unfold mC; auto with frame).
  destruct (itemReleased_no_trigger Mouse mC) as (R1 & R2 & R3).
  { change (_actions mC) with (_actions mA). now rewrite HactA. }
  { unfold valid_index. change (_pressed mC) with (_pressed mA).
    change (_actions mC) with (_actions mA). rewrite HpA, HactA. exact Hpv. }
  { exact HsA. }
  set (mD := itemReleased Mouse mC) in *.
  assert (HlD : same_layout m mD).
  { eapply same_layout_trans; [exact HlC|]. unfold mD. auto with frame. }
  destruct (over_item_contains p mD i a
              (style_ok_same_layout m mD HlD Hst)
              (height_ok_same_layout m mD HlD Hh)
              (over_item_same_layout p m mD i a HlD Ho)) as (_ & Hr).
  cbv zeta. rewrite Hr. cbn [negb andb].
  split; [exact R1|]. split; assumption.
Qed.

(** X5. A click (press and release at the same point [p], [handleMousePress]
    then [handleMouseRelease]) over the span of item [i] of a
    well-formed menu: the press is never left pending; over an enabled
    item that is no separator the click selects it and tells the
    triggered callback exactly once, with that action, its offset and the
    mouse as the source, after whatever the hover itself reported; over a
    disabled item or a separator it reports nothing beyond the hover and
    leaves nothing selected. *)
Theorem click_triggers_item_once (p : QPoint) (m : Menu) (i : nat) (a : QAction) :
  menu_ok m -> style_ok m -> height_ok m ->
  _triggeredCallback m = true ->
  over_item p m i a ->
  let m' := handleMouseRelease p (handleMousePress p m) in
  _pressed m' = -1
  /\ _selected m' = (if selectable a then Z.of_nat i else -1)
  /\ events m'
     = events (handleMouseMove p m)
       ++ (if selectable a
           then [Triggered a (itemTop (Z.of_nat i) m) Mouse] else [])
  /\ triggered_count (events m')
     = (triggered_count (events m) + if selectable a then 1 else 0)%nat.
Proof.
  intros Hok Hst Hh Htc Ho m'. subst m'.
  destruct (selectable a) eqn:Hsel.
  - destruct (click_on_selectable p m i a Hok Hst Hh Htc Ho Hsel)
      as (He & Hs & Hp).
    split; [exact Hp|]. split; [exact Hs|]. split; [exact He|].
    rewrite He, triggered_count_snoc, handleMouseMove_triggered_count.
    reflexivity.
  - destruct (click_on_dead_item p m i a Hok Hst Hh Ho Hsel)
      as (He & Hs & Hp).
    split; [exact Hp|]. split; [exact Hs|].
    split; [rewrite He; symmetry; apply app_nil_r|].
    rewrite He, handleMouseMove_triggered_count. lia.
Qed.

Lemma click_triggers_item_once_witness :
  let p := {| point_x := 10; point_y := 90 |} in
  let m' := handleMouseRelease p (handleMousePress p demo_menu) in
  _pressed m' = -1
  /\ _selected m' = 3
  /\ events m'
     = events (handleMouseMove p demo_menu)
       ++ [Triggered (plain_action "E&xit") 79 Mouse]
  /\ triggered_count (events m') = 1%nat.
Proof.
  assert (Hok : menu_ok demo_menu).
  { vm_compute. split; [split; [reflexivity | discriminate] | split; left; reflexivity]. }
  assert (Hst : style_ok demo_menu) by (vm_compute; intuition discriminate).
  assert (Hh : height_ok demo_menu) by reflexivity.
  assert (Ho : over_item {| point_x := 10; point_y := 90 |} demo_menu 3
                 (plain_action "E&xit")).
  { vm_compute. split; [reflexivity|]. split; split; congruence. }
  exact (click_triggers_item_once {| point_x := 10; point_y := 90 |}
           demo_menu 3 (plain_action "E&xit") Hok Hst Hh eq_refl Ho).
Defined.

(** ** The pointer outside the items *)

Lemma normalized_none (m : Menu) : normalized (-1) m = -1.
Proof. unfold normalized. now destruct (int_ge_size _ _). Qed.

Lemma clearSelection_spec (m : Menu) :
  _selected (clearSelection m) = -1
  /\ _mouseSelection (clearSelection m) = false
  /\ _pressed (clearSelection m) = _pressed m.
Proof.
  unfold clearSelection.
  rewrite setSelected_selected, setSelected_mouseSelection, setSelected_pressed,
    normalized_none.
  repeat split.
Qed.

Lemma alter_data_mouseMoveDelegate f (i : Z) (m : Menu) :
  _mouseMoveDelegate (alter_data f i m) = _mouseMoveDelegate m.
Proof. unfold alter_data. now destruct (i <? 0). Qed.

Lemma setSelected_mouseMoveDelegate (i : Z) (m : Menu) :
  _mouseMoveDelegate (setSelected i m) = _mouseMoveDelegate m.
Proof.
  unfold setSelected.
  repeat case_match; proj; rewrite ?alter_data_mouseMoveDelegate; proj;
    rewrite ?alter_data_mouseMoveDelegate; reflexivity.
Qed.

(** X6. When the pointer moves to a point outside the inner rectangle
    (the widget without its top and bottom padding strips), and likewise
    when it leaves the widget: a selection made with the pointer is
    dropped and the menu leaves mouse-selection mode, unless a submenu is
    shown as a child; a selection made from the keyboard, and the
    selection of a menu whose submenu is shown, stay as they are, with
    all per-action data.  The press index is never touched, and a
    registered move delegate is told the position last. *)
Theorem pointer_outside_clears_hover (p : QPoint) (m : Menu) :
  contains (inner_rect m) (mapFromGlobal m p) = false ->
  (_mouseSelection m = true -> _childShown m = false ->
   _selected (handleMouseMove p m) = -1
   /\ _mouseSelection (handleMouseMove p m) = false
   /\ _selected (leaveEventHook m) = -1
   /\ _mouseSelection (leaveEventHook m) = false)
  /\ (_mouseSelection m = false \/ _childShown m = true ->
      _selected (handleMouseMove p m) = _selected m
      /\ _mouseSelection (handleMouseMove p m) = _mouseSelection m
      /\ _actionsData (handleMouseMove p m) = _actionsData m
      /\ leaveEventHook m = m)
  /\ _pressed (handleMouseMove p m) = _pressed m
  /\ _pressed (leaveEventHook m) = _pressed m
  /\ (_mouseMoveDelegate m = true ->
      events (handleMouseMove p m)
      = events (leaveEventHook m) ++ [MouseMoveDelegate p]).
Proof.
  intros Hout.
  destruct (clearSelection_spec m) as (Cs & Cm & Cp).
  assert (Hd : _mouseMoveDelegate (clearMouseSelection m) = _mouseMoveDelegate m).
  { unfold clearMouseSelection, clearSelection.
    destruct (_mouseSelection m && negb (_childShown m)); [|reflexivity].
    now rewrite setSelected_mouseMoveDelegate. }
  unfold handleMouseMove, leaveEventHook. rewrite Hout. cbv zeta. rewrite Hd.
  split; [| split; [| split; [| split]]].
  - intros Hm Hc. unfold clearMouseSelection. rewrite Hm, Hc. cbn [negb andb].
    destruct (_mouseMoveDelegate m); proj; auto.
  - intros Hk. unfold clearMouseSelection.
    assert (E : _mouseSelection m && negb (_childShown m) = false).
    { destruct Hk as [-> | ->]; [reflexivity | apply andb_false_r]. }
    rewrite E. destruct (_mouseMoveDelegate m); proj; auto.
  - unfold clearMouseSelection.
    destruct (_mouseSelection m && negb (_childShown m));
      destruct (_mouseMoveDelegate m); proj; auto.
  - unfold clearMouseSelection.
    destruct (_mouseSelection m && negb (_childShown m)); auto.
  - intros ->. reflexivity.
Qed.

Lemma pointer_outside_clears_hover_witness :
  let p := {| point_x := 10; point_y := 2 |} in
  _selected demo_menu_mouse = 0
  /\ _selected (handleMouseMove p demo_menu_mouse) = -1
  /\ _mouseSelection (handleMouseMove p demo_menu_mouse) = false
  /\ _selected (handleMouseMove p demo_menu_keyboard) = 0.
Proof.
  pose proof (pointer_outside_clears_hover
                {| point_x := 10; point_y := 2 |} demo_menu_mouse eq_refl)
    as (H1 & _).
  pose proof (pointer_outside_clears_hover
                {| point_x := 10; point_y := 2 |} demo_menu_keyboard eq_refl)
    as (_ & H2 & _).
  destruct (H1 eq_refl eq_refl) as (A & B & _).
  destruct (H2 (or_introl eq_refl)) as (C & _).
  split; [reflexivity|]. split; [exact A|]. split; [exact B | exact C].
Defined.

(** ** Keys other than Up and Down *)

Lemma itemPressed_keyboard_result (m : Menu) :
  size_of (_actions m) <= int_max ->
  0 <= _selected m < size_of (_actions m) ->
  isEnabled (action_at m (_selected m)) = true ->
  events (itemPressed Keyboard m)
  = events m ++ (if _triggeredCallback m
                 then [Triggered (action_at m (_selected m))
                                 (itemTop (_selected m) m) Keyboard]
                 else [])
  /\ _pressed (itemPressed Keyboard m) = -1
  /\ _selected (itemPressed Keyboard m) = _selected m
  /\ _mouseSelection (itemPressed Keyboard m) = _mouseSelection m.
Proof.
  intros Hn Hs He.
  rewrite (itemPressed_keyboard m Hn Hs He).
  set (m1 := setPressed (_selected m) m).
  assert (Hl : same_layout m m1) by (unfold m1; auto with frame).
  assert (Hp1 : _pressed m1 = _selected m).
  { unfold m1. rewrite setPressed_pressed. now apply normalized_in_range. }
  assert (Hs1 : _selected m1 = _selected m)
    by (unfold m1; apply setPressed_selected).
  destruct (itemReleased_after_press Keyboard m m1 Hn Hl) as (R1 & R2).
  { now rewrite Hp1. }
  rewrite Hp1, Hs1, Z.eqb_refl in R2. cbn [andb] in R2.
  split; [| split; [exact R1 | split]].
  - rewrite R2. unfold m1. rewrite setPressed_events.
    destruct (_triggeredCallback m); [reflexivity | symmetry; apply app_nil_r].
  - destruct (itemReleased_pressed_valid Keyboard m1) as (_ & S2 & _).
    + destruct Hl as (_ & -> & _). exact Hn.
    + destruct Hl as (_ & -> & _). now rewrite Hp1.
    + now rewrite S2.
  - unfold itemReleased. fold m1.
    repeat case_match; proj;
      rewrite ?alter_data_mouseSelection, ?setPressed_mouseSelection;
      unfold m1; rewrite ?setPressed_mouseSelection; reflexivity.
Qed.

Lemma itemPressed_keyboard_idle (m : Menu) :
  _selected m = -1 \/ isEnabled (action_at m (_selected m)) = false ->
  itemPressed Keyboard m = m.
Proof.
  intros H. unfold itemPressed. cbn [is_Mouse andb].
  destruct H as [-> | ->]; [reflexivity | now rewrite andb_false_r].
Qed.

(** X7. Enter and Return act alike and act on the selection only.  With
    an enabled item selected (be it a separator, and whatever was pressed
    before), the key press tells the triggered callback once, with that
    action, its offset and the keyboard as the source, when such a
    callback is registered; it leaves no item pressed and the selection
    and the selection mode as they were.  With nothing selected, or a
    disabled item selected, the key press changes nothing at all. *)
Theorem enter_key_triggers_selection (key : Key) (m : Menu) :
  key = Key_Enter \/ key = Key_Return ->
  menu_ok m ->
  (0 <= _selected m -> isEnabled (action_at m (_selected m)) = true ->
   events (handleKeyPress key m)
   = events m ++ (if _triggeredCallback m
                  then [Triggered (action_at m (_selected m))
                                  (itemTop (_selected m) m) Keyboard]
                  else [])
   /\ _pressed (handleKeyPress key m) = -1
   /\ _selected (handleKeyPress key m) = _selected m
   /\ _mouseSelection (handleKeyPress key m) = _mouseSelection m)
  /\ (_selected m = -1 \/ isEnabled (action_at m (_selected m)) = false ->
      handleKeyPress key m = m).
Proof.
  intros Hk ((_ & Hn) & (Hs & _)).
  assert (E : handleKeyPress key m = itemPressed Keyboard m)
    by (destruct Hk as [-> | ->]; reflexivity).
  rewrite E. split.
  - intros H0 He. apply itemPressed_keyboard_result; [exact Hn | | exact He].
    destruct Hs as [Hs | Hs]; lia.
  - apply itemPressed_keyboard_idle.
Qed.

Lemma enter_key_triggers_selection_witness :
  events (handleKeyPress Key_Return demo_menu_keyboard)
  = events demo_menu_keyboard
    ++ [Triggered (plain_action open_label) 4 Keyboard]
  /\ _pressed (handleKeyPress Key_Return demo_menu_keyboard) = -1
  /\ handleKeyPress Key_Enter demo_menu = demo_menu.
Proof.
  assert (Hok : menu_ok demo_menu_keyboard).
  { vm_compute. split; [split; [reflexivity | discriminate] |].
    split; [right; split; [discriminate | reflexivity] | left; reflexivity]. }
  assert (Hok' : menu_ok demo_menu).
  { vm_compute. split; [split; [reflexivity | discriminate] | split; left; reflexivity]. }
  assert (H0 : 0 <= _selected demo_menu_keyboard) by (vm_compute; discriminate).
  pose proof (enter_key_triggers_selection Key_Return demo_menu_keyboard
                (or_intror eq_refl) Hok) as (H1 & _).
  pose proof (enter_key_triggers_selection Key_Enter demo_menu
                (or_introl eq_refl) Hok') as (_ & H2).
  destruct (H1 H0 eq_refl) as (A & B & _).
  split; [exact A|]. split; [exact B | exact (H2 (or_introl eq_refl))].
Defined.

Lemma Key_eqb_eq (a b : Key) : Key_eqb a b = true <-> a = b.
Proof.
  destruct a, b; simpl; split; intros H; try reflexivity; try discriminate H.
  - apply Z.eqb_eq in H. now subst.
  - injection H as ->. apply Z.eqb_refl.
Qed.

Lemma forward_key_cases (m : Menu) :
  forward_key m = Key_Left \/ forward_key m = Key_Right.
Proof. unfold forward_key. destruct (RightToLeft (_st m)); auto. Qed.

(** X8. The forward key (Right, or Left in a right-to-left layout) on a
    menu with nothing selected selects item 0, whether or not that item
    is enabled or a separator, and takes the menu out of mouse-selection
    mode; on an empty menu, and on a selected item without a submenu, it
    changes nothing; on a selected item with a submenu it acts as Enter
    does.  Every key other than Enter, Return, Up, Down and the forward
    key leaves the menu exactly as it was. *)
Theorem forward_key_selects_first (key : Key) (m : Menu) :
  menu_ok m ->
  (handled_key m key = false -> handleKeyPress key m = m)
  /\ (key = forward_key m ->
      (_selected m = -1 -> _actions m <> [] ->
       _selected (handleKeyPress key m) = 0
       /\ _mouseSelection (handleKeyPress key m) = false
       /\ _pressed (handleKeyPress key m) = _pressed m)
      /\ (_selected m = -1 -> _actions m = [] -> handleKeyPress key m = m)
      /\ (0 <= _selected m ->
          handleKeyPress key m
          = if hasSubmenu (data_at m (_selected m))
            then handleKeyPress Key_Enter m else m)).
Proof.
  intros ((_ & Hn) & (Hs & _)). split.
  - unfold handled_key, forward_key. intros H.
    repeat (apply orb_false_elim in H; destruct H as (H & ?)).
    unfold handleKeyPress, handleKeyPress_navigate.
    rewrite H, H3, H2, H1, H0. reflexivity.
  - intros ->.
    assert (E1 : Key_eqb (forward_key m) Key_Enter = false
                 /\ Key_eqb (forward_key m) Key_Return = false
                 /\ Key_eqb (forward_key m) Key_Up = false
                 /\ Key_eqb (forward_key m) Key_Down = false).
    { destruct (forward_key_cases m) as [-> | ->]; repeat split. }
    destruct E1 as (E1 & E2 & E3 & E4).
    assert (E5 : Key_eqb (forward_key m)
                   (if RightToLeft (_st m) then Key_Left else Key_Right) = true)
      by (apply Key_eqb_eq; reflexivity).
    assert (Enav : forall m', handleKeyPress_navigate (forward_key m) m' = m').
    { intros m'. unfold handleKeyPress_navigate. now rewrite E3, E4. }
    unfold handleKeyPress at 1 2 3 4 5. rewrite E1, E2, E5. cbn [orb].
    rewrite !Enav.
    split; [| split].
    + intros Hsel Hne. rewrite Hsel. cbn [Z.leb Z.ltb andb Z.compare].
      assert (Hsz : 0 < size_of (_actions m)).
      { unfold size_of. destruct (_actions m); [congruence | simpl; lia]. }
      replace (size_of (_actions m) =? 0) with false
        by (symmetry; apply Z.eqb_neq; lia).
      cbn [negb].
      rewrite setSelected_selected, setSelected_mouseSelection,
        setSelected_pressed.
      split; [| split; reflexivity].
      rewrite (normalized_same_actions _ m) by reflexivity.
      apply normalized_in_range; [lia | exact Hn].
    + intros Hsel He. rewrite Hsel, He. reflexivity.
    + intros H0.
      replace (0 <=? _selected m) with true by (symmetry; apply Z.leb_le; lia).
      replace (_selected m <? 0) with false by (symmetry; apply Z.ltb_ge; lia).
      cbn [andb]. destruct (hasSubmenu (data_at m (_selected m))); reflexivity.
Qed.

Lemma forward_key_selects_first_witness :
  let dead := addAction (disabled_action "Undo") None None
                (Menu_new demo_style true) in
  handleKeyPress (Key_Other 32) demo_menu_keyboard = demo_menu_keyboard
  /\ handleKeyPress Key_Left demo_menu_keyboard = demo_menu_keyboard
  /\ _selected dead = -1
  /\ _selected (handleKeyPress Key_Right dead) = 0
  /\ selectable (action_at dead 0) = false.
Proof.
  intros dead.
  assert (Hok : menu_ok demo_menu_keyboard).
  { vm_compute. split; [split; [reflexivity | discriminate] |].
    split; [right; split; [discriminate | reflexivity] | left; reflexivity]. }
  assert (Hok' : menu_ok dead).
  { vm_compute. split; [split; [reflexivity | discriminate] | split; left; reflexivity]. }
  pose proof (forward_key_selects_first (Key_Other 32) demo_menu_keyboard Hok)
    as (A & _).
  pose proof (forward_key_selects_first Key_Left demo_menu_keyboard Hok)
    as (B & _).
  pose proof (forward_key_selects_first Key_Right dead Hok')
    as (_ & C).
  destruct (C eq_refl) as (C1 & _).
  assert (Hne : _actions dead <> []) by (vm_compute; discriminate).
  destruct (C1 eq_refl Hne) as (C2 & _).
  split; [exact (A eq_refl)|]. split; [exact (B eq_refl)|].
  split; [reflexivity|]. split; [exact C2 | reflexivity].
Defined.

(** ** A forced width *)

Lemma addAction_width_forced (a : QAction) (i io : option nat) (m : Menu) :
  _forceWidth m <> 0 -> width (addAction a i io m) = _forceWidth m.
Proof.
  intros Hf. unfold addAction. cbv zeta. unfold processAction.
  match goal with
  | |- width (updateSelected ?p ?m3) = _ =>
      assert (Hl : same_layout m3 (updateSelected p m3)) by auto with frame;
      destruct Hl as (_ & _ & _ & _ & -> & _)
  end.
  rewrite notify_resized_width. cbn [width resize].
  rewrite alter_data_forceWidth. cbn [_forceWidth set_actionsData set_actions].
  apply Z.eqb_neq in Hf. now rewrite Hf.
Qed.

Lemma run_op_forceWidth (o : Op) (m : Menu) :
  is_setForceWidth o = false ->
  _forceWidth (run_op o m) = _forceWidth m
  /\ (forced_ok m -> forced_ok (run_op o m)).
Proof.
  intros Ho.
  assert (Hsame : forall m', same_layout m m' ->
             _forceWidth m' = _forceWidth m
             /\ (forced_ok m -> forced_ok m')).
  { intros m' (_ & _ & _ & Hf & Hw & _). unfold forced_ok.
    rewrite Hf, Hw. tauto. }
  unfold forced_ok in *.
  destruct o; try discriminate Ho; simpl;
    try (apply Hsame; unfold leaveEventHook; solve [auto with frame]);
    try (split; [reflexivity | tauto]).
  - destruct (addAction_spec action icon_ iconOver_ m)
      as (_ & _ & _ & _ & _ & Hf & _).
    split; [exact Hf|]. intros _ Hne. rewrite Hf in Hne |- *.
    now apply addAction_width_forced.
  - destruct (addAction_spec separator None None m)
      as (_ & _ & _ & _ & _ & Hf & _).
    split; [exact Hf|]. intros _ Hne. unfold addSeparator in *.
    rewrite Hf in Hne |- *.
    now apply addAction_width_forced.
  - destruct (clearActions_geometry m) as (_ & _ & _ & _ & Hf & Hw).
    split; [exact Hf|]. intros _ Hne. rewrite Hf in Hne |- *. rewrite Hw.
    apply Z.eqb_neq in Hne. rewrite Hne. reflexivity.
  - set (m0 := set_actions (<[index:=action]> (_actions m)) m).
    destruct (actionChanged_untouched m0)
      as (_ & _ & _ & _ & _ & _ & Hf & _ & He).
    change (_forceWidth m0) with (_forceWidth m) in *.
    split; [exact Hf|]. intros Hok Hne. rewrite Hf in Hne |- *.
    unfold actionChanged.
    pose proof (actionChanged_loop_frame (_actions m0) 0 (widthMin (_st m0)) m0)
      as (_ & _ & F3 & F4 & _).
    destruct (actionChanged_loop (_actions m0) 0 (widthMin (_st m0)) m0)
      as [m1 w].
    simpl in F3, F4.
    change (_forceWidth m0) with (_forceWidth m) in F3.
    change (width m0) with (width m) in F4.
    apply Z.eqb_neq in Hne. rewrite F3, Hne, andb_false_r.
    rewrite F4. apply Hok. now apply Z.eqb_neq.
Qed.

Lemma run_ops_forceWidth (ops : list Op) (m : Menu) :
  forallb (fun o => negb (is_setForceWidth o)) ops = true ->
  _forceWidth (run_ops ops m) = _forceWidth m
  /\ (forced_ok m -> forced_ok (run_ops ops m)).
Proof.
  revert m. induction ops as [|o ops IH]; intros m H; [now split|].
  cbn [forallb] in H. apply andb_true_iff in H as (Ho & Hrest).
  apply negb_true_iff in Ho.
  destruct (run_op_forceWidth o m Ho) as (Hf & Hk).
  destruct (IH (run_op o m) Hrest) as (Hf' & Hk').
  unfold run_ops in *. cbn [fold_left].
  rewrite Hf', Hf. tauto.
Qed.

(** X9. [setForceWidth] makes the given width the width of the widget at
    once, 0 included, and leaves the height alone.  A width forced to
    a value other than 0 then stays the width through every run of
    operations that does not force another one: appending, changing and
    clearing actions no longer move it. *)
Theorem forced_width_is_kept (ops : list Op) (w : Z) (m : Menu) :
  forallb (fun o => negb (is_setForceWidth o)) ops = true ->
  w <> 0 ->
  width (setForceWidth w m) = w
  /\ height (setForceWidth w m) = height m
  /\ width (setForceWidth 0 m) = 0
  /\ width (run_ops ops (setForceWidth w m)) = w
  /\ _forceWidth (run_ops ops (setForceWidth w m)) = w.
Proof.
  intros Hops Hw.
  destruct (run_ops_forceWidth ops (setForceWidth w m) Hops) as (Hf & Hk).
  split; [reflexivity|]. split; [reflexivity|]. split; [reflexivity|].
  split; [| exact Hf].
  rewrite Hk; [exact Hf | intros _; reflexivity | now rewrite Hf].
Qed.

Lemma forced_width_is_kept_witness :
  width (run_ops [ Op_addAction (plain_action long_label) None None;
                   Op_clearActions;
                   Op_addAction (plain_action open_label) None None;
                   Op_changeAction 0 (plain_action long_label) ]
                 (setForceWidth 150 demo_menu)) = 150.
Proof.
  assert (Hw : 150 <> 0) by discriminate.
  exact (proj1 (proj2 (proj2 (proj2
           (forced_width_is_kept
              [ Op_addAction (plain_action long_label) None None;
                Op_clearActions;
                Op_addAction (plain_action open_label) None None;
                Op_changeAction 0 (plain_action long_label) ]
              150 demo_menu eq_refl Hw))))).
Defined.

(** ** Processing an action twice *)

Lemma processData_again (st : Style) (a : QAction) (i w : Z) (d : ActionData) :
  processData st a i w (fst (processData st a i w d))
  = processData st a i w d.
Proof.
  unfold processData.
  destruct (isSeparator a || isEmpty (action_text a)); [reflexivity|].
  cbv zeta. cbn [fst].
  match goal with
  | |- context [goodw st a i ?d1] =>
      lazymatch d1 with
      | d => fail
      | _ =>
        rewrite (goodw_again st a i d d1) by reflexivity;
        rewrite (toggle_after_again a i d d1) by reflexivity
      end
  end.
  reflexivity.
Qed.

Lemma set_actionsData_same (m : Menu) : set_actionsData (_actionsData m) m = m.
Proof. now destruct m. Qed.

Lemma alter_fixed {A} (f : A -> A) (i : nat) (l : list A) :
  (forall x, l !! i = Some x -> f x = x) -> alter f i l = l.
Proof.
  revert i. induction l as [|y l IH]; intros i H; [reflexivity|].
  destruct i as [|i]; simpl.
  - now rewrite (H y eq_refl).
  - f_equal. apply IH. intros x Hx. apply H. exact Hx.
Qed.

Lemma actionChanged_loop_data (acts : list QAction) (index : nat) (w : Z)
    (m : Menu) (j : nat) :
  (j < index)%nat ->
  _actionsData (fst (actionChanged_loop acts (Z.of_nat index) w m)) !! j
  = _actionsData m !! j.
Proof.
  revert index w m. induction acts as [|a acts IH]; intros index w m Hj;
    [reflexivity|].
  cbn [actionChanged_loop]. unfold processAction.
  replace (Z.of_nat index + 1) with (Z.of_nat (S index)) by lia.
  rewrite IH by lia. rewrite alter_data_actionsData.
  apply list_lookup_alter_ne. lia.
Qed.

Lemma actionChanged_loop_again (acts : list QAction) (index : nat) (w : Z)
    (m : Menu) :
  actionChanged_loop acts (Z.of_nat index) w
    (fst (actionChanged_loop acts (Z.of_nat index) w m))
  = actionChanged_loop acts (Z.of_nat index) w m.
Proof.
  revert index w m. induction acts as [|a acts IH]; intros index w m;
    [reflexivity|].
  cbn [actionChanged_loop]. unfold processAction.
  replace (Z.of_nat index + 1) with (Z.of_nat (S index)) by lia.
  set (f := fun d => fst (processData (_st m) a (Z.of_nat index) w d)).
  set (w' := snd (processData (_st m) a (Z.of_nat index) w
                    (data_at m (Z.of_nat index)))).
  set (ma := alter_data f (Z.of_nat index) m).
  set (m1 := fst (actionChanged_loop acts (Z.of_nat (S index)) w' ma)).
  assert (Hst : _st m1 = _st m).
  { unfold m1.
    destruct (actionChanged_loop_frame acts (Z.of_nat (S index)) w' ma)
      as (-> & _).
    unfold ma. apply alter_data_st. }
  assert (Hd : _actionsData m1 !! index = f <$> (_actionsData m !! index)).
  { unfold m1. rewrite actionChanged_loop_data by lia.
    unfold ma. rewrite alter_data_actionsData.
    rewrite list_lookup_alter. now destruct (decide (index = index)). }
  rewrite Hst. fold f.
  assert (Hw : snd (processData (_st m) a (Z.of_nat index) w
                      (data_at m1 (Z.of_nat index))) = w').
  { unfold w', data_at, vec_get.
    destruct (Z.of_nat index <? 0); [reflexivity|].
    rewrite Nat2Z.id, Hd.
    destruct (_actionsData m !! index) as [d|]; [|reflexivity].
    simpl. unfold f. now rewrite processData_again. }
  assert (Hm : alter_data f (Z.of_nat index) m1 = m1).
  { unfold alter_data.
    destruct (Z.of_nat index <? 0); [reflexivity|].
    rewrite Nat2Z.id, alter_fixed; [apply set_actionsData_same|].
    intros x Hx. rewrite Hd in Hx.
    destruct (_actionsData m !! index) as [d|]; [|discriminate Hx].
    injection Hx as <-. unfold f. now rewrite processData_again. }
  rewrite Hw, Hm. unfold m1. apply IH.
Qed.

Lemma set_actions_same (m : Menu) : set_actions (_actions m) m = m.
Proof. now destruct m. Qed.

Lemma actionChanged_again (m : Menu) :
  actionChanged (actionChanged m) = actionChanged m.
Proof.
  unfold actionChanged at 2 3.
  pose proof (actionChanged_loop_again (_actions m) 0 (widthMin (_st m)) m)
    as Hagain.
  pose proof (actionChanged_loop_frame (_actions m) 0 (widthMin (_st m)) m)
    as (F1 & F2 & F3 & F4 & _).
  change (Z.of_nat 0) with 0 in Hagain.
  destruct (actionChanged_loop (_actions m) 0 (widthMin (_st m)) m)
    as [m1 w] eqn:Hloop.
  cbn [fst snd] in *.
  assert (Hsame : actionChanged m1 = m1
                  \/ (negb (w =? width m1) && (_forceWidth m1 =? 0) = true)).
  { destruct (negb (w =? width m1) && (_forceWidth m1 =? 0)) eqn:Hc;
      [now right | left].
    unfold actionChanged. rewrite F1, F2, Hagain, Hc. reflexivity. }
  destruct (negb (w =? width m1) && (_forceWidth m1 =? 0)) eqn:Hc.
  - (* the first run resized the widget *)
    set (m2 := notify_resized (resize w (height m1) m1)).
    assert (H2 : actionChanged_loop (_actions m2) 0 (widthMin (_st m2)) m2
                 = (m2, w)).
    { assert (Hgen : forall acts index w0 m0,
                 actionChanged_loop acts index w0
                   (notify_resized (resize w (height m1) m0))
                 = (notify_resized
                      (resize w (height m1)
                         (fst (actionChanged_loop acts index w0 m0))),
                    snd (actionChanged_loop acts index w0 m0))).
      { induction acts as [|a acts IHa]; intros index w0 m0; [reflexivity|].
        cbn [actionChanged_loop]. unfold processAction.
        assert (Ea : forall f, alter_data f index
                        (notify_resized (resize w (height m1) m0))
                      = notify_resized
                          (resize w (height m1) (alter_data f index m0))).
        { intros f. unfold alter_data, notify_resized, resize, emit,
            set_actionsData. simpl.
          destruct (index <? 0); [reflexivity|].
          destruct (_resizedCallback m0); reflexivity. }
        rewrite Ea.
        replace (_st (notify_resized (resize w (height m1) m0))) with (_st m0)
          by (unfold notify_resized; case_match; reflexivity).
        replace (data_at (notify_resized (resize w (height m1) m0)) index)
          with (data_at m0 index)
          by (unfold notify_resized, data_at; case_match; reflexivity).
        rewrite IHa. reflexivity. }
      unfold m2 at 3. rewrite Hgen.
      replace (_actions m2) with (_actions m)
        by (unfold m2, notify_resized; case_match; simpl; congruence).
      replace (_st m2) with (_st m)
        by (unfold m2, notify_resized; case_match; simpl; congruence).
      rewrite <- F1 at 2. rewrite <- F1 at 1. rewrite <- F2.
      rewrite F1, F2, Hagain. reflexivity. }
    unfold actionChanged. rewrite H2.
    replace (width m2) with w
      by (unfold m2, notify_resized; case_match; reflexivity).
    rewrite Z.eqb_refl. reflexivity.
  - destruct Hsame as [Hs | Hs]; [exact Hs | discriminate Hs].
Qed.

(** X10. [actionChanged] is idempotent: run a second time with nothing
    changed in between, it recomputes the same per-action data and the
    same width, resizes nothing and tells the owner nothing; the menu it
    returns is the one it was given.  So an action that announces the
    same change twice is processed the second time without any effect. *)
Theorem actionChanged_twice (m : Menu) (index : nat) (a : QAction) :
  actionChanged (actionChanged m) = actionChanged m
  /\ run_op (Op_changeAction index a) (run_op (Op_changeAction index a) m)
     = run_op (Op_changeAction index a) m.
Proof.
  split; [apply actionChanged_again|].
  cbn [run_op].
  set (m' := actionChanged (set_actions (<[index:=a]> (_actions m)) m)).
  assert (Ha : _actions m' = <[index:=a]> (_actions m)).
  { unfold m'.
    destruct (actionChanged_untouched
                (set_actions (<[index:=a]> (_actions m)) m)) as (_ & -> & _).
    reflexivity. }
  rewrite Ha, list_insert_insert_eq, <- Ha, set_actions_same.
  apply actionChanged_again.
Qed.

(** ** The room left for the text of an action *)

Lemma processAction_data (a : QAction) (i : nat) (w : Z) (m : Menu)
    (d : ActionData) :
  _actionsData m !! i = Some d ->
  data_at (fst (processAction a (Z.of_nat i) w m)) (Z.of_nat i)
  = fst (processData (_st m) a (Z.of_nat i) w d)
  /\ snd (processAction a (Z.of_nat i) w m)
     = snd (processData (_st m) a (Z.of_nat i) w d).
Proof.
  intros Hl. unfold processAction. cbn [fst snd].
  rewrite (data_at_lookup m i d Hl). split; [|reflexivity].
  apply data_at_lookup. rewrite alter_data_actionsData, list_lookup_alter.
  destruct (decide (i = i)); [|congruence]. now rewrite Hl.
Qed.

(** X11. [processAction] on an action that is no separator and has a
    label, given a running width [w] not above the maximum: the width it
    returns is the required width clamped between [w] and the maximum,
    and the text width it stores is what that width leaves once the
    paddings and the trailing arrow, shortcut or toggle are taken off.
    So the text gets less than its natural width exactly when the
    required width exceeds the maximum, and all of the extra room when
    the required width is below [w].  A checkable action has a toggle
    afterwards that shows the action's checked state and keeps the style
    of the toggle found there; an action that is not checkable has
    none. *)
Theorem processAction_text_width (a : QAction) (i : nat) (w : Z) (m : Menu)
    (d : ActionData) :
  _actionsData m !! i = Some d ->
  contributes a = true ->
  w <= widthMax (_st m) ->
  let r := processAction a (Z.of_nat i) w m in
  let d' := data_at (fst r) (Z.of_nat i) in
  let textw :=
    text_maxWidth (_st m) (ParseMenuItem (actionText (action_text a))) in
  let g := goodw (_st m) a (Z.of_nat i) d in
  w <= snd r <= widthMax (_st m)
  /\ textWidth d' = snd r - (g - textw)
  /\ (textWidth d' < textw <-> widthMax (_st m) < g)
  /\ (g <= w -> textWidth d' = textw + (w - g))
  /\ (w <= g <= widthMax (_st m) -> textWidth d' = textw /\ snd r = g)
  /\ (isCheckable a = false -> toggle d' = None)
  /\ (isCheckable a = true ->
      exists t, toggle d' = Some t
                /\ toggle_checked t = isChecked a
                /\ toggle_style t
                   = match toggle d with
                     | Some t0 => toggle_style t0
                     | None => itemToggle
                     end).
Proof.
  intros Hl Hc Hw r d' textw g. subst r d'.
  destruct (processAction_data a i w m d Hl) as (-> & ->).
  unfold contributes in Hc. apply negb_true_iff in Hc.
  unfold processData. rewrite Hc. cbv zeta. cbn [fst snd textWidth toggle].
  fold g. fold textw. unfold clamp.
  split; [| split; [| split; [| split; [| split; [| split]]]]].
  - destruct (Z.ltb_spec g w); [lia|]. destruct (Z.ltb_spec (widthMax (_st m)) g); lia.
  - reflexivity.
  - destruct (Z.ltb_spec g w); [lia|]. destruct (Z.ltb_spec (widthMax (_st m)) g); lia.
  - intros Hg. destruct (Z.ltb_spec g w); [lia|].
    destruct (Z.ltb_spec (widthMax (_st m)) g); lia.
  - intros Hg. destruct (Z.ltb_spec g w); [lia|].
    destruct (Z.ltb_spec (widthMax (_st m)) g); lia.
  - intros Hk. unfold toggle_after. now rewrite Hk.
  - intros Hk. unfold toggle_after. rewrite Hk.
    destruct (toggle d) as [t0|]; eexists; repeat split.
Qed.

Lemma processAction_text_width_witness :
  let m := demo_menu in
  let r := processAction (plain_action long_label) 0 100 m in
  snd r = 300
  /\ textWidth (data_at (fst r) 0) = 266
  /\ text_maxWidth (_st m) (ParseMenuItem long_label) = 392.
Proof.
  assert (Hl : _actionsData demo_menu !! 0%nat
               = Some (data_at demo_menu 0)) by reflexivity.
  assert (Hw : 100 <= widthMax (_st demo_menu)) by (vm_compute; discriminate).
  pose proof (processAction_text_width (plain_action long_label) 0 100
                demo_menu (data_at demo_menu 0) Hl eq_refl Hw)
    as (_ & H2 & _).
  split; [reflexivity|]. split; [|reflexivity].
  etransitivity; [exact H2 | reflexivity].
Defined.

(** ** Pressing on an item and releasing elsewhere *)

Lemma handleMousePress_over_selectable (p : QPoint) (m : Menu) (i : nat)
    (a : QAction) :
  menu_ok m -> style_ok m -> height_ok m ->
  over_item p m i a ->
  selectable a = true ->
  _pressed (handleMousePress p m) = Z.of_nat i
  /\ _selected (handleMousePress p m) = Z.of_nat i
  /\ _mouseSelection (handleMousePress p m) = true
  /\ events (handleMousePress p m) = events (handleMouseMove p m)
  /\ same_layout m (handleMousePress p m).
Proof.
  intros Hok Hst Hh Ho Hsel.
  pose proof Hok as ((_ & Hn) & _).
  pose proof Ho as (Hl & _).
  assert (Hlt : 0 <= Z.of_nat i < size_of (_actions m)).
  { apply lookup_lt_Some in Hl. unfold size_of. lia. }
  rewrite (handleMouseMove_over_item p m i a Hn Hst Hh Ho), Hsel.
  unfold handleMousePress.
  rewrite (handleMouseMove_over_item p m i a Hn Hst Hh Ho), Hsel.
  set (mA := setSelected (Z.of_nat i) (set_mouseSelection true m)).
  assert (HlA : same_layout m mA) by (unfold mA; auto with frame).
  pose proof HlA as (HstA & HactA & _).
  assert (HsA : _selected mA = Z.of_nat i).
  { unfold mA. rewrite setSelected_selected.
    rewrite (normalized_same_actions _ m) by reflexivity.
    now apply normalized_in_range. }
  assert (HmA : _mouseSelection mA = true)
    by (unfold mA; now rewrite setSelected_mouseSelection).
  cbv zeta.
  destruct (over_item_contains p mA i a
              (style_ok_same_layout m mA HlA Hst)
              (height_ok_same_layout m mA HlA Hh)
              (over_item_same_layout p m mA i a HlA Ho)) as (_ & Hr).
  rewrite Hr.
  destruct (itemPressed_mouse mA) as (HpB & HsB & HeB & HlAB).
  { now rewrite HactA. }
  { now rewrite HsA, HactA. }
  { rewrite HsA, (action_at_same_actions m mA _ HactA),
      (action_at_lookup m i a Hl).
    now apply selectable_enabled. }
  { exact HmA. }
  rewrite HsA in HpB, HsB.
  split; [exact HpB|]. split; [exact HsB|].
  split.
  { unfold itemPressed. rewrite HmA. cbn [is_Mouse negb andb].
    repeat case_match; autorewrite with proj;
      rewrite ?setPressed_mouseSelection; exact HmA. }
  split; [exact HeB|].
  eapply same_layout_trans; eassumption.
Qed.

Lemma contains_same_layout (q : QPoint) (m m' : Menu) :
  same_layout m m' ->
  contains (inner_rect m') (mapFromGlobal m' q)
  = contains (inner_rect m) (mapFromGlobal m q)
  /\ contains (rect m') (mapFromGlobal m' q)
     = contains (rect m) (mapFromGlobal m q).
Proof.
  intros (Hst & _ & _ & _ & Hw & Hh & Hpos & _).
  unfold inner_rect, rect, mapFromGlobal. now rewrite Hst, Hw, Hh, Hpos.
Qed.

Lemma handleMouseMove_outside (q : QPoint) (m : Menu) :
  contains (inner_rect m) (mapFromGlobal m q) = false ->
  _selected (handleMouseMove q m) = _selected (clearMouseSelection m)
  /\ _pressed (handleMouseMove q m) = _pressed m
  /\ _mouseSelection (handleMouseMove q m)
     = _mouseSelection (clearMouseSelection m)
  /\ same_layout m (handleMouseMove q m).
Proof.
  intros Hout. unfold handleMouseMove. rewrite Hout. cbv zeta.
  assert (Hp : _pressed (clearMouseSelection m) = _pressed m).
  { unfold clearMouseSelection, clearSelection.
    case_match; [now rewrite setSelected_pressed | reflexivity]. }
  assert (Hl : same_layout m (clearMouseSelection m))
    by (apply same_layout_clearMouseSelection, same_layout_refl).
  destruct (_mouseMoveDelegate (clearMouseSelection m));
    (split; [reflexivity|]; split; [exact Hp|]; split; [reflexivity|]);
    [apply same_layout_emit|]; exact Hl.
Qed.

Lemma handleMouseRelease_fields (q : QPoint) (m : Menu) :
  _selected (handleMouseRelease q m)
  = _selected (itemReleased Mouse (handleMouseMove q m))
  /\ _pressed (handleMouseRelease q m)
     = _pressed (itemReleased Mouse (handleMouseMove q m))
  /\ _mouseSelection (handleMouseRelease q m)
     = _mouseSelection (itemReleased Mouse (handleMouseMove q m))
  /\ triggered_count (events (handleMouseRelease q m))
     = triggered_count (events (itemReleased Mouse (handleMouseMove q m))).
Proof.
  unfold handleMouseRelease. cbv zeta.
  case_match; proj; rewrite ?triggered_count_snoc; simpl;
    repeat split; lia.
Qed.

Lemma itemReleased_mouseSelection (source : TriggeredSource) (m : Menu) :
  _mouseSelection (itemReleased source m) = _mouseSelection m.
Proof.
  unfold itemReleased.
  repeat case_match; proj;
    rewrite ?alter_data_mouseSelection, ?setPressed_mouseSelection;
    reflexivity.
Qed.

(** X21. A press on an enabled item followed by a release at a point
    outside the inner rectangle.  The press is never left pending.
    While no submenu is shown the release triggers nothing: moving out
    has dropped the selection, so the item pressed is no longer the
    selected one, and afterwards nothing is selected and the menu is out
    of mouse-selection mode.  While a submenu is shown the selection
    stays on the pressed item, and the release tells the triggered
    callback once although the pointer is elsewhere. *)
Theorem release_outside_after_press (p q : QPoint) (m : Menu) (i : nat)
    (a : QAction) :
  menu_ok m -> style_ok m -> height_ok m ->
  over_item p m i a ->
  selectable a = true ->
  contains (inner_rect m) (mapFromGlobal m q) = false ->
  let m' := handleMouseRelease q (handleMousePress p m) in
  _pressed m' = -1
  /\ (_childShown m = false ->
      triggered_count (events m') = triggered_count (events m)
      /\ _selected m' = -1
      /\ _mouseSelection m' = false)
  /\ (_childShown m = true -> _triggeredCallback m = true ->
      triggered_count (events m') = S (triggered_count (events m))
      /\ _selected m' = Z.of_nat i).
Proof.
  intros Hok Hst Hh Ho Hsel Hout m'. subst m'.
  pose proof Hok as ((_ & Hn) & _).
  pose proof Ho as (Hl & _).
  assert (Hlt : 0 <= Z.of_nat i < size_of (_actions m)).
  { apply lookup_lt_Some in Hl. unfold size_of. lia. }
  destruct (handleMousePress_over_selectable p m i a Hok Hst Hh Ho Hsel)
    as (Pp & Ps & Pm & Pe & Pl).
  set (mB := handleMousePress p m) in *.
  destruct (handleMouseRelease_fields q mB) as (R1 & R2 & R3 & R4).
  rewrite R1, R2, R3, R4, itemReleased_mouseSelection.
  assert (HoutB : contains (inner_rect mB) (mapFromGlobal mB q) = false).
  { destruct (contains_same_layout q m mB Pl) as (-> & _). exact Hout. }
  destruct (handleMouseMove_outside q mB HoutB) as (M1 & M2 & M3 & M4).
  set (mC := handleMouseMove q mB) in *.
  assert (HlC : same_layout m mC) by (eapply same_layout_trans; eassumption).
  assert (HtC : triggered_count (events mC) = triggered_count (events m)).
  { unfold mC. rewrite handleMouseMove_triggered_count, Pe.
    apply handleMouseMove_triggered_count. }
  destruct (itemReleased_after_press Mouse m mC Hn HlC) as (I1 & I2).
  { now rewrite M2, Pp. }
  destruct (itemReleased_pressed_valid Mouse mC) as (_ & I3 & _).
  { destruct HlC as (_ & -> & _). exact Hn. }
  { destruct HlC as (_ & -> & _). now rewrite M2, Pp. }
  rewrite I3.
  pose proof Pl as (_ & _ & _ & _ & _ & _ & _ & _ & Hcs & _).
  split; [exact I1|]. split.
  - intros Hc. rewrite Hc in Hcs.
    assert (Hclear : clearMouseSelection mB = clearSelection mB).
    { unfold clearMouseSelection. now rewrite Pm, Hcs. }
    destruct (clearSelection_spec mB) as (C1 & C2 & _).
    rewrite Hclear in M1, M3. rewrite M1, M3, C1, C2.
    split; [| split; reflexivity].
    rewrite I2, M1, C1, M2, Pp.
    replace (Z.of_nat i =? -1) with false by (symmetry; apply Z.eqb_neq; lia).
    exact HtC.
  - intros Hc Ht. rewrite Hc in Hcs.
    assert (Hclear : clearMouseSelection mB = mB).
    { unfold clearMouseSelection. rewrite Pm, Hcs. reflexivity. }
    rewrite Hclear in M1, M3. rewrite M1, Ps.
    split; [| reflexivity].
    rewrite I2, M1, Ps, M2, Pp, Z.eqb_refl, Ht. cbn [andb].
    rewrite triggered_count_snoc, HtC. simpl. lia.
Qed.

Lemma release_outside_after_press_witness :
  let p := {| point_x := 10; point_y := 90 |} in
  let q := {| point_x := 500; point_y := 90 |} in
  _pressed (handleMousePress p demo_menu) = 3
  /\ _pressed (handleMouseRelease q (handleMousePress p demo_menu)) = -1
  /\ triggered_count
       (events (handleMouseRelease q (handleMousePress p demo_menu))) = 0%nat.
Proof.
  assert (Hok : menu_ok demo_menu).
  { vm_compute. split; [split; [reflexivity | discriminate] | split; left; reflexivity]. }
  assert (Hst : style_ok demo_menu) by (vm_compute; intuition discriminate).
  assert (Hh : height_ok demo_menu) by reflexivity.
  assert (Ho : over_item {| point_x := 10; point_y := 90 |} demo_menu 3
                 (plain_action "E&xit")).
  { vm_compute. split; [reflexivity|]. split; split; congruence. }
  pose proof (release_outside_after_press
                {| point_x := 10; point_y := 90 |}
                {| point_x := 500; point_y := 90 |}
                demo_menu 3 (plain_action "E&xit")
                Hok Hst Hh Ho eq_refl eq_refl) as (H1 & H2 & _).
  destruct (H2 eq_refl) as (H3 & _).
  split; [reflexivity|]. split; [exact H1 | exact H3].
Defined.

(** ** The hover style of toggles *)

Create HintDb hover.

Lemma hover_ok_calmer (m m' : Menu) :
  calmer m m' -> hover_ok m -> hover_ok m'.
Proof.
  intros (Hs & Hp & Hd) Hok i d' Hl Ho. rewrite Hs, Hp.
  destruct (Hd i d' Hl Ho) as (d & Hl' & Ho'). eapply Hok; eassumption.
Qed.

Lemma calmer_refl (m : Menu) : calmer m m.
Proof. unfold calmer. eauto. Qed.

Lemma calmer_trans (m1 m2 m3 : Menu) :
  calmer m1 m2 -> calmer m2 m3 -> calmer m1 m3.
Proof.
  intros (S1 & P1 & D1) (S2 & P2 & D2).
  split; [congruence|]. split; [congruence|].
  intros i d3 Hl Ho. destruct (D2 i d3 Hl Ho) as (d2 & Hl2 & Ho2). eauto.
Qed.

Lemma alter_data_lookup f (j : Z) (m : Menu) (i : nat) :
  _actionsData (alter_data f j m) !! i
  = if (0 <=? j) && (Z.to_nat j =? i)%nat
    then f <$> (_actionsData m !! i) else _actionsData m !! i.
Proof.
  unfold alter_data.
  destruct (Z.ltb_spec j 0), (Z.leb_spec 0 j); try lia; cbn [andb];
    [reflexivity|].
  cbn [_actionsData set_actionsData].
  rewrite list_lookup_alter.
  destruct (decide (Z.to_nat j = i)) as [->|Hne].
  - now rewrite Nat.eqb_refl.
  - apply Nat.eqb_neq in Hne. now rewrite Hne.
Qed.

Lemma calmer_alter_data f (j : Z) (m : Menu) :
  (forall d, is_over (f d) = true -> is_over d = true) ->
  calmer m (alter_data f j m).
Proof.
  intros Hf. split; [apply alter_data_selected|].
  split; [apply alter_data_pressed|].
  intros i d' Hl Ho. rewrite alter_data_lookup in Hl.
  destruct ((0 <=? j) && (Z.to_nat j =? i)%nat); [|eauto].
  destruct (_actionsData m !! i) as [d|]; [|discriminate Hl].
  injection Hl as <-. eauto.
Qed.

Lemma is_over_set_ripple r d : is_over (set_ripple r d) = is_over d.
Proof. reflexivity. Qed.

Lemma is_over_resting d : is_over (toggle_setStyle itemToggle d) = false.
Proof.
  unfold is_over, toggle_setStyle.
  destruct (toggle d) eqn:E; simpl; [reflexivity | now rewrite E].
Qed.

Lemma is_over_processData st a i w d :
  is_over (fst (processData st a i w d)) = true -> is_over d = true.
Proof.
  unfold processData, is_over.
  destruct (isSeparator a || isEmpty (action_text a)); cbn [fst toggle];
    [auto|].
  unfold toggle_after. destruct (isCheckable a); [|discriminate].
  destruct (toggle d); cbn [toggle_style]; [auto | discriminate].
Qed.

Lemma calmer_same_data (m m' : Menu) :
  _selected m' = _selected m -> _pressed m' = _pressed m ->
  _actionsData m' = _actionsData m -> calmer m m'.
Proof. intros Hs Hp Hd. unfold calmer. rewrite Hs, Hp, Hd. eauto. Qed.

Lemma hover_ok_emit e m : hover_ok m -> hover_ok (emit e m).
Proof. apply hover_ok_calmer, calmer_same_data; reflexivity. Qed.

Lemma hover_ok_set_mouseSelection b m :
  hover_ok m -> hover_ok (set_mouseSelection b m).
Proof. apply hover_ok_calmer, calmer_same_data; reflexivity. Qed.

Lemma hover_ok_set_childShown b m : hover_ok m -> hover_ok (set_childShown b m).
Proof. apply hover_ok_calmer, calmer_same_data; reflexivity. Qed.

Lemma hover_ok_set_cursor_pos p m : hover_ok m -> hover_ok (set_cursor_pos p m).
Proof. apply hover_ok_calmer, calmer_same_data; reflexivity. Qed.

Lemma hover_ok_resize w h m : hover_ok m -> hover_ok (resize w h m).
Proof. apply hover_ok_calmer, calmer_same_data; reflexivity. Qed.

Lemma hover_ok_set_actions acts m : hover_ok m -> hover_ok (set_actions acts m).
Proof. apply hover_ok_calmer, calmer_same_data; reflexivity. Qed.

Lemma hover_ok_notify_resized m : hover_ok m -> hover_ok (notify_resized m).
Proof.
  unfold notify_resized. destruct (_resizedCallback m); [|auto].
  apply hover_ok_emit.
Qed.

Lemma hover_ok_setForceWidth w m : hover_ok m -> hover_ok (setForceWidth w m).
Proof. apply hover_ok_calmer, calmer_same_data; reflexivity. Qed.

Lemma hover_ok_alter_data f (j : Z) (m : Menu) :
  (forall d, is_over (f d) = true -> is_over d = true) ->
  hover_ok m -> hover_ok (alter_data f j m).
Proof. intros Hf. apply hover_ok_calmer, calmer_alter_data, Hf. Qed.

#[global] Hint Resolve hover_ok_emit hover_ok_set_mouseSelection
  hover_ok_set_childShown hover_ok_set_cursor_pos hover_ok_resize
  hover_ok_set_actions hover_ok_notify_resized hover_ok_setForceWidth : hover.

Lemma hover_ok_setSelected (i : Z) (m : Menu) :
  hover_ok m -> hover_ok (setSelected i m).
Proof.
  intros Hok. unfold setSelected. fold (normalized i m).
  generalize (normalized i m) as n. intros n.
  destruct (Z.eqb_spec (_selected m) n) as [E|E]; cbn [negb]; [exact Hok|].
  cbv zeta.
  match goal with
  | |- hover_ok (if _ then emit ?e ?m3 else ?m3) =>
      assert (H3 : hover_ok m3); [| destruct (_activatedCallback m3);
                                    [apply hover_ok_emit|]; exact H3]
  end.
  set (m1 := if (0 <=? _selected m) && negb (_selected m =? _pressed m)
             then alter_data (toggle_setStyle itemToggle) (_selected m) m
             else m).
  assert (H1 : forall k d, _actionsData m1 !! k = Some d -> is_over d = true ->
                           Z.of_nat k = _pressed m).
  { intros k d Hl Ho. unfold m1 in Hl.
    destruct ((0 <=? _selected m) && negb (_selected m =? _pressed m)) eqn:Hc.
    - rewrite alter_data_lookup in Hl.
      destruct ((0 <=? _selected m) && (Z.to_nat (_selected m) =? k)%nat)
        eqn:Hk.
      + destruct (_actionsData m !! k) as [d0|]; [|discriminate Hl].
        injection Hl as <-. rewrite is_over_resting in Ho. discriminate Ho.
      + destruct (Hok k d Hl Ho) as [Hs | Hp]; [|exact Hp].
        exfalso. apply andb_true_iff in Hc as (Hc & _).
        rewrite Hc in Hk. cbn [andb] in Hk. apply Nat.eqb_neq in Hk. lia.
    - destruct (Hok k d Hl Ho) as [Hs | Hp]; [|exact Hp].
      apply andb_false_iff in Hc as [Hc | Hc].
      + apply Z.leb_gt in Hc. lia.
      + apply negb_false_iff, Z.eqb_eq in Hc. lia. }
  assert (Hp1 : _pressed m1 = _pressed m)
    by (unfold m1; case_match; [apply alter_data_pressed | reflexivity]).
  intros k d Hl Ho.
  match type of Hl with
  | _actionsData (if ?c then _ else _) !! _ = _ => destruct c eqn:Hc
  end.
  - rewrite alter_data_lookup in Hl. rewrite alter_data_selected, alter_data_pressed.
    cbn [_selected set_selected _pressed _actionsData] in *.
    destruct ((0 <=? n) && (Z.to_nat n =? k)%nat) eqn:Hk.
    + left. apply andb_true_iff in Hk as (Hk1 & Hk2).
      apply Z.leb_le in Hk1. apply Nat.eqb_eq in Hk2. lia.
    + right. rewrite Hp1. eapply H1; eassumption.
  - cbn [_selected set_selected _pressed _actionsData] in *.
    right. rewrite Hp1. eapply H1; eassumption.
Qed.

Lemma hover_ok_setPressed (i : Z) (m : Menu) :
  hover_ok m -> hover_ok (setPressed i m).
Proof.
  intros Hok. unfold setPressed. fold (normalized i m).
  generalize (normalized i m) as n. intros n.
  destruct (Z.eqb_spec (_pressed m) n) as [E|E]; cbn [negb]; [exact Hok|].
  cbv zeta.
  set (m1 := if (0 <=? _pressed m) && negb (_pressed m =? _selected m)
             then alter_data (toggle_setStyle itemToggle) (_pressed m) m
             else m).
  assert (H1 : forall k d, _actionsData m1 !! k = Some d -> is_over d = true ->
                           Z.of_nat k = _selected m).
  { intros k d Hl Ho. unfold m1 in Hl.
    destruct ((0 <=? _pressed m) && negb (_pressed m =? _selected m)) eqn:Hc.
    - rewrite alter_data_lookup in Hl.
      destruct ((0 <=? _pressed m) && (Z.to_nat (_pressed m) =? k)%nat)
        eqn:Hk.
      + destruct (_actionsData m !! k) as [d0|]; [|discriminate Hl].
        injection Hl as <-. rewrite is_over_resting in Ho. discriminate Ho.
      + destruct (Hok k d Hl Ho) as [Hs | Hp]; [exact Hs|].
        exfalso. apply andb_true_iff in Hc as (Hc & _).
        rewrite Hc in Hk. cbn [andb] in Hk. apply Nat.eqb_neq in Hk. lia.
    - destruct (Hok k d Hl Ho) as [Hs | Hp]; [exact Hs|].
      apply andb_false_iff in Hc as [Hc | Hc].
      + apply Z.leb_gt in Hc. lia.
      + apply negb_false_iff, Z.eqb_eq in Hc. lia. }
  assert (Hs1 : _selected m1 = _selected m)
    by (unfold m1; case_match; [apply alter_data_selected | reflexivity]).
  intros k d Hl Ho.
  match type of Hl with
  | _actionsData (if ?c then _ else _) !! _ = _ => destruct c eqn:Hc
  end.
  - rewrite alter_data_lookup in Hl. rewrite alter_data_selected, alter_data_pressed.
    cbn [_selected set_pressed _pressed _actionsData] in *.
    destruct ((0 <=? n) && (Z.to_nat n =? k)%nat) eqn:Hk.
    + right. apply andb_true_iff in Hk as (Hk1 & Hk2).
      apply Z.leb_le in Hk1. apply Nat.eqb_eq in Hk2. lia.
    + left. rewrite Hs1. eapply H1; eassumption.
  - cbn [_selected set_pressed _pressed _actionsData] in *.
    left. rewrite Hs1. eapply H1; eassumption.
Qed.

#[global] Hint Resolve hover_ok_setSelected hover_ok_setPressed : hover.

Lemma hover_ok_updateSelected p m : hover_ok m -> hover_ok (updateSelected p m).
Proof. intros H. unfold updateSelected. case_match; auto with hover. Qed.

Lemma hover_ok_itemReleased s m : hover_ok m -> hover_ok (itemReleased s m).
Proof.
  intros H. unfold itemReleased. cbv zeta.
  assert (Hr : forall j, hover_ok
            (alter_data
               (fun d => match ripple d with
                         | Some r => set_ripple (Some (ripple_lastStop r)) d
                         | None => d
                         end) j (setPressed (-1) m))).
  { intros j. apply hover_ok_alter_data; [|auto with hover].
    intros d. now destruct (ripple d). }
  repeat case_match; auto with hover.
Qed.

#[global] Hint Resolve hover_ok_updateSelected hover_ok_itemReleased : hover.

Lemma hover_ok_itemPressed s m : hover_ok m -> hover_ok (itemPressed s m).
Proof.
  intros H. unfold itemPressed. cbv zeta.
  repeat case_match; auto with hover.
  apply hover_ok_alter_data; [intros d Hd; exact Hd | auto with hover].
Qed.

Lemma hover_ok_clearSelection m : hover_ok m -> hover_ok (clearSelection m).
Proof. intros H. unfold clearSelection. auto with hover. Qed.

#[global] Hint Resolve hover_ok_itemPressed hover_ok_clearSelection : hover.

Lemma hover_ok_clearMouseSelection m :
  hover_ok m -> hover_ok (clearMouseSelection m).
Proof. intros H. unfold clearMouseSelection. case_match; auto with hover. Qed.

#[global] Hint Resolve hover_ok_clearMouseSelection : hover.

Lemma hover_ok_handleMouseMove p m : hover_ok m -> hover_ok (handleMouseMove p m).
Proof.
  intros H. unfold handleMouseMove. cbv zeta. repeat case_match; auto with hover.
Qed.

#[global] Hint Resolve hover_ok_handleMouseMove : hover.

Lemma hover_ok_handleMousePress p m :
  hover_ok m -> hover_ok (handleMousePress p m).
Proof.
  intros H. unfold handleMousePress. cbv zeta. repeat case_match; auto with hover.
Qed.

Lemma hover_ok_handleMouseRelease p m :
  hover_ok m -> hover_ok (handleMouseRelease p m).
Proof.
  intros H. unfold handleMouseRelease. cbv zeta.
  repeat case_match; auto with hover.
Qed.

Lemma hover_ok_handleKeyPress_navigate k m :
  hover_ok m -> hover_ok (handleKeyPress_navigate k m).
Proof.
  intros H. unfold handleKeyPress_navigate. cbv zeta.
  repeat case_match; auto with hover.
Qed.

#[global] Hint Resolve hover_ok_handleMousePress hover_ok_handleMouseRelease
  hover_ok_handleKeyPress_navigate : hover.

Lemma hover_ok_handleKeyPress k m : hover_ok m -> hover_ok (handleKeyPress k m).
Proof.
  intros H. unfold handleKeyPress. repeat case_match; auto with hover.
Qed.

#[global] Hint Resolve hover_ok_handleKeyPress : hover.

Lemma hover_ok_keyPressEvent k m : hover_ok m -> hover_ok (keyPressEvent k m).
Proof.
  intros H. unfold keyPressEvent. repeat case_match; auto with hover.
Qed.

Lemma hover_ok_enterEventHook m : hover_ok m -> hover_ok (enterEventHook m).
Proof. intros H. unfold enterEventHook. case_match; auto with hover. Qed.

Lemma hover_ok_setShowSource s m : hover_ok m -> hover_ok (setShowSource s m).
Proof. intros H. unfold setShowSource. cbv zeta. auto with hover. Qed.

Lemma hover_ok_finishAnimating m : hover_ok m -> hover_ok (finishAnimating m).
Proof.
  apply hover_ok_calmer. unfold finishAnimating.
  split; [reflexivity|]. split; [reflexivity|].
  intros i d' Hl Ho. cbn [_actionsData set_actionsData] in Hl.
  rewrite list_lookup_fmap in Hl.
  destruct (_actionsData m !! i) as [d|]; [|discriminate Hl].
  injection Hl as <-. eauto.
Qed.

Lemma hover_ok_processAction a (i w : Z) m :
  hover_ok m -> hover_ok (fst (processAction a i w m)).
Proof.
  intros H. unfold processAction. cbn [fst].
  apply hover_ok_alter_data; [|exact H].
  intros d. apply is_over_processData.
Qed.

Lemma hover_ok_actionChanged_loop acts (i w : Z) m :
  hover_ok m -> hover_ok (fst (actionChanged_loop acts i w m)).
Proof.
  revert i w m. induction acts as [|a acts IH]; intros i w m H; [exact H|].
  cbn [actionChanged_loop].
  pose proof (hover_ok_processAction a i w m H) as Hp.
  destruct (processAction a i w m) as [m1 w1]. apply IH. exact Hp.
Qed.

Lemma hover_ok_actionChanged m : hover_ok m -> hover_ok (actionChanged m).
Proof.
  intros H. unfold actionChanged.
  pose proof (hover_ok_actionChanged_loop (_actions m) 0 (widthMin (_st m)) m H)
    as Hl.
  destruct (actionChanged_loop (_actions m) 0 (widthMin (_st m)) m) as [m1 w].
  cbn [fst] in Hl. case_match; auto with hover.
Qed.

Lemma hover_ok_addAction a ic io m : hover_ok m -> hover_ok (addAction a ic io m).
Proof.
  intros H. unfold addAction. cbv zeta.
  set (m1 := set_actionsData (_actionsData m ++ [addAction_data a ic io])
               (set_actions (_actions m ++ [a]) m)).
  assert (H1 : hover_ok m1).
  { intros i d Hl Ho. cbn [m1 _actionsData set_actionsData set_actions] in Hl.
    cbn [m1 _selected _pressed set_actionsData set_actions].
    apply lookup_app_Some in Hl as [Hl' | (_ & Hl')].
    - eapply H; eassumption.
    - destruct (i - length (_actionsData m))%nat; [|discriminate Hl'].
      injection Hl' as <-. discriminate Ho. }
  pose proof (hover_ok_processAction a
                (to_int (as_size_t (size_of (_actions m1) - 1)))
                (Z.max (width m1) (widthMin (_st m1))) m1 H1) as Hp.
  destruct (processAction a _ _ m1) as [m2 w2]. cbn [fst] in Hp.
  auto with hover.
Qed.

Lemma hover_ok_clearActions m : hover_ok (clearActions m).
Proof.
  unfold clearActions. cbv zeta. apply hover_ok_notify_resized.
  intros i d Hl. discriminate Hl.
Qed.

Lemma hover_ok_run_op (o : Op) (m : Menu) : hover_ok m -> hover_ok (run_op o m).
Proof.
  intros H.
  destruct o; cbn [run_op]; unfold leaveEventHook, addSeparator;
    auto using hover_ok_addAction, hover_ok_clearActions,
      hover_ok_finishAnimating, hover_ok_setShowSource, hover_ok_actionChanged,
      hover_ok_keyPressEvent, hover_ok_enterEventHook with hover.
Qed.

Lemma hover_ok_run_ops (ops : list Op) (m : Menu) :
  hover_ok m -> hover_ok (run_ops ops m).
Proof.
  revert m. induction ops as [|o ops IH]; intros m H; [exact H|].
  unfold run_ops in *. cbn [fold_left]. apply IH, hover_ok_run_op, H.
Qed.

(** X22. Only the selected item and the pressed item ever show their
    toggle in the hover style.  This holds in a new menu and is kept by
    every operation: when the selection or the press moves on,
    [setSelected] and [setPressed] put the toggle left behind back into
    the resting style unless the other index still points at it, and
    nothing else gives a toggle the hover style; a toggle made or
    refreshed by [processAction] starts in the resting style or keeps
    the style it had. *)
Theorem toggle_hover_follows_selection (ops : list Op) (m : Menu)
    (st : Style) (callbacks : bool) (i : nat) (d : ActionData) (t : ToggleView) :
  hover_ok m ->
  _actionsData (run_ops ops m) !! i = Some d ->
  toggle d = Some t ->
  toggle_style t = itemToggleOver ->
  (Z.of_nat i = _selected (run_ops ops m)
   \/ Z.of_nat i = _pressed (run_ops ops m))
  /\ hover_ok (Menu_new st callbacks).
Proof.
  intros Hok Hl Ht Hs. split.
  - apply (hover_ok_run_ops ops m Hok i d Hl).
    unfold is_over. now rewrite Ht, Hs.
  - intros k dk Hk. discriminate Hk.
Qed.

Lemma toggle_hover_follows_selection_witness :
  let m := run_ops [Op_handleKeyPress Key_Down; Op_handleKeyPress Key_Down]
                   check_menu in
  (toggle_style <$> toggle (data_at m 0)) = Some itemToggleOver
  /\ (Z.of_nat 0 = _selected m \/ Z.of_nat 0 = _pressed m).
Proof.
  intros m.
  assert (Hok : hover_ok check_menu).
  { intros i d Hl Ho. left.
    destruct i as [|[|i]]; vm_compute in Hl; [reflexivity | |discriminate Hl].
    injection Hl as <-. discriminate Ho. }
  assert (Hl : _actionsData m !! 0%nat = Some (data_at m 0)) by reflexivity.
  assert (Ht : toggle (data_at m 0)
               = Some {| toggle_style := itemToggleOver;
                         toggle_checked := true; toggle_index := 0 |})
    by reflexivity.
  split; [reflexivity|].
  exact (proj1 (toggle_hover_follows_selection
                  [Op_handleKeyPress Key_Down; Op_handleKeyPress Key_Down]
                  check_menu demo_style true 0 (data_at m 0)
                  {| toggle_style := itemToggleOver;
                     toggle_checked := true; toggle_index := 0 |}
                  Hok Hl Ht eq_refl)).
Defined.

(** ** Stepping forth and back *)

Lemma nav_pos_valid (key : Key) (m : Menu) (k : Z) :
  0 <= _selected m < size_of (_actions m) ->
  nav_pos key m k
  = (_selected m + k * nav_delta key) mod size_of (_actions m).
Proof.
  intros Hv. unfold nav_pos, wrap_pos, nav_start.
  destruct (Z.ltb_spec (_selected m) 0); [lia|].
  destruct (Z.leb_spec (size_of (_actions m)) (_selected m)); [lia|].
  reflexivity.
Qed.

Lemma step_selects (key : Key) (m : Menu) :
  key = Key_Up \/ key = Key_Down ->
  size_of (_actions m) <= int_max ->
  0 <= _selected m < size_of (_actions m) ->
  selectable (action_at m (_selected m)) = true ->
  exists j0,
    1 <= j0 <= size_of (_actions m)
    /\ handleKeyPress key m
       = setSelected (nav_pos key m j0) (set_mouseSelection false m)
    /\ _selected (handleKeyPress key m) = nav_pos key m j0
    /\ selectable (action_at m (nav_pos key m j0)) = true
    /\ (forall j, 1 <= j < j0 ->
                  selectable (action_at m (nav_pos key m j)) = false).
Proof.
  intros Hk Hn Hv Hsel.
  assert (Hi : in_int (_selected m)).
  { unfold in_int, int_min, int_max in *. lia. }
  rewrite (handleKeyPress_is_navigate key m Hk).
  destruct (handleKeyPress_navigate_result key m Hk ltac:(lia) Hi)
    as (j0 & Hj & Hres & Hlast & Hbefore).
  assert (Hs0 : selectable (action_at m (nav_pos key m j0)) = true).
  { destruct Hlast as [-> | H]; [|exact H].
    rewrite nav_pos_valid by exact Hv.
    replace ((_selected m + size_of (_actions m) * nav_delta key)
             mod size_of (_actions m)) with (_selected m); [exact Hsel|].
    rewrite Z.mul_comm, Z.mod_add by lia. symmetry. apply Z.mod_small. lia. }
  rewrite Hs0 in Hres. exists j0.
  split; [exact Hj|]. split; [exact Hres|]. split; [| split; assumption].
  rewrite Hres, setSelected_selected.
  rewrite (normalized_same_actions _ m) by reflexivity.
  apply normalized_in_range; [|exact Hn].
  rewrite nav_pos_valid by exact Hv. apply Z.mod_pos_bound. lia.
Qed.

(** X23. Stepping forth and back.  From a selected item that is enabled
    and no separator, Down followed by Up, and Up followed by Down,
    lead back to that item, whatever disabled items and separators lie
    in between and whether or not the step wrapped around; the menu is
    then in keyboard-selection mode. *)
Theorem step_forth_and_back (key : Key) (m : Menu) :
  key = Key_Up \/ key = Key_Down ->
  menu_ok m ->
  0 <= _selected m ->
  selectable (action_at m (_selected m)) = true ->
  _selected (handleKeyPress (opposite_key key) (handleKeyPress key m))
  = _selected m
  /\ _mouseSelection (handleKeyPress (opposite_key key) (handleKeyPress key m))
     = false.
Proof.
  intros Hk ((_ & Hn) & (Hs & _)) H0 Hsel.
  assert (Hv : 0 <= _selected m < size_of (_actions m))
    by (destruct Hs; lia).
  set (n := size_of (_actions m)) in *.
  assert (Hk' : opposite_key key = Key_Up \/ opposite_key key = Key_Down)
    by (destruct Hk as [-> | ->]; simpl; auto).
  assert (Hd : nav_delta (opposite_key key) = - nav_delta key)
    by (destruct Hk as [-> | ->]; reflexivity).
  destruct (step_selects key m Hk Hn Hv Hsel)
    as (j0 & Hj0 & Hres & Hsel1 & Hs0 & Hbefore).
  set (m1 := handleKeyPress key m) in *.
  assert (Hl1 : same_layout m m1).
  { rewrite Hres. auto with frame. }
  pose proof Hl1 as (_ & Hact1 & _).
  assert (Hp0 : nav_pos key m j0 = (_selected m + j0 * nav_delta key) mod n)
    by (apply nav_pos_valid; exact Hv).
  assert (Hv1 : 0 <= _selected m1 < size_of (_actions m1)).
  { rewrite Hsel1, Hact1, Hp0. apply Z.mod_pos_bound. lia. }
  assert (Hback : forall j,
            nav_pos (opposite_key key) m1 j
            = (_selected m + (j0 - j) * nav_delta key) mod n).
  { intros j. rewrite nav_pos_valid by exact Hv1.
    rewrite Hsel1, Hact1, Hp0, Hd. fold n.
    rewrite Z.add_mod_idemp_l by lia. f_equal. lia. }
  assert (Hhome : nav_pos (opposite_key key) m1 j0 = _selected m).
  { rewrite Hback, Z.sub_diag, Z.mul_0_l, Z.add_0_r. apply Z.mod_small. lia. }
  assert (Hsel1' : selectable (action_at m1 (_selected m1)) = true).
  { rewrite (action_at_same_actions m m1 _ Hact1), Hsel1. exact Hs0. }
  destruct (step_selects (opposite_key key) m1 Hk')
    as (j1 & Hj1 & Hres2 & Hsel2 & Hs1 & Hbefore1);
    [now rewrite Hact1 | exact Hv1 | exact Hsel1' |].
  assert (Hj : j1 = j0).
  { destruct (Z.lt_trichotomy j1 j0) as [Hlt | [Heq | Hgt]]; [| exact Heq |].
    - exfalso.
      rewrite (action_at_same_actions m m1 _ Hact1), Hback in Hs1.
      pose proof (Hbefore (j0 - j1) ltac:(lia)) as Hb.
      rewrite nav_pos_valid in Hb by exact Hv. fold n in Hb. congruence.
    - exfalso.
      pose proof (Hbefore1 j0 ltac:(lia)) as Hb.
      rewrite (action_at_same_actions m m1 _ Hact1), Hhome in Hb. congruence. }
  subst j1. rewrite Hsel2, Hhome. split; [reflexivity|].
  rewrite Hres2, setSelected_mouseSelection. reflexivity.
Qed.

Lemma step_forth_and_back_witness :
  _selected (handleKeyPress Key_Down demo_menu_keyboard) = 3
  /\ _selected (handleKeyPress Key_Up
                  (handleKeyPress Key_Down demo_menu_keyboard)) = 0.
Proof.
  assert (Hok : menu_ok demo_menu_keyboard).
  { vm_compute. split; [split; [reflexivity | discriminate] |].
    split; [right; split; [discriminate | reflexivity] | left; reflexivity]. }
  assert (H0 : 0 <= _selected demo_menu_keyboard) by (vm_compute; discriminate).
  split; [reflexivity|].
  exact (proj1 (step_forth_and_back Key_Down demo_menu_keyboard
                  (or_intror eq_refl) Hok H0 eq_refl)).
Defined.

(** ** Ripples *)

Create HintDb ripples.

Lemma ripple_free_same_data (m m' : Menu) :
  _actionsData m' = _actionsData m -> ripple_free m -> ripple_free m'.
Proof. unfold ripple_free. now intros ->. Qed.

Lemma ripple_free_alter_data f (j : Z) (m : Menu) :
  (forall d, ripple d = None -> ripple (f d) = None) ->
  ripple_free m -> ripple_free (alter_data f j m).
Proof.
  intros Hf H i d' Hl. rewrite alter_data_lookup in Hl.
  destruct ((0 <=? j) && (Z.to_nat j =? i)%nat); [|eauto].
  destruct (_actionsData m !! i) as [d|] eqn:E; [|discriminate Hl].
  injection Hl as <-. apply Hf. eapply H. exact E.
Qed.

Lemma ripple_toggle_setStyle s d : ripple (toggle_setStyle s d) = ripple d.
Proof. unfold toggle_setStyle. now destruct (toggle d). Qed.

Lemma ripple_processData st a i w d :
  ripple (fst (processData st a i w d)) = ripple d.
Proof. unfold processData. now case_match. Qed.

Lemma ripple_free_emit e m : ripple_free m -> ripple_free (emit e m).
Proof. now apply ripple_free_same_data. Qed.

Lemma ripple_free_set_mouseSelection b m :
  ripple_free m -> ripple_free (set_mouseSelection b m).
Proof. now apply ripple_free_same_data. Qed.

Lemma ripple_free_set_selected v m :
  ripple_free m -> ripple_free (set_selected v m).
Proof. now apply ripple_free_same_data. Qed.

Lemma ripple_free_set_pressed v m :
  ripple_free m -> ripple_free (set_pressed v m).
Proof. now apply ripple_free_same_data. Qed.

Lemma ripple_free_set_childShown b m :
  ripple_free m -> ripple_free (set_childShown b m).
Proof. now apply ripple_free_same_data. Qed.

Lemma ripple_free_set_cursor_pos p m :
  ripple_free m -> ripple_free (set_cursor_pos p m).
Proof. now apply ripple_free_same_data. Qed.

Lemma ripple_free_resize w h m : ripple_free m -> ripple_free (resize w h m).
Proof. now apply ripple_free_same_data. Qed.

Lemma ripple_free_set_actions acts m :
  ripple_free m -> ripple_free (set_actions acts m).
Proof. now apply ripple_free_same_data. Qed.

Lemma ripple_free_setForceWidth w m :
  ripple_free m -> ripple_free (setForceWidth w m).
Proof. now apply ripple_free_same_data. Qed.

Lemma ripple_free_notify_resized m :
  ripple_free m -> ripple_free (notify_resized m).
Proof.
  unfold notify_resized. destruct (_resizedCallback m); [|auto].
  apply ripple_free_emit.
Qed.

Lemma ripple_free_toggle_setStyle s j m :
  ripple_free m -> ripple_free (alter_data (toggle_setStyle s) j m).
Proof.
  apply ripple_free_alter_data. intros d. now rewrite ripple_toggle_setStyle.
Qed.

#[global] Hint Resolve ripple_free_emit ripple_free_set_mouseSelection
  ripple_free_set_selected ripple_free_set_pressed ripple_free_set_childShown
  ripple_free_set_cursor_pos ripple_free_resize ripple_free_set_actions
  ripple_free_setForceWidth ripple_free_notify_resized
  ripple_free_toggle_setStyle : ripples.

Lemma ripple_free_setSelected i m : ripple_free m -> ripple_free (setSelected i m).
Proof.
  intros H. unfold setSelected. cbv zeta. repeat case_match; auto 10 with ripples.
Qed.

Lemma ripple_free_setPressed i m : ripple_free m -> ripple_free (setPressed i m).
Proof.
  intros H. unfold setPressed. cbv zeta. repeat case_match; auto 10 with ripples.
Qed.

#[global] Hint Resolve ripple_free_setSelected ripple_free_setPressed : ripples.

Lemma ripple_free_itemReleased s m :
  ripple_free m -> ripple_free (itemReleased s m).
Proof.
  intros H. unfold itemReleased. cbv zeta.
  assert (Hr : forall j, ripple_free
            (alter_data
               (fun d => match ripple d with
                         | Some r => set_ripple (Some (ripple_lastStop r)) d
                         | None => d
                         end) j (setPressed (-1) m))).
  { intros j. apply ripple_free_alter_data; [|auto with ripples].
    intros d Hd. now rewrite Hd. }
  repeat case_match; auto with ripples.
Qed.

#[global] Hint Resolve ripple_free_itemReleased : ripples.

Lemma ripple_free_itemPressed_keyboard m :
  ripple_free m -> ripple_free (itemPressed Keyboard m).
Proof.
  intros H. unfold itemPressed. cbv zeta. cbn [is_Mouse andb].
  repeat case_match; auto with ripples.
Qed.

Lemma ripple_free_updateSelected p m :
  ripple_free m -> ripple_free (updateSelected p m).
Proof. intros H. unfold updateSelected. case_match; auto with ripples. Qed.

Lemma ripple_free_clearSelection m :
  ripple_free m -> ripple_free (clearSelection m).
Proof. intros H. unfold clearSelection. auto with ripples. Qed.

#[global] Hint Resolve ripple_free_itemPressed_keyboard
  ripple_free_updateSelected ripple_free_clearSelection : ripples.

Lemma ripple_free_clearMouseSelection m :
  ripple_free m -> ripple_free (clearMouseSelection m).
Proof. intros H. unfold clearMouseSelection. case_match; auto with ripples. Qed.

#[global] Hint Resolve ripple_free_clearMouseSelection : ripples.

Lemma ripple_free_handleMouseMove p m :
  ripple_free m -> ripple_free (handleMouseMove p m).
Proof.
  intros H. unfold handleMouseMove. cbv zeta.
  repeat case_match; auto with ripples.
Qed.

#[global] Hint Resolve ripple_free_handleMouseMove : ripples.

Lemma ripple_free_handleMouseRelease p m :
  ripple_free m -> ripple_free (handleMouseRelease p m).
Proof.
  intros H. unfold handleMouseRelease. cbv zeta.
  repeat case_match; auto with ripples.
Qed.

Lemma ripple_free_handleKeyPress_navigate k m :
  ripple_free m -> ripple_free (handleKeyPress_navigate k m).
Proof.
  intros H. unfold handleKeyPress_navigate. cbv zeta.
  repeat case_match; auto with ripples.
Qed.

#[global] Hint Resolve ripple_free_handleMouseRelease
  ripple_free_handleKeyPress_navigate : ripples.

Lemma ripple_free_handleKeyPress k m :
  ripple_free m -> ripple_free (handleKeyPress k m).
Proof.
  intros H. unfold handleKeyPress. repeat case_match; auto with ripples.
Qed.

#[global] Hint Resolve ripple_free_handleKeyPress : ripples.

Lemma ripple_free_keyPressEvent k m :
  ripple_free m -> ripple_free (keyPressEvent k m).
Proof.
  intros H. unfold keyPressEvent. repeat case_match; auto with ripples.
Qed.

Lemma ripple_free_enterEventHook m :
  ripple_free m -> ripple_free (enterEventHook m).
Proof. intros H. unfold enterEventHook. case_match; auto with ripples. Qed.

Lemma ripple_free_setShowSource s m :
  ripple_free m -> ripple_free (setShowSource s m).
Proof. intros H. unfold setShowSource. cbv zeta. auto with ripples. Qed.

Lemma ripple_free_finishAnimating m : ripple_free (finishAnimating m).
Proof.
  intros i d Hl. unfold finishAnimating in Hl.
  cbn [_actionsData set_actionsData] in Hl. rewrite list_lookup_fmap in Hl.
  destruct (_actionsData m !! i) as [d0|]; [|discriminate Hl].
  injection Hl as <-. reflexivity.
Qed.

Lemma ripple_free_processAction a (i w : Z) m :
  ripple_free m -> ripple_free (fst (processAction a i w m)).
Proof.
  intros H. unfold processAction. cbn [fst].
  apply ripple_free_alter_data; [|exact H].
  intros d Hd. now rewrite ripple_processData.
Qed.

Lemma ripple_free_actionChanged_loop acts (i w : Z) m :
  ripple_free m -> ripple_free (fst (actionChanged_loop acts i w m)).
Proof.
  revert i w m. induction acts as [|a acts IH]; intros i w m H; [exact H|].
  cbn [actionChanged_loop].
  pose proof (ripple_free_processAction a i w m H) as Hp.
  destruct (processAction a i w m) as [m1 w1]. apply IH. exact Hp.
Qed.

Lemma ripple_free_actionChanged m :
  ripple_free m -> ripple_free (actionChanged m).
Proof.
  intros H. unfold actionChanged.
  pose proof (ripple_free_actionChanged_loop (_actions m) 0
                (widthMin (_st m)) m H) as Hl.
  destruct (actionChanged_loop (_actions m) 0 (widthMin (_st m)) m) as [m1 w].
  cbn [fst] in Hl. case_match; auto with ripples.
Qed.

Lemma ripple_free_addAction a ic io m :
  ripple_free m -> ripple_free (addAction a ic io m).
Proof.
  intros H. unfold addAction. cbv zeta.
  set (m1 := set_actionsData (_actionsData m ++ [addAction_data a ic io])
               (set_actions (_actions m ++ [a]) m)).
  assert (H1 : ripple_free m1).
  { intros i d Hl. cbn [m1 _actionsData set_actionsData set_actions] in Hl.
    apply lookup_app_Some in Hl as [Hl' | (_ & Hl')].
    - eapply H; eassumption.
    - destruct (i - length (_actionsData m))%nat; [|discriminate Hl'].
      injection Hl' as <-. reflexivity. }
  pose proof (ripple_free_processAction a
                (to_int (as_size_t (size_of (_actions m1) - 1)))
                (Z.max (width m1) (widthMin (_st m1))) m1 H1) as Hp.
  destruct (processAction a _ _ m1) as [m2 w2]. cbn [fst] in Hp.
  auto with ripples.
Qed.

Lemma ripple_free_clearActions m : ripple_free (clearActions m).
Proof.
  unfold clearActions. cbv zeta. apply ripple_free_notify_resized.
  intros i d Hl. discriminate Hl.
Qed.

Lemma ripple_free_run_op (o : Op) (m : Menu) :
  is_pointer_press o = false -> ripple_free m -> ripple_free (run_op o m).
Proof.
  intros Ho H.
  destruct o as [| | | | | | | | | | | | | | | | | | | s | |];
    try discriminate Ho;
    cbn [run_op]; unfold leaveEventHook, addSeparator;
    auto using ripple_free_addAction, ripple_free_clearActions,
      ripple_free_finishAnimating, ripple_free_setShowSource,
      ripple_free_actionChanged, ripple_free_keyPressEvent,
      ripple_free_enterEventHook with ripples.
  destruct s; [discriminate Ho | auto with ripples].
Qed.

(** X24. Ripples come from pointer presses only.  In a menu without
    ripple animations, no run of operations that contains no pointer
    press creates one: keyboard presses, hovering, releases, appending
    and changing actions leave every action without a ripple.  And
    [finishAnimating] leaves no ripple on any action, whatever was
    running before. *)
Theorem ripples_only_from_pointer_press (ops : list Op) (m m0 : Menu) :
  forallb (fun o => negb (is_pointer_press o)) ops = true ->
  ripple_free m ->
  ripple_free (run_ops ops m)
  /\ ripple_free (finishAnimating m0)
  /\ ripple_free (run_ops ops (finishAnimating m0)).
Proof.
  intros Hops.
  assert (Hgen : forall m1, ripple_free m1 -> ripple_free (run_ops ops m1)).
  { clear m. induction ops as [|o ops IH]; intros m1 H1; [exact H1|].
    cbn [forallb] in Hops. apply andb_true_iff in Hops as (Ho & Hrest).
    apply negb_true_iff in Ho.
    unfold run_ops in *. cbn [fold_left].
    apply IH; [exact Hrest | now apply ripple_free_run_op]. }
  intros H. split; [now apply Hgen|].
  split; [apply ripple_free_finishAnimating|].
  apply Hgen, ripple_free_finishAnimating.
Qed.

Lemma ripples_only_from_pointer_press_witness :
  ripple_free
    (run_ops [ Op_handleKeyPress Key_Down; Op_handleKeyPress Key_Return;
               Op_handleMouseMove {| point_x := 10; point_y := 90 |};
               Op_handleMouseRelease {| point_x := 10; point_y := 90 |} ]
             demo_menu_keyboard)
  /\ ripple (data_at (handleMousePress {| point_x := 10; point_y := 90 |}
                        demo_menu) 3)
     = Some [({| point_x := 0; point_y := -79 |}, false)].
Proof.
  assert (H : ripple_free demo_menu_keyboard).
  { intros i d Hl.
    destruct i as [|[|[|[|i]]]]; vm_compute in Hl; try discriminate Hl;
      injection Hl as <-; reflexivity. }
  split; [|reflexivity].
  exact (proj1 (ripples_only_from_pointer_press
                  [ Op_handleKeyPress Key_Down; Op_handleKeyPress Key_Return;
                    Op_handleMouseMove {| point_x := 10; point_y := 90 |};
                    Op_handleMouseRelease {| point_x := 10; point_y := 90 |} ]
                  demo_menu_keyboard demo_menu eq_refl H)).
Defined.

(* ================================================================== *)
(** * The label parser, continued *)

(** ** The label parser on whole labels *)

Lemma append_cons (x : ascii) (t u : string) :
  String x t +:+ u = String x (t +:+ u).
Proof. reflexivity. Qed.

Lemma append_snoc_cons (t : string) (c : ascii) (s : string) :
  (t +:+ String c EmptyString) +:+ s = t +:+ String c s.
Proof.
  induction t as [|x t IH]; [reflexivity|].
  now rewrite !append_cons, IH.
Qed.

Lemma append_empty_r (t : string) : t +:+ EmptyString = t.
Proof.
  induction t as [|x t IH]; [reflexivity|].
  now rewrite append_cons, IH.
Qed.

Lemma ParseMenuItem_loop_doubled (r : TextWithEntities) (s : string) :
  ParseMenuItem_loop {| result := r; afterAmpersand := false |}
                     (double_ampersands s)
  = {| result := {| text := text r +:+ s; entities := entities r |};
       afterAmpersand := false |}.
Proof.
  revert r. induction s as [|c s IH]; intros r.
  - simpl. rewrite append_empty_r. now destruct r.
  - cbn [double_ampersands].
    destruct (Ascii.eqb c ampersand) eqn:E.
    + apply Ascii.eqb_eq in E. subst c.
      cbn [ParseMenuItem_loop]. unfold ParseMenuItem_step at 2.
      cbn [afterAmpersand]. rewrite Ascii.eqb_refl.
      unfold ParseMenuItem_step. cbn [afterAmpersand result].
      rewrite Ascii.eqb_refl, IH. unfold text_append. cbn [text entities].
      now rewrite append_snoc_cons.
    + cbn [ParseMenuItem_loop]. unfold ParseMenuItem_step.
      cbn [afterAmpersand result]. rewrite E, IH.
      unfold text_append. cbn [text entities].
      now rewrite append_snoc_cons.
Qed.

Lemma double_ampersands_none (s : string) :
  has_char ampersand s = false -> double_ampersands s = s.
Proof.
  induction s as [|c s IH]; simpl; intros H; [reflexivity|].
  apply orb_false_iff in H as (Hc & Hs). now rewrite Hc, (IH Hs).
Qed.

(** X12. A label in which every ampersand is written twice is shown
    literally: parsing the doubled form of [s] gives the text [s] and no
    underline.  In particular a label without any ampersand is its own
    display text. *)
Theorem ParseMenuItem_doubled_ampersands (s : string) :
  ParseMenuItem (double_ampersands s) = {| text := s; entities := [] |}
  /\ (has_char ampersand s = false ->
      ParseMenuItem s = {| text := s; entities := [] |}).
Proof.
  assert (H : ParseMenuItem (double_ampersands s)
              = {| text := s; entities := [] |}).
  { unfold ParseMenuItem, ParseMenuItem_init.
    now rewrite ParseMenuItem_loop_doubled. }
  split; [exact H|].
  intros Hn. now rewrite <- (double_ampersands_none s Hn) at 1.
Qed.

Lemma ParseMenuItem_doubled_ampersands_witness :
  ParseMenuItem "Save && Exit" = {| text := "Save & Exit"; entities := [] |}
  /\ ParseMenuItem "Close" = {| text := "Close"; entities := [] |}.
Proof.
  split.
  - exact (proj1 (ParseMenuItem_doubled_ampersands "Save & Exit")).
  - exact (proj2 (ParseMenuItem_doubled_ampersands "Close") eq_refl).
Defined.

(** What the scan has consumed so far against what it has produced. *)
Lemma ParseMenuItem_step_measure (s : ParseState) (ch : ascii) :
  text_size (result (ParseMenuItem_step s ch))
  + size_of (entities (result (ParseMenuItem_step s ch)))
  + (if afterAmpersand (ParseMenuItem_step s ch) then 1 else 0)
  <= text_size (result s) + size_of (entities (result s))
     + (if afterAmpersand s then 1 else 0) + 1.
Proof.
  unfold ParseMenuItem_step, text_size, size_of, text_append, entities_append.
  destruct (afterAmpersand s); destruct (Ascii.eqb ch ampersand);
    cbn [result afterAmpersand text entities];
    rewrite ?String_length_snoc, ?length_app; simpl; lia.
Qed.

Lemma ParseMenuItem_loop_measure (t : string) (s : ParseState) :
  text_size (result (ParseMenuItem_loop s t))
  + size_of (entities (result (ParseMenuItem_loop s t)))
  + (if afterAmpersand (ParseMenuItem_loop s t) then 1 else 0)
  <= text_size (result s) + size_of (entities (result s))
     + (if afterAmpersand s then 1 else 0) + Z.of_nat (String.length t).
Proof.
  revert s. induction t as [|c t IH]; intros s.
  - simpl. lia.
  - cbn [ParseMenuItem_loop String.length].
    pose proof (IH (ParseMenuItem_step s c)).
    pose proof (ParseMenuItem_step_measure s c). lia.
Qed.

Lemma ParseMenuItem_step_sorted (s : ParseState) (ch : ascii) :
  entities_in_text (result s) ->
  StronglySorted Z.lt (entity_offsets (result s)) ->
  StronglySorted Z.lt (entity_offsets (result (ParseMenuItem_step s ch))).
Proof.
  intros Hin Hs. unfold ParseMenuItem_step, entity_offsets in *.
  destruct (afterAmpersand s); destruct (Ascii.eqb ch ampersand);
    cbn [result text_append entities_append entities]; try exact Hs.
  rewrite map_app. cbn [map entity_offset].
  unfold entities_in_text in Hin.
  induction (entities (result s)) as [|e es IHe]; simpl.
  - repeat constructor.
  - apply StronglySorted_inv in Hs as (Hs1 & Hs2).
    apply Forall_cons in Hin as ((_ & He & _) & Hin).
    constructor; [now apply IHe|].
    apply Forall_app. split; [exact Hs2|].
    repeat constructor. lia.
Qed.

Lemma ParseMenuItem_loop_sorted (t : string) (s : ParseState) :
  entities_in_text (result s) ->
  StronglySorted Z.lt (entity_offsets (result s)) ->
  StronglySorted Z.lt (entity_offsets (result (ParseMenuItem_loop s t))).
Proof.
  revert s. induction t as [|c t IH]; intros s Hin Hs; [exact Hs|].
  cbn [ParseMenuItem_loop]. apply IH.
  - now apply ParseMenuItem_step_entities.
  - now apply ParseMenuItem_step_sorted.
Qed.

(** X13. For every label: each entity the parser produces is an
    underline of length one on a character of the produced text; the
    entities come in strictly increasing order of their offsets, so no
    character is underlined twice; and the produced text together with
    the entities is no longer than the label, every underline having
    cost one ampersand. *)
Theorem ParseMenuItem_entities_ordered (t : string) :
  entities_in_text (ParseMenuItem t)
  /\ StronglySorted Z.lt (entity_offsets (ParseMenuItem t))
  /\ text_size (ParseMenuItem t) + size_of (entities (ParseMenuItem t))
     <= Z.of_nat (String.length t).
Proof.
  unfold ParseMenuItem. split; [| split].
  - apply ParseMenuItem_loop_entities. constructor.
  - apply ParseMenuItem_loop_sorted; constructor.
  - pose proof (ParseMenuItem_loop_measure t ParseMenuItem_init) as H.
    unfold text_size, size_of in *. cbn [ParseMenuItem_init result afterAmpersand
      emptyText text entities String.length length] in H.
    destruct (afterAmpersand (ParseMenuItem_loop ParseMenuItem_init t)); lia.
Qed.

(* ================================================================== *)
(** * The settings manager, continued *)

(** ** Bursts of write requests *)

Lemma write_burst_pending (delays : list Z) (opens : bool) (g : Manager) (r : Z) :
  remaining (_jsonWriteTimer g) = Some r ->
  Forall (fun d => 0 <= d) delays ->
  total_delay delays < r ->
  remaining (_jsonWriteTimer (write_burst delays opens g))
  = Some (r - total_delay delays)
  /\ custom_writes (write_burst delays opens g) = custom_writes g
  /\ singleShot (_jsonWriteTimer (write_burst delays opens g))
     = singleShot (_jsonWriteTimer g).
Proof.
  revert g r. induction delays as [|d rest IH]; intros g r Hr Hpos Hsum.
  - simpl. rewrite Hr. repeat split. f_equal. unfold total_delay. simpl. lia.
  - apply Forall_cons in Hpos as (Hd & Hpos).
    unfold total_delay in *. cbn [fold_right] in *.
    cbn [write_burst].
    assert (Hw : write false opens g = g).
    { unfold write, isActive. rewrite Hr. reflexivity. }
    rewrite Hw.
    assert (He : remaining (_jsonWriteTimer (elapse d opens g)) = Some (r - d)
                 /\ custom_writes (elapse d opens g) = custom_writes g
                 /\ singleShot (_jsonWriteTimer (elapse d opens g))
                    = singleShot (_jsonWriteTimer g)).
    { unfold elapse. rewrite Hr.
      assert (0 <= fold_right Z.add 0 rest).
      { clear -Hpos. induction Hpos; simpl; lia. }
      destruct (Z.leb_spec r d); [lia|]. repeat split. }
    destruct He as (E1 & E2 & E3).
    assert (0 <= fold_right Z.add 0 rest).
    { clear -Hpos. induction Hpos; simpl; lia. }
    destruct (IH (elapse d opens g) (r - d) E1 Hpos) as (I1 & I2 & I3); [lia|].
    rewrite I1, I2, I3, E2, E3. repeat split. f_equal. lia.
Qed.

(** X14. Requests that are not forced are coalesced, and the deadline is
    that of the first one.  On a manager whose single-shot timer is not
    running, a burst of requests spread over less than 5000 ms writes
    nothing and leaves the timer with what is left of the 5000 ms counted
    from the first request: the later requests neither write nor push the
    deadline back.  Once that remainder has gone by the file is written
    exactly once, the timer is no longer running, and nothing more is
    written however long one waits. *)
Theorem write_requests_coalesce
    (d : Z) (delays : list Z) (ms later : Z) (g : Manager) :
  isActive (_jsonWriteTimer g) = false ->
  singleShot (_jsonWriteTimer g) = true ->
  Forall (fun d => 0 <= d) (d :: delays) ->
  total_delay (d :: delays) < kWriteJsonTimeout ->
  kWriteJsonTimeout - total_delay (d :: delays) <= ms ->
  let g1 := write_burst (d :: delays) true g in
  custom_writes g1 = custom_writes g
  /\ remaining (_jsonWriteTimer g1)
     = Some (kWriteJsonTimeout - total_delay (d :: delays))
  /\ custom_writes (elapse ms true g1) = S (custom_writes g)
  /\ isActive (_jsonWriteTimer (elapse ms true g1)) = false
  /\ custom_writes (elapse later true (elapse ms true g1))
     = S (custom_writes g).
Proof.
  intros Hact Hss Hpos Hsum Hms g1.
  assert (Hstart : write false true g
                   = {| _jsonWriteTimer :=
                          start kWriteJsonTimeout (_jsonWriteTimer g);
                        custom_writes := custom_writes g |}).
  { unfold write. rewrite Hact. reflexivity. }
  set (g0 := {| _jsonWriteTimer := start kWriteJsonTimeout (_jsonWriteTimer g);
                custom_writes := custom_writes g |}) in *.
  assert (Hb : write_burst (d :: delays) true g0 = g1).
  { unfold g1. cbn [write_burst]. rewrite Hstart.
    assert (Hw : write false true g0 = g0) by reflexivity.
    now rewrite Hw. }
  destruct (write_burst_pending (d :: delays) true g0 kWriteJsonTimeout
              eq_refl Hpos Hsum) as (B1 & B2 & B3).
  rewrite Hb in B1, B2, B3. cbn [g0 custom_writes] in B2.
  cbn [g0 _jsonWriteTimer start singleShot] in B3. rewrite Hss in B3.
  split; [exact B2|]. split; [exact B1|].
  assert (Hfire : elapse ms true g1
                  = {| _jsonWriteTimer := stop (_jsonWriteTimer g1);
                       custom_writes := S (custom_writes g) |}).
  { unfold elapse. rewrite B1, B3.
    destruct (Z.leb_spec (kWriteJsonTimeout - total_delay (d :: delays)) ms);
      [|lia].
    unfold writeTimeout, writeCurrentSettings. cbn [negb].
    cbn [_jsonWriteTimer isActive stop remaining custom_writes].
    now rewrite B2. }
  rewrite Hfire. repeat split.
Qed.

Lemma write_requests_coalesce_witness :
  custom_writes (write_burst [1000; 1500; 2000] true Manager_new) = 0%nat
  /\ remaining (_jsonWriteTimer (write_burst [1000; 1500; 2000] true Manager_new))
     = Some 500
  /\ custom_writes
       (elapse 500 true (write_burst [1000; 1500; 2000] true Manager_new))
     = 1%nat.
Proof.
  assert (Hpos : Forall (fun d => 0 <= d) [1000; 1500; 2000])
    by (repeat constructor; discriminate).
  assert (Hsum : total_delay [1000; 1500; 2000] < kWriteJsonTimeout)
    by reflexivity.
  assert (Hms : kWriteJsonTimeout - total_delay [1000; 1500; 2000] <= 500)
    by discriminate.
  pose proof (write_requests_coalesce 1000 [1500; 2000] 500 0 Manager_new
                eq_refl eq_refl Hpos Hsum Hms) as (H1 & H2 & H3 & _).
  split; [exact H1|]. split; [exact H2 | exact H3].
Defined.

(** X15. A write that finds the file not writable is dropped, not
    retried.  When the single-shot timer runs out, or a forced write
    flushes a pending request, while the custom file cannot be opened,
    nothing is written, the timer is left stopped, and no later passage
    of time writes anything: only a new request starts the timer
    again. *)
Theorem failed_write_is_dropped (g : Manager) (r ms later : Z) (opens : bool) :
  remaining (_jsonWriteTimer g) = Some r ->
  singleShot (_jsonWriteTimer g) = true ->
  r <= ms ->
  (custom_writes (elapse ms false g) = custom_writes g
   /\ isActive (_jsonWriteTimer (elapse ms false g)) = false
   /\ elapse later opens (elapse ms false g) = elapse ms false g)
  /\ (custom_writes (write true false g) = custom_writes g
      /\ isActive (_jsonWriteTimer (write true false g)) = false
      /\ elapse later opens (write true false g) = write true false g)
  /\ remaining (_jsonWriteTimer (write false opens (write true false g)))
     = Some kWriteJsonTimeout.
Proof.
  intros Hr Hss Hms.
  assert (E1 : elapse ms false g
               = {| _jsonWriteTimer := stop (_jsonWriteTimer g);
                    custom_writes := custom_writes g |}).
  { unfold elapse. rewrite Hr, Hss.
    destruct (Z.leb_spec r ms); [reflexivity | lia]. }
  assert (E2 : write true false g
               = {| _jsonWriteTimer := stop (_jsonWriteTimer g);
                    custom_writes := custom_writes g |}).
  { unfold write, isActive. rewrite Hr. reflexivity. }
  rewrite E1, E2. repeat split.
Qed.

Lemma failed_write_is_dropped_witness :
  let g := write false true Manager_new in
  custom_writes (elapse 1000 true (write true false g)) = 0%nat
  /\ custom_writes (elapse 9000 true (elapse 5000 false g)) = 0%nat.
Proof.
  assert (H56 : 5000 <= 5000) by discriminate.
  pose proof (failed_write_is_dropped (write false true Manager_new)
                5000 5000 1000 true eq_refl eq_refl H56)
    as (_ & (_ & _ & H2) & _).
  pose proof (failed_write_is_dropped (write false true Manager_new)
                5000 5000 9000 true eq_refl eq_refl H56)
    as ((_ & _ & H1) & _).
  split.
  - rewrite H2. reflexivity.
  - rewrite H1. reflexivity.
Defined.

(** ** Reading and writing the settings files *)

Lemma writeDefaultFile_custom (v : Z) (s : Settings) :
  CustomFilePath (writeDefaultFile v s) = CustomFilePath s
  /\ fonts (writeDefaultFile v s) = fonts s
  /\ default_custom_resource (writeDefaultFile v s) = default_custom_resource s.
Proof. unfold writeDefaultFile. now destruct (write_ok (DefaultFilePath s)). Qed.

Lemma readCustomFile_spec (s : Settings) :
  fst (readCustomFile s) = file_exists (CustomFilePath s)
  /\ CustomFilePath (snd (readCustomFile s)) = CustomFilePath s
  /\ DefaultFilePath (snd (readCustomFile s)) = DefaultFilePath s
  /\ default_custom_resource (snd (readCustomFile s)) = default_custom_resource s
  /\ (fonts (snd (readCustomFile s)) = fonts s
      \/ exists settings settingsFonts,
           open_ReadOnly (CustomFilePath s) = Some (Document (JObject settings))
           /\ settings !! "fonts" = Some (JObject settingsFonts)
           /\ fonts (snd (readCustomFile s))
              = readCustomFile_fonts settingsFonts (fonts s)).
Proof.
  unfold readCustomFile.
  destruct (file_exists (CustomFilePath s)); cbn [negb]; [|simpl; tauto].
  destruct (open_ReadOnly (CustomFilePath s)) as [[|[| | | | |settings]]|];
    try (simpl; tauto).
  destruct (QJsonObject_isEmpty settings); [simpl; tauto|].
  destruct (settings !! "fonts") as [[| | | | |settingsFonts]|] eqn:E;
    try (simpl; tauto).
  simpl. repeat (split; [reflexivity|]). right. eauto.
Qed.

(** X16. [fill] and the custom settings file.  A custom file that exists
    is never written by [fill], whatever it holds: a file that cannot be
    opened or parsed, that holds no object, or an empty one, counts as
    read.  Only when no custom file exists is one made, as a copy of the
    bundled default, provided the copy can be made; the settings in
    memory are then left alone.  The settings in memory change only
    through the [fonts] object of a custom file that holds an object. *)
Theorem fill_keeps_existing_custom_file (AppKotatoVersion : Z) (s : Settings) :
  (file_exists (CustomFilePath s) = true ->
   CustomFilePath (fill AppKotatoVersion s) = CustomFilePath s)
  /\ (file_exists (CustomFilePath s) = false ->
      fonts (fill AppKotatoVersion s) = fonts s
      /\ CustomFilePath (fill AppKotatoVersion s)
         = match open_ReadOnly (default_custom_resource s) with
           | Some data =>
               if write_ok (CustomFilePath s)
               then written data (CustomFilePath s) else CustomFilePath s
           | None => CustomFilePath s
           end)
  /\ (fonts (fill AppKotatoVersion s) <> fonts s ->
      exists settings settingsFonts,
        open_ReadOnly (CustomFilePath s) = Some (Document (JObject settings))
        /\ settings !! "fonts" = Some (JObject settingsFonts)
        /\ fonts (fill AppKotatoVersion s)
           = readCustomFile_fonts settingsFonts (fonts s)).
Proof.
  unfold fill.
  set (s1 := if negb (DefaultFileIsValid AppKotatoVersion s)
             then writeDefaultFile AppKotatoVersion s else s).
  assert (H1 : CustomFilePath s1 = CustomFilePath s
               /\ fonts s1 = fonts s
               /\ default_custom_resource s1 = default_custom_resource s).
  { unfold s1. destruct (negb (DefaultFileIsValid AppKotatoVersion s));
      [apply writeDefaultFile_custom | tauto]. }
  destruct H1 as (Hc & Hf & Hr).
  destruct (readCustomFile_spec s1) as (R1 & R2 & _ & R4 & R5).
  destruct (readCustomFile s1) as [ok s2]. cbn [fst snd] in *.
  rewrite Hc in R1, R2, R5. rewrite Hf in R5. rewrite Hr in R4.
  split; [| split].
  - intros He. rewrite He in R1. subst ok. exact R2.
  - intros He. rewrite He in R1. subst ok. cbn [negb].
    unfold WriteDefaultCustomFile. rewrite R4, R2.
    assert (Hfs : fonts s2 = fonts s).
    { destruct R5 as [R5 | (o & o' & Ho & _)]; [exact R5|].
      unfold open_ReadOnly, file_exists in *.
      destruct (read_ok (CustomFilePath s)); [|discriminate Ho].
      rewrite Ho in He. discriminate He. }
    destruct (open_ReadOnly (default_custom_resource s)) as [data|];
      [| now split].
    destruct (write_ok (CustomFilePath s)); now split.
  - intros Hne.
    assert (Hfs : fonts (if negb ok then WriteDefaultCustomFile s2 else s2)
                  = fonts s2).
    { destruct ok; [reflexivity|]. cbn [negb]. unfold WriteDefaultCustomFile.
      destruct (open_ReadOnly (default_custom_resource s2)); [|reflexivity].
      now destruct (write_ok (CustomFilePath s2)). }
    rewrite Hfs in *.
    destruct R5 as [R5 | (o & o' & Ho & Ho' & Hx)]; [congruence|].
    exists o, o'. auto.
Qed.

Lemma readCustomFile_fonts_written (f f0 : Fonts) :
  readCustomFile_fonts (writeCurrentSettings_fonts f) f0
  = {| cMainFont := if isEmpty (cMainFont f) then cMainFont f0
                    else cMainFont f;
       cSemiboldFont := if isEmpty (cSemiboldFont f) then cSemiboldFont f0
                        else cSemiboldFont f;
       cSemiboldFontIsBold := cSemiboldFontIsBold f;
       cMonospaceFont := if isEmpty (cMonospaceFont f) then cMonospaceFont f0
                         else cMonospaceFont f |}.
Proof.
  destruct (isEmpty (cMainFont f)) eqn:E1,
    (isEmpty (cSemiboldFont f)) eqn:E2,
    (isEmpty (cMonospaceFont f)) eqn:E3;
    unfold writeCurrentSettings_fonts; rewrite E1, E2, E3;
    vm_compute; reflexivity.
Qed.

(** X17. Reading back the custom file that [writeCurrentSettings] has
    written.  The file is read as a settings object; the flag that says
    whether the semibold font is bold comes back as written, and so does
    every font name that is not empty.  An empty font name is not
    written, so on reading the name in memory stays what it was.  In
    particular, reading the file back into the settings it was written
    from changes nothing. *)
Theorem written_settings_read_back (s : Settings) (f0 : Fonts) :
  write_ok (CustomFilePath s) = true ->
  read_ok (CustomFilePath s) = true ->
  let s' := writeCurrentSettings_file s in
  let f := fonts s in
  readCustomFile (set_fonts f0 s')
  = (true,
     set_fonts
       {| cMainFont := if isEmpty (cMainFont f) then cMainFont f0
                       else cMainFont f;
          cSemiboldFont := if isEmpty (cSemiboldFont f) then cSemiboldFont f0
                           else cSemiboldFont f;
          cSemiboldFontIsBold := cSemiboldFontIsBold f;
          cMonospaceFont := if isEmpty (cMonospaceFont f) then cMonospaceFont f0
                            else cMonospaceFont f |} s')
  /\ readCustomFile s' = (true, s').
Proof.
  intros Hw Hr s' f.
  assert (Hgen : forall f1,
            readCustomFile (set_fonts f1 s')
            = (true,
               set_fonts
                 {| cMainFont := if isEmpty (cMainFont f) then cMainFont f1
                                 else cMainFont f;
                    cSemiboldFont :=
                      if isEmpty (cSemiboldFont f) then cSemiboldFont f1
                      else cSemiboldFont f;
                    cSemiboldFontIsBold := cSemiboldFontIsBold f;
                    cMonospaceFont :=
                      if isEmpty (cMonospaceFont f) then cMonospaceFont f1
                      else cMonospaceFont f |} s')).
  { intros f1. unfold s', writeCurrentSettings_file. rewrite Hw. cbn [negb].
    unfold readCustomFile, set_fonts, set_CustomFilePath, written,
      file_exists, open_ReadOnly.
    cbn [CustomFilePath file_data read_ok negb DefaultFilePath
         default_custom_resource fonts write_ok].
    rewrite Hr. fold f.
    unfold writeCurrentSettings_document. cbv zeta.
    assert (He : QJsonObject_isEmpty
                   (<["fonts" := JObject (writeCurrentSettings_fonts f)]> ∅)
                 = false).
    { unfold QJsonObject_isEmpty.
      rewrite insert_empty, map_to_list_singleton. reflexivity. }
    rewrite He, lookup_insert_eq, readCustomFile_fonts_written.
    reflexivity. }
  split; [apply Hgen|].
  assert (Hm : {| cMainFont := if isEmpty (cMainFont f) then cMainFont f
                               else cMainFont f;
                  cSemiboldFont :=
                    if isEmpty (cSemiboldFont f) then cSemiboldFont f
                    else cSemiboldFont f;
                  cSemiboldFontIsBold := cSemiboldFontIsBold f;
                  cMonospaceFont :=
                    if isEmpty (cMonospaceFont f) then cMonospaceFont f
                    else cMonospaceFont f |} = f).
  { destruct f as [x y z w]. cbn [cMainFont cSemiboldFont cSemiboldFontIsBold
      cMonospaceFont].
    destruct (isEmpty x), (isEmpty y), (isEmpty w); reflexivity. }
  assert (Hs : set_fonts f s' = s').
  { unfold s', writeCurrentSettings_file, f. rewrite Hw.
    destruct s. reflexivity. }
  specialize (Hgen f). rewrite Hm, Hs in Hgen. exact Hgen.
Qed.

Lemma written_settings_read_back_witness :
  fonts (snd (readCustomFile
                (set_fonts {| cMainFont := "Open Sans";
                              cSemiboldFont := "Open Sans Semibold";
                              cSemiboldFontIsBold := false;
                              cMonospaceFont := "Consolas" |}
                   (writeCurrentSettings_file arial_settings))))
  = {| cMainFont := "Arial"; cSemiboldFont := "Open Sans Semibold";
       cSemiboldFontIsBold := true; cMonospaceFont := "Consolas" |}.
Proof.
  pose proof (written_settings_read_back arial_settings
                {| cMainFont := "Open Sans";
                   cSemiboldFont := "Open Sans Semibold";
                   cSemiboldFontIsBold := false;
                   cMonospaceFont := "Consolas" |} eq_refl eq_refl)
    as (H & _).
  cbv zeta in H. rewrite H. reflexivity.
Defined.

(** ** The version check of the default file *)

Lemma DefaultFileIsValid_spec (v : Z) (s : Settings) :
  DefaultFileIsValid v s = true
  <-> exists settings version,
        open_ReadOnly (DefaultFilePath s) = Some (Document (JObject settings))
        /\ settings !! "version" = Some version
        /\ toInt version = v.
Proof.
  unfold DefaultFileIsValid. split.
  - destruct (open_ReadOnly (DefaultFilePath s))
      as [[|[| | | | |settings]]|]; try discriminate.
    destruct (settings !! "version") as [version|] eqn:El; [|discriminate].
    destruct (Z.eqb_spec (toInt version) v) as [Et|]; [|discriminate].
    intros _. exists settings, version. auto.
  - intros (settings & version & -> & -> & <-).
    now rewrite Z.eqb_refl.
Qed.

Lemma toInt_not_0 (version : QJsonValue) :
  toInt version <> 0 -> version = JDouble (Some (toInt version)).
Proof.
  destruct version as [| |[z|]| | |]; simpl; intros H;
    try (exfalso; apply H; reflexivity).
  reflexivity.
Qed.

Lemma DefaultFileIsValid_same_file (v : Z) (s s' : Settings) :
  DefaultFilePath s' = DefaultFilePath s ->
  DefaultFileIsValid v s' = DefaultFileIsValid v s.
Proof. unfold DefaultFileIsValid. now intros ->. Qed.

Lemma fill_DefaultFilePath (v : Z) (s : Settings) :
  DefaultFilePath (fill v s)
  = DefaultFilePath (if negb (DefaultFileIsValid v s)
                     then writeDefaultFile v s else s).
Proof.
  unfold fill.
  set (s1 := if negb (DefaultFileIsValid v s) then writeDefaultFile v s else s).
  destruct (readCustomFile_spec s1) as (_ & _ & R3 & _).
  destruct (readCustomFile s1) as [ok s2]. cbn [snd] in R3.
  destruct ok; cbn [negb]; [exact R3|].
  unfold WriteDefaultCustomFile.
  destruct (open_ReadOnly (default_custom_resource s2)); [|exact R3].
  destruct (write_ok (CustomFilePath s2)); exact R3.
Qed.

(** X18. The version check of the default settings file.  The file passes
    exactly when it can be read as an object whose [version] member,
    taken as an [int], is the version of the application, and a member
    that is not a whole number is taken as 0: for a version other than 0
    the member has to be that number.  [writeDefaultFile] stores the
    version as a string, so the file it writes does not pass, even right
    after it was written.  Hence [fill] never turns a default file that
    does not pass into one that does: after a first start the file is
    found invalid, and written again, on every later start.  (For the
    version 0 the file written does pass.) *)
Theorem default_file_never_valid (AppKotatoVersion : Z) (s : Settings) :
  AppKotatoVersion <> 0 ->
  (DefaultFileIsValid AppKotatoVersion s = true ->
   exists settings,
     open_ReadOnly (DefaultFilePath s) = Some (Document (JObject settings))
     /\ settings !! "version" = Some (JDouble (Some AppKotatoVersion)))
  /\ (write_ok (DefaultFilePath s) = true ->
      DefaultFileIsValid AppKotatoVersion (writeDefaultFile AppKotatoVersion s)
      = false)
  /\ DefaultFileIsValid AppKotatoVersion (fill AppKotatoVersion s)
     = DefaultFileIsValid AppKotatoVersion s
  /\ (write_ok (DefaultFilePath s) = true ->
      read_ok (DefaultFilePath s) = true ->
      DefaultFileIsValid 0 (writeDefaultFile 0 s) = true).
Proof.
  intros Hv.
  assert (Hwritten : forall v, write_ok (DefaultFilePath s) = true ->
            DefaultFileIsValid v (writeDefaultFile v s)
            = read_ok (DefaultFilePath s) && (v =? 0)).
  { intros v Hw. unfold writeDefaultFile. rewrite Hw. cbn [negb].
    unfold DefaultFileIsValid, open_ReadOnly, set_DefaultFilePath, written.
    cbn [DefaultFilePath read_ok file_data].
    destruct (read_ok (DefaultFilePath s)); [|reflexivity].
    unfold writeDefaultFile_document. cbv zeta.
    rewrite lookup_insert_ne by discriminate.
    rewrite lookup_insert_eq. cbn [toInt andb].
    rewrite (Z.eqb_sym 0 v). now destruct (v =? 0). }
  assert (Hv0 : (AppKotatoVersion =? 0) = false) by now apply Z.eqb_neq.
  split; [| split; [| split]].
  - intros H. apply DefaultFileIsValid_spec in H
      as (settings & version & Ho & Hl & Ht).
    exists settings. split; [exact Ho|].
    rewrite Hl. f_equal. rewrite <- Ht. apply toInt_not_0. congruence.
  - intros Hw. rewrite (Hwritten _ Hw), Hv0. apply andb_false_r.
  - rewrite (DefaultFileIsValid_same_file _ _ _
               (fill_DefaultFilePath AppKotatoVersion s)).
    fold (DefaultFileIsValid AppKotatoVersion
            (if negb (DefaultFileIsValid AppKotatoVersion s)
             then writeDefaultFile AppKotatoVersion s else s)).
    destruct (DefaultFileIsValid AppKotatoVersion s) eqn:Hvalid; cbn [negb];
      [exact Hvalid|].
    destruct (write_ok (DefaultFilePath s)) eqn:Hw.
    + rewrite (Hwritten _ eq_refl), Hv0. apply andb_false_r.
    + unfold writeDefaultFile. rewrite Hw. exact Hvalid.
  - intros Hw Hr. rewrite (Hwritten 0 Hw), Hr. reflexivity.
Qed.

Lemma default_file_never_valid_witness :
  DefaultFileIsValid 1000004 (fill 1000004 first_start) = false
  /\ file_exists (DefaultFilePath (fill 1000004 first_start)) = true.
Proof.
  assert (Hv : 1000004 <> 0) by discriminate.
  pose proof (default_file_never_valid 1000004 first_start Hv)
    as (_ & _ & H & _).
  split; [rewrite H; reflexivity | reflexivity].
Defined.

(* ================================================================== *)
(** * The window helper *)

(** ** The system menu *)

Lemma updateSystemMenu_state_bits (toDisable : Z) (it : MENUITEMINFO) :
  let s' := updateSystemMenu_state toDisable it in
  Z.land s' (Z.lnot (Z.lor MFS_DISABLED MFS_DEFAULT)) = other_state_bits it
  /\ Z.land s' MFS_DEFAULT = 0
  /\ Z.land s' MFS_DISABLED
     = if (wID it =? toDisable)
          || (negb (wID it =? SC_MINIMIZE) && negb (wID it =? SC_MAXIMIZE)
              && negb (wID it =? SC_RESTORE))
       then MFS_DISABLED else 0.
Proof.
  unfold updateSystemMenu_state, other_state_bits. cbv zeta.
  set (n := Z.lnot (Z.lor MFS_DISABLED MFS_DEFAULT)).
  set (s := fState it).
  assert (N1 : Z.land n n = n) by apply Z.land_diag.
  assert (N2 : Z.land MFS_DISABLED n = 0) by reflexivity.
  assert (N3 : Z.land n MFS_DEFAULT = 0) by reflexivity.
  assert (N4 : Z.land n MFS_DISABLED = 0) by reflexivity.
  assert (N5 : Z.land MFS_DISABLED MFS_DEFAULT = 0) by reflexivity.
  assert (N6 : Z.land MFS_DISABLED MFS_DISABLED = MFS_DISABLED) by reflexivity.
  destruct ((wID it =? toDisable)
            || (negb (wID it =? SC_MINIMIZE) && negb (wID it =? SC_MAXIMIZE)
                && negb (wID it =? SC_RESTORE))).
  - rewrite !Z.land_lor_distr_l, <- !Z.land_assoc, N1, N2, N3, N4, N5, N6.
    rewrite !Z.land_0_r, !Z.lor_0_r, !Z.lor_0_l. repeat split.
  - rewrite <- !Z.land_assoc, N1, N3, N4, !Z.land_0_r. repeat split.
Qed.

Lemma updateSystemMenu_loop_reliable (toDisable : Z) (i : nat)
    (items : list MENUITEMINFO) :
  updateSystemMenu_loop toDisable (fun _ => true) (fun _ => true) i items
  = map (fun it => if updateSystemMenu_skips it then it
                   else {| fType := fType it;
                           fState := updateSystemMenu_state toDisable it;
                           wID := wID it |}) items.
Proof.
  revert i. induction items as [|it items IH]; intros i; [reflexivity|].
  cbn [updateSystemMenu_loop map negb]. rewrite IH.
  now destruct (updateSystemMenu_skips it).
Qed.

Lemma menuToDisable_cases (state : WindowState) :
  (menuToDisable state = SC_MAXIMIZE <-> state = WindowMaximized)
  /\ (menuToDisable state = SC_MINIMIZE <-> state = WindowMinimized)
  /\ (menuToDisable state = SC_RESTORE
      <-> state <> WindowMaximized /\ state <> WindowMinimized).
Proof.
  destruct state; cbn; repeat split; intros; try discriminate;
    try reflexivity; try tauto; intuition discriminate.
Qed.

(** X19. What [updateSystemMenu] leaves in a menu whose items can all be
    read and written.  Separators, items without an identifier and Close
    are left as they are.  Every other item keeps its type, its
    identifier and all state bits other than disabled and default, loses
    the default mark, and ends up either disabled or enabled: of
    Minimize, Maximize and Restore exactly the one that would lead to the
    state the window is in is disabled (Maximize when maximized, Minimize
    when minimized, Restore in every other state), and every other
    command, such as Move and Size, is disabled in every state. *)
Theorem updateSystemMenu_rule (state : WindowState)
    (items : list MENUITEMINFO) (i : nat) (it : MENUITEMINFO) :
  items !! i = Some it ->
  exists items' it',
    updateSystemMenu state (Some (reliable_menu items))
    = Some (reliable_menu items')
    /\ length items' = length items
    /\ items' !! i = Some it'
    /\ fType it' = fType it /\ wID it' = wID it
    /\ other_state_bits it' = other_state_bits it
    /\ (updateSystemMenu_skips it = true -> it' = it)
    /\ (updateSystemMenu_skips it = false ->
        Z.land (fState it') MFS_DEFAULT = 0
        /\ item_enabled it' = negb (item_disabled it')
        /\ (wID it = SC_MAXIMIZE ->
            (item_disabled it' = true <-> state = WindowMaximized))
        /\ (wID it = SC_MINIMIZE ->
            (item_disabled it' = true <-> state = WindowMinimized))
        /\ (wID it = SC_RESTORE ->
            (item_disabled it' = true
             <-> state <> WindowMaximized /\ state <> WindowMinimized))
        /\ (wID it <> SC_MAXIMIZE -> wID it <> SC_MINIMIZE ->
            wID it <> SC_RESTORE -> item_disabled it' = true)).
Proof.
  intros Hl.
  set (f := fun it => if updateSystemMenu_skips it then it
                      else {| fType := fType it;
                              fState := updateSystemMenu_state
                                          (menuToDisable state) it;
                              wID := wID it |}).
  exists (map f items), (f it).
  split.
  { unfold updateSystemMenu, reliable_menu.
    cbn [menu_items GetMenuItemInfo_ok SetMenuItemInfo_ok].
    now rewrite updateSystemMenu_loop_reliable. }
  split; [apply length_map|].
  split; [now rewrite list_lookup_fmap, Hl|].
  unfold f.
  destruct (updateSystemMenu_skips it) eqn:Hs.
  { repeat (split; [reflexivity|]). intros H. discriminate H. }
  destruct (updateSystemMenu_state_bits (menuToDisable state) it)
    as (B1 & B2 & B3).
  cbv zeta in B1, B2, B3.
  split; [reflexivity|]. split; [reflexivity|].
  split; [exact B1|]. split; [discriminate|]. intros _.
  unfold item_disabled, item_enabled. cbn [fState].
  split; [exact B2|].
  rewrite B3.
  set (c := (wID it =? menuToDisable state)
            || (negb (wID it =? SC_MINIMIZE) && negb (wID it =? SC_MAXIMIZE)
                && negb (wID it =? SC_RESTORE))).
  assert (Hd : ((if c then MFS_DISABLED else 0) =? MFS_DISABLED) = c)
    by (destruct c; reflexivity).
  assert (He : ((if c then MFS_DISABLED else 0) =? 0) = negb c)
    by (destruct c; reflexivity).
  rewrite Hd, He. unfold c. clear c Hd He.
  split; [reflexivity|].
  split; [| split; [| split]].
  - intros ->. destruct state; vm_compute; split; intros H;
      try reflexivity; discriminate H.
  - intros ->. destruct state; vm_compute; split; intros H;
      try reflexivity; discriminate H.
  - intros ->. destruct state; vm_compute; split; intros H;
      try reflexivity; try discriminate H;
      try (split; discriminate);
      destruct H as (H1 & H2); exfalso;
      first [now apply H1 | now apply H2].
  - intros H1 H2 H3.
    apply Z.eqb_neq in H1, H2, H3. rewrite H1, H2, H3. apply orb_true_r.
Qed.

Lemma updateSystemMenu_rule_witness :
  exists items' it',
    updateSystemMenu WindowMaximized (Some system_menu)
    = Some (reliable_menu items')
    /\ items' !! 4%nat = Some it'
    /\ wID it' = SC_MAXIMIZE
    /\ (item_disabled it' = true <-> WindowMaximized = WindowMaximized).
Proof.
  destruct (updateSystemMenu_rule WindowMaximized (menu_items system_menu) 4
              {| fType := 0; fState := 0; wID := SC_MAXIMIZE |} eq_refl)
    as (items' & it' & H1 & _ & H3 & _ & H5 & _ & _ & H8).
  destruct (H8 eq_refl) as (_ & _ & H9 & _).
  exists items', it'.
  split; [exact H1|]. split; [exact H3|]. split; [exact H5 | exact (H9 eq_refl)].
Defined.

Lemma updateSystemMenu_state_again (d1 d2 : Z) (it : MENUITEMINFO) :
  updateSystemMenu_state d2
    {| fType := fType it; fState := updateSystemMenu_state d1 it;
       wID := wID it |}
  = updateSystemMenu_state d2 it.
Proof.
  destruct (updateSystemMenu_state_bits d1 it) as (B1 & _).
  cbv zeta in B1. unfold other_state_bits in B1.
  unfold updateSystemMenu_state at 1 3. cbn [fState wID]. cbv zeta.
  now rewrite B1.
Qed.

Lemma updateSystemMenu_loop_again (d1 d2 : Z) (get_ok set_ok : nat -> bool)
    (i : nat) (todo : list MENUITEMINFO) :
  updateSystemMenu_loop d2 get_ok set_ok i
    (updateSystemMenu_loop d1 get_ok set_ok i todo)
  = updateSystemMenu_loop d2 get_ok set_ok i todo.
Proof.
  revert i. induction todo as [|it rest IH]; intros i; [reflexivity|].
  cbn [updateSystemMenu_loop].
  destruct (get_ok i) eqn:Hg; cbn [negb].
  2:{ cbn [updateSystemMenu_loop]. now rewrite Hg. }
  destruct (updateSystemMenu_skips it) eqn:Hs.
  { cbn [updateSystemMenu_loop]. now rewrite Hg, Hs, IH. }
  destruct (set_ok i) eqn:Hset; cbn [negb].
  2:{ cbn [updateSystemMenu_loop]. now rewrite Hg, Hs, Hset. }
  cbn [updateSystemMenu_loop]. rewrite Hg. cbn [negb].
  assert (Hs' : updateSystemMenu_skips
                  {| fType := fType it; fState := updateSystemMenu_state d1 it;
                     wID := wID it |} = false) by exact Hs.
  rewrite Hs', Hset. cbn [negb fType wID].
  now rewrite updateSystemMenu_state_again, IH.
Qed.

Lemma updateSystemMenu_loop_frame (d : Z) (get_ok set_ok : nat -> bool)
    (i : nat) (todo : list MENUITEMINFO) :
  Forall2 (fun it it' =>
             fType it' = fType it /\ wID it' = wID it
             /\ other_state_bits it' = other_state_bits it
             /\ (updateSystemMenu_skips it = true -> it' = it))
          todo (updateSystemMenu_loop d get_ok set_ok i todo).
Proof.
  assert (Hrefl : forall l : list MENUITEMINFO,
            Forall2 (fun it it' =>
                       fType it' = fType it /\ wID it' = wID it
                       /\ other_state_bits it' = other_state_bits it
                       /\ (updateSystemMenu_skips it = true -> it' = it)) l l).
  { induction l; constructor; auto. }
  revert i. induction todo as [|it rest IH]; intros i; [constructor|].
  cbn [updateSystemMenu_loop].
  destruct (get_ok i); cbn [negb]; [|apply Hrefl].
  destruct (updateSystemMenu_skips it) eqn:Hs.
  { constructor; [auto | apply IH]. }
  destruct (set_ok i); cbn [negb]; [|apply Hrefl].
  constructor; [|apply IH].
  destruct (updateSystemMenu_state_bits d it) as (B1 & _).
  split; [reflexivity|]. split; [reflexivity|]. split; [exact B1|].
  intros H. rewrite Hs in H. discriminate H.
Qed.

(** X20. [updateSystemMenu], whatever the platform calls do.  Run for a
    state after a run for another state it gives the menu a single run
    for the later state gives: the outcome does not depend on earlier
    runs, and a second run for the same state changes nothing.  It never
    adds, removes or reorders items, never changes the type or the
    identifier of an item nor any state bit other than disabled and
    default, and never touches a separator, an item without identifier
    or Close.  Without a menu handle it does nothing. *)
Theorem updateSystemMenu_last_state_wins (s1 s2 : WindowState) (menu : HMENU) :
  updateSystemMenu s2 (updateSystemMenu s1 (Some menu))
  = updateSystemMenu s2 (Some menu)
  /\ updateSystemMenu s1 (updateSystemMenu s1 (Some menu))
     = updateSystemMenu s1 (Some menu)
  /\ (exists menu',
        updateSystemMenu s1 (Some menu) = Some menu'
        /\ Forall2 (fun it it' =>
                      fType it' = fType it /\ wID it' = wID it
                      /\ other_state_bits it' = other_state_bits it
                      /\ (updateSystemMenu_skips it = true -> it' = it))
                   (menu_items menu) (menu_items menu'))
  /\ updateSystemMenu s1 None = None.
Proof.
  assert (H : forall a b,
            updateSystemMenu b (updateSystemMenu a (Some menu))
            = updateSystemMenu b (Some menu)).
  { intros a b. unfold updateSystemMenu.
    cbn [menu_items GetMenuItemInfo_ok SetMenuItemInfo_ok].
    now rewrite updateSystemMenu_loop_again. }
  split; [apply H|]. split; [apply H|]. split; [|reflexivity].
  eexists. split; [reflexivity|]. cbn [menu_items].
  apply updateSystemMenu_loop_frame.
Qed.
